(** * Resilient scraped-table acquisition: a shallow embedding

    The data-collection scripts of the repository
    ([metacritic_scraper.py], [vgchartz_game_scraper.py],
    [vgchartz_scraper.py], [opencritic_scraper.py]) drive a browser or an
    HTTP client, retry failed page loads, extract table rows and write a
    CSV file.  Their behaviour depends on what the outside world answers
    (the browser, the web site, the random generator, the file system).

    The embedding makes that dependence explicit: an [environment] fixes
    the answer of every external call, each script is a computation in a
    small monad of Python completions (normal, raised exception, [return],
    [break], [continue]) over the local variables of the function, and a
    run produces the ordered list of [event]s the script performed.  The
    destination file is obtained by replaying these events. *)

From Stdlib Require Import List String Ascii Bool Arith Lia ZArith QArith Lqa.
From Stdlib Require Import DecimalString.
Import ListNotations.
Open Scope string_scope.
Open Scope list_scope.
Open Scope nat_scope.

Set Implicit Arguments.

(** ** Python values, records and exceptions *)

(** The values the scripts store in their row dictionaries: cell text
    (strings) for the scraped tables; the JSON scalars of the OpenCritic
    API, which are stored as they come. *)
Inductive value : Type :=
| VNone
| VBool (b : bool)
| VNum (q : Q)
| VStr (s : string).

(** Python truthiness of a value ([if release_date:]). *)
Definition truthy (v : value) : bool :=
  match v with
  | VNone => false
  | VBool b => b
  | VNum q => negb (Qeq_bool q 0)
  | VStr s => negb (String.eqb s "")
  end.

(** A row dictionary: keys in insertion order. *)
Definition record := list (string * value).

Definition keys (r : record) : list string := map fst r.

Fixpoint dict_get (k : string) (r : record) : option value :=
  match r with
  | [] => None
  | (k', v) :: r' => if String.eqb k k' then Some v else dict_get k r'
  end.

(** The exceptions the modelled calls raise; all of them are subclasses of
    Python's [Exception].  [TimeoutException] and [NoSuchElementException]
    are subclasses of selenium's [WebDriverException]. *)
Inductive exn : Type :=
| TimeoutException
| NoSuchElementException
| WebDriverException
| RequestException
| OSError
| ValueError
| UnicodeEncodeError
| KeyError
| IndexError
| TypeError
| AttributeError
| UnboundLocalError.

(** [isinstance(e, WebDriverException)] *)
Definition is_WebDriverException (e : exn) : bool :=
  match e with
  | TimeoutException | NoSuchElementException | WebDriverException => true
  | _ => false
  end.

(** [isinstance(e, TimeoutException)] *)
Definition is_TimeoutException (e : exn) : bool :=
  match e with
  | TimeoutException => true
  | _ => false
  end.

(** [isinstance(e, requests.exceptions.RequestException)] *)
Definition is_RequestException (e : exn) : bool :=
  match e with
  | RequestException => true
  | _ => false
  end.

(** The answer of an external call: a value, or an exception. *)
Inductive call_result (A : Type) : Type :=
| Ok (a : A)
| Raises (e : exn).
Arguments Ok {A} a.
Arguments Raises {A} e.

Definition raised {A} (r : call_result A) : option exn :=
  match r with
  | Ok _ => None
  | Raises e => Some e
  end.

(** ** Events *)

(** The client identity of a session: user-agent signature, platform and
    accept-language. *)
Record identity := mkIdentity {
  user_agent : string;
  platform : string;
  accept_language : string
}.

(** DevTools commands sent by the scrapers. *)
Inductive cdp_command : Type :=
| SetUserAgentOverride (id : identity)
| AddScriptToEvaluateOnNewDocument
| SetExtraHTTPHeaders.

(** External operations. *)
Inductive operation : Type :=
| OpChrome (ua : string)          (* webdriver.Chrome(service, options) *)
| OpCdp (c : cdp_command)         (* driver.execute_cdp_cmd *)
| OpGet                           (* driver.get(URL): a navigation attempt *)
| OpWait (marker : string)        (* WebDriverWait(driver, 20).until(presence) *)
| OpTitle                         (* driver.title *)
| OpPageSource                    (* driver.page_source *)
| OpFindElements (name : string)  (* find_elements / find_element(...).text *)
| OpQuit                          (* driver.quit() *)
| OpRequest (url : string)        (* requests.get + raise_for_status + json *)
| OpMakedirs                      (* os.makedirs(dirname, exist_ok=True) *)
| OpOpen                          (* open(OUTPUT_FILE, 'w') *)
| OpWrite.                        (* f.write(line) of the csv writer, when it raises *)

(** ** The file object *)

(** What writing to a text file opened with [encoding='utf-8'] raises:
    [UnicodeEncodeError] for a line that utf-8 cannot encode (a lone
    surrogate in a cell), [OSError] when the device fails or is full.
    Neither is a selenium exception. *)
Inductive file_error : Type :=
| UnencodableText
| DeviceError.

Definition exn_of (e : file_error) : exn :=
  match e with
  | UnencodableText => UnicodeEncodeError
  | DeviceError => OSError
  end.

(** What [f.close()] answers when the [with] block is left: it returns,
    or it raises [OSError] while flushing, and then only the first
    [persisted] of the lines written have reached the disk. *)
Inductive close_answer : Type :=
| Closed
| CloseFails (persisted : nat).

(** The file object that [open] returns: what the k-th call of its
    [write] method answers (the csv writer calls it once per line; the
    header line is call 0), and what [close] answers. *)
Record file_object := mkFile {
  write : nat -> option file_error;
  close : close_answer
}.

Inductive level : Type := INFO | WARNING | ERROR.

(** Log messages: the template of the source line with its arguments. *)
Inductive message : Type :=
| MsgScraping
| MsgDriverNotFound
| MsgPageLoaded (attempt max : nat)
| MsgPageTitle (t : string)
| MsgNoGameElements
| MsgNoGameElementsRetrying (attempt : nat)
| MsgErrorProcessingGame (e : exn)
| MsgNoGameData
| MsgSaved
| MsgWebDriverError (attempt : nat) (e : exn)
| MsgAnErrorOccurred (e : exn)
| MsgErrorClosingDriver (e : exn)
| MsgCouldNotFindTable
| MsgPageSourceHeader
| MsgPageSource (s : string)
| MsgTableNotFoundRetrying (attempt : nat)
| MsgSkippingRow (cols : list string)
| MsgErrorProcessingRow (e : exn)
| MsgNoNintendoGameData
| MsgNoNintendoConsoleData
| MsgCouldNotFindSalesTable
| MsgFoundGames (n : nat)
| MsgProcessedGame (title : value)
| MsgErrorProcessingGameNamed (name : value) (e : exn)
| MsgErrorMakingRequest (e : exn).

(** What a run does, in order. [Call op None] is a call that returned,
    [Call op (Some e)] one that raised [e]. *)
Inductive event : Type :=
| Choose (ua : string)                   (* get_random_user_agent() *)
| Call (op : operation) (err : option exn)
| Sleep (seconds : Q)                    (* time.sleep *)
| Log (l : level) (m : message)
| WriteLine (cells : list value)         (* one csv line written to the open file *)
| Close (a : close_answer).              (* f.close() at the end of the with block *)

(** ** The monad of Python completions *)

(** A [tr] element: the stripped texts of its [td] cells (the list [cols]
    of the source), or the exception raised when reading them. *)
Definition row_element := call_result (list string).

(** The [chart] table element: its [tr] elements, or the exception raised
    when asking for them. *)
Definition table_element := call_result (list row_element).

(** The local variables that live across statements. *)
Record frame := mkFrame {
  data : list record;            (* data = [] ... data.append(...) *)
  table : option table_element   (* table = WebDriverWait(...).until(...) *)
}.

Definition frame0 : frame := {| data := []; table := None |}.

Inductive completion (A : Type) : Type :=
| Normal (a : A)
| Raised (e : exn)
| Returned
| Broke
| Continued.
Arguments Normal {A} a.
Arguments Raised {A} e.
Arguments Returned {A}.
Arguments Broke {A}.
Arguments Continued {A}.

Definition M (A : Type) : Type := frame -> completion A * frame * list event.

Definition ret {A} (a : A) : M A := fun fr => (Normal a, fr, []).

Definition bind {A B} (m : M A) (f : A -> M B) : M B :=
  fun fr =>
    match m fr with
    | (Normal a, fr1, t1) =>
        match f a fr1 with
        | (c, fr2, t2) => (c, fr2, t1 ++ t2)
        end
    | (Raised e, fr1, t1) => (Raised e, fr1, t1)
    | (Returned, fr1, t1) => (Returned, fr1, t1)
    | (Broke, fr1, t1) => (Broke, fr1, t1)
    | (Continued, fr1, t1) => (Continued, fr1, t1)
    end.

Declare Scope py_scope.
Delimit Scope py_scope with py.
Notation "x <- m ;; k" := (bind m (fun x => k))
  (at level 61, m at next level, right associativity) : py_scope.
Notation "m ;; k" := (bind m (fun _ => k))
  (at level 61, right associativity) : py_scope.
Open Scope py_scope.

Definition emit (e : event) : M unit := fun fr => (Normal tt, fr, [e]).
Definition raise {A} (e : exn) : M A := fun fr => (Raised e, fr, []).
Definition return_ {A} : M A := fun fr => (Returned, fr, []).
Definition break_ {A} : M A := fun fr => (Broke, fr, []).
Definition continue_ {A} : M A := fun fr => (Continued, fr, []).

Definition log (l : level) (m : message) : M unit := emit (Log l m).
Definition sleep (d : Q) : M unit := emit (Sleep d).

(** An external call: recorded with its outcome, then returns or raises. *)
Definition perform {A} (op : operation) (r : call_result A) : M A :=
  emit (Call op (raised r)) ;;
  match r with
  | Ok a => ret a
  | Raises e => raise e
  end.

Definition get_data : M (list record) := fun fr => (Normal (data fr), fr, []).
Definition set_data (d : list record) : M unit :=
  fun fr => (Normal tt, {| data := d; table := table fr |}, []).
Definition data_append (r : record) : M unit :=
  fun fr => (Normal tt, {| data := data fr ++ [r]; table := table fr |}, []).
Definition get_table : M (option table_element) :=
  fun fr => (Normal (table fr), fr, []).
Definition set_table (t : table_element) : M unit :=
  fun fr => (Normal tt, {| data := data fr; table := Some t |}, []).

(** [try: body except <classes> as e: handler e].  [handler e = None] when
    no clause matches [e]. *)
Definition try_except {A} (body : M A) (handler : exn -> option (M A)) : M A :=
  fun fr =>
    match body fr with
    | (Raised e, fr1, t1) =>
        match handler e with
        | Some h =>
            match h fr1 with
            | (c, fr2, t2) => (c, fr2, t1 ++ t2)
            end
        | None => (Raised e, fr1, t1)
        end
    | other => other
    end.

(** [try: body finally: fin].  The finaliser runs on every completion of
    the body; the body's completion stands unless the finaliser itself
    completes abruptly. *)
Definition try_finally {A} (body : M A) (fin : M unit) : M A :=
  fun fr =>
    match body fr with
    | (c, fr1, t1) =>
        match fin fr1 with
        | (Normal _, fr2, t2) => (c, fr2, t1 ++ t2)
        | (Raised e, fr2, t2) => (Raised e, fr2, t1 ++ t2)
        | (Returned, fr2, t2) => (Returned, fr2, t1 ++ t2)
        | (Broke, fr2, t2) => (Broke, fr2, t1 ++ t2)
        | (Continued, fr2, t2) => (Continued, fr2, t1 ++ t2)
        end
    end.

(** [for x in xs: body x] *)
Fixpoint for_each {X} (xs : list X) (body : X -> M unit) : M unit :=
  match xs with
  | [] => ret tt
  | x :: xs' =>
      fun fr =>
        match body x fr with
        | (Normal _, fr1, t1) | (Continued, fr1, t1) =>
            match for_each xs' body fr1 with
            | (c, fr2, t2) => (c, fr2, t1 ++ t2)
            end
        | (Broke, fr1, t1) => (Normal tt, fr1, t1)
        | (Raised e, fr1, t1) => (Raised e, fr1, t1)
        | (Returned, fr1, t1) => (Returned, fr1, t1)
        end
  end.

(** [range(n)] *)
Definition range (n : nat) : list nat := seq 0 n.

(** Running a function body: a [return] ends the call normally; an
    exception that nothing caught escapes to the caller ([Some e]). *)
Definition run (m : M unit) : option exn * list event :=
  match m frame0 with
  | (Raised e, _, t) => (Some e, t)
  | (_, _, t) => (None, t)
  end.

(** ** Randomness *)

(** [random.random()] returns a multiple of 2^-53 in [0, 1).  The
    environment supplies the raw 53-bit draw. *)
Definition random_random (draw : N) : Q :=
  Z.of_N (draw mod 2 ^ 53) # (2 ^ 53).

(** [random.uniform(a, b)] is [a + (b - a) * random()] (exact arithmetic;
    rounding is not modelled). *)
Definition uniform (a b : Q) (draw : N) : Q :=
  (a + (b - a) * random_random draw)%Q.

(** ** The destination file *)

(** A file is its list of csv lines; the first one is the header. *)
Definition file := list (list value).

(** The state of the destination after an event: a successful
    [open(..., 'w')] creates or truncates it, each written line is
    appended, and a [close] that fails leaves only the lines that had
    reached the disk. *)
Definition fs_step (f : option file) (e : event) : option file :=
  match e with
  | Call OpOpen None => Some []
  | WriteLine l =>
      match f with
      | Some ls => Some (ls ++ [l])
      | None => None
      end
  | Close (CloseFails persisted) =>
      match f with
      | Some ls => Some (firstn persisted ls)
      | None => None
      end
  | _ => f
  end.

Definition fs_after (f : option file) (t : list event) : option file :=
  fold_left fs_step t f.

(** [csv.DictWriter._dict_to_list] with the default [extrasaction='raise']
    and [restval='']. *)
Definition dict_to_list (fieldnames : list string) (row : record)
  : call_result (list value) :=
  if forallb (fun k => existsb (String.eqb k) fieldnames) (keys row)
  then Ok (map (fun k => match dict_get k row with
                         | Some v => v
                         | None => VStr ""
                         end) fieldnames)
  else Raises ValueError.

(** The k-th call of [f.write]: the line reaches the file object, or
    the call raises. *)
Definition write_line (f : file_object) (k : nat) (cells : list value) : M unit :=
  match write f k with
  | None => emit (WriteLine cells)
  | Some e => emit (Call OpWrite (Some (exn_of e))) ;; raise (exn_of e)
  end.

(** [f.close()], called when the [with] block is left. *)
Definition close_file (f : file_object) : M unit :=
  emit (Close (close f)) ;;
  match close f with
  | Closed => ret tt
  | CloseFails _ => raise OSError
  end.

(** The elements of a list with their positions, counted from [k]. *)
Definition numbered {X} (k : nat) (xs : list X) : list (nat * X) :=
  combine (seq k (List.length xs)) xs.

(** [os.makedirs] ... [writer.writerows(data)]: the lines that write the
    file (the same in every scraper), given the answers of [os.makedirs]
    and [open].  The [with] statement closes the file however its block
    is left. *)
Definition write_csv (makedirs_answer : call_result unit)
  (open_answer : call_result file_object) : M unit :=
  perform OpMakedirs makedirs_answer ;;
  f <- perform OpOpen open_answer ;;
  try_finally
    (d <- get_data ;;
     match d with
     | [] => raise IndexError                      (* data[0] *)
     | first :: _ =>
         let fieldnames := keys first in
         write_line f 0 (map VStr fieldnames) ;;     (* writeheader *)
         for_each (numbered 1 d) (fun row =>         (* writerows *)
           match dict_to_list fieldnames (snd row) with
           | Ok cells => write_line f (fst row) cells
           | Raises e => raise e
           end)
     end)
    (close_file f).

(** ** The environment of a browser scraper *)

(** A [c-productListItem] element of the Metacritic page: the stripped
    text of its title, score and date children, or the exception raised
    when looking one up. *)
Record game_element := mkGame {
  game_title : call_result string;
  game_score : call_result string;
  game_date : call_result string
}.

(** Everything the outside world answers during one run.  Answers that can
    differ between attempts are indexed by the attempt ([attempt] of the
    source, counted from 0). *)
Record environment := mkEnv {
  (* random generator *)
  choice_draw : nat -> nat;            (* index drawn by the k-th random.choice *)
  before_attempt_draw : nat -> N;      (* random.uniform(2, 5) before an attempt *)
  after_load_draw : nat -> N;          (* random.uniform(3, 7) after driver.get *)
  before_retry_draw : nat -> N;        (* random.uniform(3, 7) in the except clause *)
  (* driver *)
  chromedriver_exists : bool;          (* os.path.exists(chromedriver_path) *)
  chrome : call_result unit;           (* webdriver.Chrome(...) *)
  cdp : nat -> call_result unit;       (* k-th driver.execute_cdp_cmd *)
  navigate : nat -> call_result unit;  (* driver.get(URL) *)
  wait_page : nat -> call_result unit; (* wait for c-productList / body *)
  title : nat -> call_result string;   (* driver.title *)
  product_items : nat -> call_result (list game_element);
  wait_chart : nat -> call_result table_element;
  page_source : call_result string;
  quit : call_result unit;             (* driver.quit() *)
  (* file system *)
  makedirs : call_result unit;
  open_w : call_result file_object
}.

(** The candidate pool of [get_random_user_agent] (the same in every
    scraper). *)
Definition user_agents : list string :=
  [ "Mozilla/5.0 (Windows NT 10.0; Win64; x64) AppleWebKit/537.36 (KHTML, like Gecko) Chrome/137.0.7151.68 Safari/537.36";
    "Mozilla/5.0 (Windows NT 10.0; Win64; x64) AppleWebKit/537.36 (KHTML, like Gecko) Chrome/136.0.0.0 Safari/537.36";
    "Mozilla/5.0 (Macintosh; Intel Mac OS X 10_15_7) AppleWebKit/537.36 (KHTML, like Gecko) Chrome/137.0.7151.68 Safari/537.36";
    "Mozilla/5.0 (Windows NT 10.0; Win64; x64; rv:109.0) Gecko/20100101 Firefox/115.0" ].

(** [random.choice(seq)] is [seq[_randbelow(len(seq))]]. *)
Definition random_choice (draw : nat) (xs : list string) : string :=
  nth (draw mod List.length xs) xs "".

Definition max_retries : nat := 3.

Section Browser.

Variable E : environment.

(** [get_random_user_agent()]; [k] numbers the calls of a run. *)
Definition get_random_user_agent (k : nat) : M string :=
  let ua := random_choice (choice_draw E k) user_agents in
  emit (Choose ua) ;;
  ret ua.

(** [setup_driver()]: [None] when the chromedriver binary is missing. *)
Definition setup_driver : M (option unit) :=
  ua <- get_random_user_agent 0 ;;
  if negb (chromedriver_exists E) then
    log ERROR MsgDriverNotFound ;;
    ret None
  else
    perform (OpChrome ua) (chrome E) ;;
    ret (Some tt).

(** The three [execute_cdp_cmd] calls that open the [try] block. *)
Definition configure_session : M unit :=
  ua <- get_random_user_agent 1 ;;
  perform (OpCdp (SetUserAgentOverride (mkIdentity ua "Windows" "en-US,en;q=0.9")))
          (cdp E 0) ;;
  perform (OpCdp AddScriptToEvaluateOnNewDocument) (cdp E 1) ;;
  perform (OpCdp SetExtraHTTPHeaders) (cdp E 2).

(** The [finally] clause of both browser scrapers. *)
Definition close_driver : M unit :=
  try_except
    (perform OpQuit (quit E))
    (fun e => Some (log WARNING (MsgErrorClosingDriver e))).

(** The [except WebDriverException] clause of the retry loop. *)
Definition on_webdriver_error (attempt : nat) (e : exn) : option (M unit) :=
  if is_WebDriverException e then
    Some (if attempt =? max_retries - 1 then raise e
          else
            log WARNING (MsgWebDriverError (attempt + 1) e) ;;
            sleep (uniform 3 7 (before_retry_draw E attempt)) ;;
            continue_)
  else None.

(** The first lines of an attempt: delay, [driver.get], delay, wait for
    the page marker, log the title. *)
Definition load_page (marker : string) (attempt : nat) : M unit :=
  sleep (uniform 2 5 (before_attempt_draw E attempt)) ;;
  perform OpGet (navigate E attempt) ;;
  log INFO (MsgPageLoaded (attempt + 1) max_retries) ;;
  sleep (uniform 3 7 (after_load_draw E attempt)) ;;
  perform (OpWait marker) (wait_page E attempt) ;;
  t <- perform OpTitle (title E attempt) ;;
  log INFO (MsgPageTitle t).

End Browser.

(** ** metacritic_scraper.py *)

Module Metacritic.
Section Scraper.

Variable E : environment.

Definition mk_record (title score release_date : string) : record :=
  [ ("Game", VStr title); ("Metascore", VStr score);
    ("Release Date", VStr release_date) ].

(** The body of [for game in game_elements]. *)
Definition process_game (game : game_element) : M unit :=
  try_except
    (title <- perform (OpFindElements "c-productListItem_title") (game_title game) ;;
     score <- perform (OpFindElements "c-siteReviewScore") (game_score game) ;;
     release_date <- perform (OpFindElements "c-productListItem_date") (game_date game) ;;
     data_append (mk_record title score release_date))
    (fun e => Some (log WARNING (MsgErrorProcessingGame e) ;; continue_)).

(** The rest of the [try] block of an attempt, once the page is loaded:
    find the game entries, build [data], write the file. *)
Definition extract_and_save (attempt : nat) : M unit :=
  game_elements <- perform (OpFindElements "c-productListItem")
                           (product_items E attempt) ;;
  match game_elements with
  | [] =>
      if attempt =? max_retries - 1 then
        log ERROR MsgNoGameElements ;;
        return_
      else
        log WARNING (MsgNoGameElementsRetrying (attempt + 1)) ;;
        continue_
  | _ :: _ =>
      set_data [] ;;
      for_each game_elements process_game ;;
      d <- get_data ;;
      match d with
      | [] =>
          log WARNING MsgNoGameData ;;
          return_
      | _ :: _ =>
          write_csv (makedirs E) (open_w E) ;;
          log INFO MsgSaved ;;
          break_
      end
  end.

(** The body of [for attempt in range(max_retries)]. *)
Definition attempt_body (attempt : nat) : M unit :=
  try_except
    (load_page E "c-productList" attempt ;;
     extract_and_save attempt)
    (on_webdriver_error E attempt).

Definition scrape_metacritic_scores : M unit :=
  log INFO MsgScraping ;;
  driver <- setup_driver E ;;
  match driver with
  | None => return_
  | Some _ =>
      try_finally
        (try_except
           (configure_session E ;;
            for_each (range max_retries) attempt_body)
           (fun e => Some (log ERROR (MsgAnErrorOccurred e))))
        (close_driver E)
  end.

End Scraper.
End Metacritic.

(** ** vgchartz_game_scraper.py *)

Module VGChartzGames.
Section Scraper.

Variable E : environment.

Definition mk_record (cols : list string) : record :=
  [ ("Game", VStr (nth 1 cols ""));
    ("Platform", VStr (nth 2 cols ""));
    ("Publisher", VStr (nth 3 cols ""));
    ("Developer", VStr (nth 4 cols ""));
    ("Total Sales (M)", VStr (nth 5 cols ""));
    ("Release Date", VStr (nth 6 cols "")) ].

(** [not cols or len(cols) < 7] *)
Definition insufficient (cols : list string) : bool :=
  match cols with
  | [] => true
  | _ :: _ => List.length cols <? 7
  end.

(** The body of [for row in rows]. *)
Definition process_row (row : row_element) : M unit :=
  try_except
    (cols <- perform (OpFindElements "td") row ;;
     if insufficient cols then
       log WARNING (MsgSkippingRow cols) ;;
       continue_
     else
       data_append (mk_record cols))
    (fun e => Some (log WARNING (MsgErrorProcessingRow e) ;; continue_)).

(** The table extraction: [rows = ...[1:]], [data = []], the row loop. *)
Definition extract_rows : M unit :=
  t <- get_table ;;
  match t with
  | None => raise UnboundLocalError
  | Some tbl =>
      trs <- perform (OpFindElements "tr") tbl ;;
      let rows := tl trs in
      set_data [] ;;
      for_each rows process_row
  end.

(** The inner [try] of an attempt: look for the [chart] table. *)
Definition find_table (attempt : nat) : M unit :=
  try_except
    (tbl <- perform (OpWait "chart") (wait_chart E attempt) ;;
     set_table tbl ;;
     break_)
    (fun e =>
       if is_TimeoutException e then
         Some (if attempt =? max_retries - 1 then
                 log ERROR MsgCouldNotFindTable ;;
                 log INFO MsgPageSourceHeader ;;
                 src <- perform OpPageSource (page_source E) ;;
                 log INFO (MsgPageSource (substring 0 1000 src)) ;;
                 return_
               else
                 log WARNING (MsgTableNotFoundRetrying (attempt + 1)) ;;
                 continue_)
       else None).

(** The body of [for attempt in range(max_retries)]. *)
Definition attempt_body (attempt : nat) : M unit :=
  try_except
    (load_page E "body" attempt ;;
     find_table attempt)
    (on_webdriver_error E attempt).

(** The statements after the retry loop: extract the rows, write the
    file. *)
Definition extract_and_save : M unit :=
  extract_rows ;;
  d <- get_data ;;
  match d with
  | [] =>
      log WARNING MsgNoNintendoGameData ;;
      return_
  | _ :: _ =>
      write_csv (makedirs E) (open_w E) ;;
      log INFO MsgSaved
  end.

Definition scrape_vgchartz_game_sales : M unit :=
  log INFO MsgScraping ;;
  driver <- setup_driver E ;;
  match driver with
  | None => return_
  | Some _ =>
      try_finally
        (try_except
           (configure_session E ;;
            for_each (range max_retries) attempt_body ;;
            extract_and_save)
           (fun e => Some (log ERROR (MsgAnErrorOccurred e))))
        (close_driver E)
  end.

End Scraper.
End VGChartzGames.

(** ** vgchartz_scraper.py *)

(** [sub in s] for Python strings: [sub] occurs in [s] as a substring. *)
Fixpoint contains (sub s : string) : bool :=
  if prefix sub s then true
  else match s with
       | EmptyString => false
       | String _ s' => contains sub s'
       end.

Module VGChartzConsoles.

Definition NINTENDO_CONSOLES : list string :=
  [ "Switch"; "Wii"; "Wii U"; "3DS"; "DS"; "GameCube"; "N64"; "SNES"; "NES";
    "Game Boy"; "Game Boy Advance"; "Virtual Boy" ].

(** What the outside world answers: the HTTP request, the [chart] table
    of the parsed page ([None] when [soup.find] finds none) as the cell
    texts of its [tr] rows, and the file system. *)
Record environment := mkEnv {
  response : call_result unit;
  sales_table : option (list (list string));
  makedirs : call_result unit;
  open_w : call_result file_object
}.

Section Scraper.

Variable E : environment.

Definition mk_record (name : string) (cols : list string) : record :=
  [ ("Console", VStr name);
    ("North America (M)", VStr (nth 2 cols ""));
    ("Europe (M)", VStr (nth 3 cols ""));
    ("Japan (M)", VStr (nth 4 cols ""));
    ("Rest of World (M)", VStr (nth 5 cols ""));
    ("Total Sales (M)", VStr (nth 6 cols "")) ].

(** [not cols or len(cols) < 7] *)
Definition insufficient (cols : list string) : bool :=
  match cols with
  | [] => true
  | _ :: _ => List.length cols <? 7
  end.

(** [any(console in name for console in NINTENDO_CONSOLES)] *)
Definition is_nintendo (name : string) : bool :=
  existsb (fun console => contains console name) NINTENDO_CONSOLES.

(** The body of [for row in rows]; [cols] is the list computed from [row]. *)
Definition process_row (cols : list string) : M unit :=
  if insufficient cols then
    log WARNING (MsgSkippingRow cols) ;;
    continue_
  else
    let name := nth 1 cols "" in
    if is_nintendo name then data_append (mk_record name cols)
    else ret tt.

Definition scrape_vgchartz_console_sales : M unit :=
  log INFO MsgScraping ;;
  perform (OpRequest "https://www.vgchartz.com/analysis/platform_totals/")
          (response E) ;;
  match sales_table E with
  | None =>
      log ERROR MsgCouldNotFindSalesTable ;;
      return_
  | Some trs =>
      let rows := tl trs in
      set_data [] ;;
      for_each rows process_row ;;
      d <- get_data ;;
      match d with
      | [] =>
          log WARNING MsgNoNintendoConsoleData ;;
          return_
      | _ :: _ =>
          write_csv (makedirs E) (open_w E) ;;
          log INFO MsgSaved
      end
  end.

End Scraper.
End VGChartzConsoles.

(** ** opencritic_scraper.py *)

(** The date part of a [datetime]. *)
Record datetime := mkDate { year : nat; month : nat; day : nat }.

Definition digit (n : nat) : ascii := ascii_of_nat (48 + n mod 10).

(** Two and four decimal digits, zero-padded. *)
Definition pad2 (n : nat) : string :=
  String (digit (n / 10)) (String (digit n) "").
Definition pad4 (n : nat) : string :=
  String (digit (n / 1000)) (String (digit (n / 100)) (pad2 n)).

(** The decimal digits of a number, without padding. *)
Definition decimal_digits (n : nat) : string :=
  NilZero.string_of_uint (Nat.to_uint n).

(** [dt.strftime('%Y-%m-%d')].  [datetime.strftime] hands the format to
    the C library, whose [%Y] (glibc) writes the year without padding:
    [999-01-01] for the year 999; [%m] and [%d] are two digits. *)
Definition strftime_Ymd (dt : datetime) : string :=
  (decimal_digits (year dt) ++ "-" ++ pad2 (month dt) ++ "-" ++ pad2 (day dt))%string.

(** [s.replace('Z', '+00:00')] *)
Fixpoint replace_Z (s : string) : string :=
  match s with
  | EmptyString => EmptyString
  | String c s' =>
      if Ascii.eqb c "Z" then ("+00:00" ++ replace_Z s')%string
      else String c (replace_Z s')
  end.

Module OpenCritic.

(** A JSON object of which the script reads members. *)
Definition json_object := list (string * value).

(** A parsed JSON value as the script can tell it apart: an object, on
    which [[]] and [get] work, or anything else (null, a boolean, a
    number, a string, an array), on which [game['id']] raises [TypeError]
    and [game.get] raises [AttributeError]. *)
Inductive json : Type :=
| JObject (members : json_object)
| JOther.

(** The parsed answer of the list request, as [len(games)] and
    [for game in games] see it: its entries (the elements of an array;
    an object or a string iterate as their keys or characters, which are
    strings, so entries that are not objects), or a value without a
    length (null, a boolean, a number), on which [len] raises
    [TypeError]. *)
Inductive listing : Type :=
| Entries (games : list json)
| NoLength.

(** What the outside world answers: the list request, the detail
    request of each game (by position in the list), the random
    generator and the file system. *)
Record environment := mkEnv {
  choice_draw : nat -> nat;
  delay_draw : nat -> N;
  games_response : call_result listing;
  details_response : nat -> call_result json;
  makedirs : call_result unit;
  open_w : call_result file_object
}.

Section Scraper.

(** [datetime.fromisoformat] of the Python library: the parsed date, or
    [ValueError]. *)
Variable fromisoformat : string -> call_result datetime.

Variable E : environment.

(** [d.get(k, default)] on a dict. *)
Definition get_default (k : string) (d : json_object) (default : value) : value :=
  match dict_get k d with
  | Some v => v
  | None => default
  end.

(** [j[k]] *)
Definition subscript (k : string) (j : json) : M value :=
  match j with
  | JObject d =>
      match dict_get k d with
      | Some v => ret v
      | None => raise KeyError
      end
  | JOther => raise TypeError
  end.

(** [j.get(k, default)] *)
Definition json_get (k : string) (j : json) (default : value) : M value :=
  match j with
  | JObject d => ret (get_default k d default)
  | JOther => raise AttributeError
  end.

(** [get_headers()]: draws the user agent of the request. *)
Definition get_headers (k : nat) : M unit :=
  emit (Choose (random_choice (choice_draw E k) user_agents)).

(** Lines 74-78: the conversion of the release date. *)
Definition convert_release_date (release_date : value) : value :=
  if truthy release_date then
    match release_date with
    | VStr s =>
        match fromisoformat (replace_Z s) with
        | Ok dt => VStr (strftime_Ymd dt)
        | Raises _ => VStr ""
        end
    | _ => VStr ""                (* no [replace] method: AttributeError *)
    end
  else release_date.

Definition mk_record (title score release_date : value) : record :=
  [ ("Game", title); ("OpenCritic Score", score); ("Release Date", release_date) ].

(** The body of [for game in games]; [i] is the position of [game].  The
    handler evaluates [game.get('name', 'unknown')] before it logs. *)
Definition process_game (i : nat) (game : json) : M unit :=
  try_except
    (game_id <- subscript "id" game ;;
     sleep (uniform 0.5 1.5 (delay_draw E i)) ;;
     get_headers (S i) ;;
     game_details <- perform (OpRequest "https://api.opencritic.com/api/game/{game_id}")
                             (details_response E i) ;;
     title <- json_get "name" game_details (VStr "") ;;
     score <- json_get "topCriticScore" game_details (VNum 0) ;;
     release_date <- json_get "firstReleaseDate" game_details (VStr "") ;;
     let release_date := convert_release_date release_date in
     data_append (mk_record title score release_date) ;;
     log INFO (MsgProcessedGame title))
    (fun e =>
       Some (name <- json_get "name" game (VStr "unknown") ;;
             log WARNING (MsgErrorProcessingGameNamed name e) ;;
             continue_)).

(** [for game in games] with the position of each game. *)
Definition indexed {X} (xs : list X) : list (nat * X) :=
  combine (seq 0 (List.length xs)) xs.

Definition scrape_opencritic_scores : M unit :=
  log INFO MsgScraping ;;
  try_except
    (get_headers 0 ;;
     answer <- perform (OpRequest "https://api.opencritic.com/api/game")
                       (games_response E) ;;
     match answer with
     | NoLength => raise TypeError                   (* len(games) *)
     | Entries games =>
         log INFO (MsgFoundGames (List.length games)) ;;
         set_data [] ;;
         for_each (indexed games) (fun ig => process_game (fst ig) (snd ig)) ;;
         d <- get_data ;;
         match d with
         | [] =>
             log WARNING MsgNoGameData ;;
             return_
         | _ :: _ =>
             write_csv (makedirs E) (open_w E) ;;
             log INFO MsgSaved
         end
     end)
    (fun e =>
       if is_RequestException e
       then Some (log ERROR (MsgErrorMakingRequest e))
       else Some (log ERROR (MsgAnErrorOccurred e))).

End Scraper.
End OpenCritic.

(** ** Observations on the events of a run *)

Definition outcome_of {A} (m : M A) (fr : frame) : completion A := fst (fst (m fr)).
Definition frame_of {A} (m : M A) (fr : frame) : frame := snd (fst (m fr)).
Definition trace_of {A} (m : M A) (fr : frame) : list event := snd (m fr).

Definition count (p : event -> bool) (t : list event) : nat :=
  List.length (filter p t).

(** A navigation attempt: a call of [driver.get], whatever its outcome. *)
Definition is_navigation (e : event) : bool :=
  match e with
  | Call OpGet _ => true
  | _ => false
  end.

(** A call of the Identity Provider. *)
Definition is_choice (e : event) : bool :=
  match e with
  | Choose _ => true
  | _ => false
  end.

(** The session is terminated by [driver.quit()]. *)
Definition is_quit (e : event) : bool :=
  match e with
  | Call OpQuit _ => true
  | _ => false
  end.

(** The browser process is started by [webdriver.Chrome(...)]. *)
Definition is_launch (e : event) : bool :=
  match e with
  | Call (OpChrome _) _ => true
  | _ => false
  end.

(** Events that touch the destination file: a successful [open], a line
    written, a [close] that fails and loses lines. *)
Definition is_write (e : event) : bool :=
  match e with
  | Call OpOpen None | WriteLine _ | Close (CloseFails _) => true
  | _ => false
  end.

Definition is_sleep (e : event) : bool :=
  match e with
  | Sleep _ => true
  | _ => false
  end.

(** Events that install a client identity in the session. *)
Definition installs_identity (e : event) : bool :=
  match e with
  | Call (OpChrome _) _ | Call (OpCdp (SetUserAgentOverride _)) _ => true
  | _ => false
  end.

Definition navigations (t : list event) : nat := count is_navigation t.

(** The log of a run. *)
Fixpoint log_of (t : list event) : list (level * message) :=
  match t with
  | [] => []
  | Log l m :: t' => (l, m) :: log_of t'
  | _ :: t' => log_of t'
  end.

(** The events that follow the first navigation attempt. *)
Fixpoint after_first_navigation (t : list event) : list event :=
  match t with
  | [] => []
  | e :: t' => if is_navigation e then t' else after_first_navigation t'
  end.

(** The identity in effect at each navigation attempt: the one of the
    last successful launch or user-agent override before it. *)
Fixpoint presented (current : option identity) (t : list event)
  : list (option identity) :=
  match t with
  | [] => []
  | Call (OpChrome ua) None :: t' =>
      presented (Some (mkIdentity ua "Windows" "en-US,en;q=0.9")) t'
  | Call (OpCdp (SetUserAgentOverride id)) None :: t' => presented (Some id) t'
  | Call OpGet _ :: t' => current :: presented current t'
  | _ :: t' => presented current t'
  end.

(** Whether every navigation attempt after the first one is preceded,
    since the previous attempt, by a call of the Identity Provider.
    [chosen] tells whether one was seen since the last attempt. *)
Fixpoint rechosen_between_attempts (chosen : bool) (t : list event) : bool :=
  match t with
  | [] => true
  | Choose _ :: t' => rechosen_between_attempts true t'
  | Call OpGet _ :: t' => chosen && rechosen_between_attempts false t'
  | _ :: t' => rechosen_between_attempts chosen t'
  end.

(** The delays slept immediately before each navigation attempt: for each
    [driver.get], the sleeps performed since the previous external call
    (log lines do not separate them).  [scan_delays pending t] returns
    these blocks and the sleeps still pending at the end of [t]. *)
Fixpoint scan_delays (pending : list Q) (t : list event)
  : list (list Q) * list Q :=
  match t with
  | [] => ([], pending)
  | Sleep d :: t' => scan_delays (pending ++ [d]) t'
  | Log _ _ :: t' => scan_delays pending t'
  | Call OpGet _ :: t' =>
      let (blocks, p) := scan_delays [] t' in (pending :: blocks, p)
  | _ :: t' => scan_delays [] t'
  end.

Definition delay_blocks (t : list event) : list (list Q) :=
  fst (scan_delays [] t).

(** All delays slept between the start of the run, or the end of an
    attempt, and the next navigation attempt. *)
Definition inter_attempt_delays (t : list event) : list Q :=
  List.concat (delay_blocks t).

Definition within (lo hi d : Q) : Prop := (lo <= d /\ d <= hi)%Q.

(** The delays before one navigation attempt as the code produces them:
    the jitter delay of the attempt, preceded, after a retried WebDriver
    error, by the wait of the [except] clause. *)
Definition block_ok (b : list Q) : Prop :=
  match b with
  | [d] => within 2 5 d
  | [r; d] => within 3 7 r /\ within 2 5 d
  | _ => False
  end.

(** ** Computations whose events all satisfy a test *)

Definition emits (p : event -> bool) {A} (m : M A) : Prop :=
  forall fr, forallb p (trace_of m fr) = true.

(** The result of a computation that runs after the events [es]. *)
Definition prepend {A} (es : list event) (r : completion A * frame * list event)
  : completion A * frame * list event :=
  match r with
  | (c, fr, t) => (c, fr, es ++ t)
  end.

(** A file object that takes every line and closes. *)
Definition sound_file : file_object :=
  {| write := fun _ => None; close := Closed |}.

(** ** The Table Extractor in the words of the specification *)

(** A row is well formed when it has at least the minimum required
    number of cells. *)
Definition minimum_columns : nat := 7.

Definition well_formed (cols : list string) : bool :=
  minimum_columns <=? List.length cols.

Definition malformed (cols : list string) : bool := negb (well_formed cols).

(** The warnings logged for the rows that are skipped. *)
Definition skipped_log (rows : list (list string)) : list (level * message) :=
  map (fun cols => (WARNING, MsgSkippingRow cols)) (filter malformed rows).

(** Game sales: one record for each well-formed row, in order. *)
Definition games_records (rows : list (list string)) : list record :=
  map VGChartzGames.mk_record (filter well_formed rows).

(** Game sales, for rows that may fail to be read: such a row gives no
    record either. *)
Definition games_accepted (rows : list row_element) : list record :=
  flat_map (fun row =>
              match row with
              | Ok cols => if well_formed cols
                           then [VGChartzGames.mk_record cols] else []
              | Raises _ => []
              end) rows.

(** The events of the game-sales row loop: each row is read; a skipped
    row is followed by its warning. *)
Definition games_trace (rows : list row_element) : list event :=
  flat_map (fun row =>
              match row with
              | Ok cols =>
                  Call (OpFindElements "td") None ::
                  (if well_formed cols then []
                   else [Log WARNING (MsgSkippingRow cols)])
              | Raises e =>
                  [Call (OpFindElements "td") (Some e);
                   Log WARNING (MsgErrorProcessingRow e)]
              end) rows.

(** Console sales: one record for each well-formed row whose name cell
    names a Nintendo console. *)
Definition name_cell (cols : list string) : string := nth 1 cols "".

Definition consoles_kept (cols : list string) : bool :=
  well_formed cols && VGChartzConsoles.is_nintendo (name_cell cols).

Definition consoles_records (rows : list (list string)) : list record :=
  map (fun cols => VGChartzConsoles.mk_record (name_cell cols) cols)
      (filter consoles_kept rows).

(** [sub] occurs in [s]. *)
Definition occurs_in (sub s : string) : Prop :=
  exists before after : string, s = (before ++ sub ++ after)%string.

(** A page of 50 rows: 3 with a single cell, 47 well-formed rows of a
    console that is not Nintendo's. *)
Definition other_console_row : list string :=
  ["1"; "PlayStation 2"; "53.65"; "55.28"; "23.18"; "26.59"; "158.70"].

Definition fifty_rows : list (list string) :=
  repeat ["1"] 3 ++ repeat other_console_row 47.


(** A page with a Nintendo console, another console and a short row. *)
Definition switch_row : list string :=
  ["2"; "Nintendo Switch"; "55.04"; "38.51"; "34.42"; "24.17"; "152.12"].

Definition mixed_rows : list (list string) :=
  [other_console_row; ["x"]; switch_row].

(** The Metacritic entries: the record of an entry whose three lookups
    succeed, or the first exception raised. *)
Definition game_record (g : game_element) : call_result record :=
  match game_title g with
  | Raises e => Raises e
  | Ok title =>
      match game_score g with
      | Raises e => Raises e
      | Ok score =>
          match game_date g with
          | Raises e => Raises e
          | Ok release_date => Ok (Metacritic.mk_record title score release_date)
          end
      end
  end.

Definition accepted_games (gs : list game_element) : list record :=
  flat_map (fun g => match game_record g with
                     | Ok r => [r]
                     | Raises _ => []
                     end) gs.

(** The events of one iteration of the loop over the entries. *)
Definition game_events (g : game_element) : list event :=
  Call (OpFindElements "c-productListItem_title") (raised (game_title g)) ::
  match game_title g with
  | Raises e => [Log WARNING (MsgErrorProcessingGame e)]
  | Ok _ =>
      Call (OpFindElements "c-siteReviewScore") (raised (game_score g)) ::
      match game_score g with
      | Raises e => [Log WARNING (MsgErrorProcessingGame e)]
      | Ok _ =>
          Call (OpFindElements "c-productListItem_date") (raised (game_date g)) ::
          match game_date g with
          | Raises e => [Log WARNING (MsgErrorProcessingGame e)]
          | Ok _ => []
          end
      end
  end.

(** ** The Persistence Writer in the words of the specification *)

(** The file for a non-empty record set: a header line with the field
    names of the first record, then one line per record. *)
Definition cells (r : record) : list value := map snd r.

Definition header_of (r : record) : list value := map VStr (keys r).

Definition csv_of (d : list record) : file :=
  match d with
  | [] => []
  | first :: _ => header_of first :: map cells d
  end.

(** The events of a complete write of [d]: the directory, the file, its
    lines, the closing of the file. *)
Definition write_events (d : list record) : list event :=
  Call OpMakedirs None :: Call OpOpen None ::
  map WriteLine (csv_of d) ++ [Close Closed].

(** The file object takes the header and the lines of [d], and closes. *)
Definition sound (f : file_object) (d : list record) : Prop :=
  (forall k, k <= List.length d -> write f k = None) /\ close f = Closed.

(** The lines of [ls] that the file object takes, the first of them
    being its [k]-th write: those before the first write that raises. *)
Fixpoint accepted (f : file_object) (k : nat) (ls : file) : file :=
  match ls with
  | [] => []
  | l :: ls' =>
      match write f k with
      | None => l :: accepted f (S k) ls'
      | Some _ => []
      end
  end.

(** The error of the first write that raises. *)
Fixpoint write_failure (f : file_object) (k : nat) (ls : file) : option file_error :=
  match ls with
  | [] => None
  | l :: ls' =>
      match write f k with
      | None => write_failure f (S k) ls'
      | Some e => Some e
      end
  end.

(** The events of the [with] block that writes [d]: the lines taken, the
    write that raised, if any, and the closing of the file. *)
Definition with_block_events (f : file_object) (d : list record) : list event :=
  map WriteLine (accepted f 0 (csv_of d)) ++
  match write_failure f 0 (csv_of d) with
  | Some e => [Call OpWrite (Some (exn_of e))]
  | None => []
  end ++
  [Close (close f)].

(** The exception that leaves the [with] block: the one of [close], or
    else the one of the write that raised. *)
Definition with_block_failure (f : file_object) (d : list record) : option exn :=
  match close f with
  | CloseFails _ => Some OSError
  | Closed => option_map exn_of (write_failure f 0 (csv_of d))
  end.

(** The events of the statements that save [d], from [os.makedirs] on. *)
Definition save_events (m : call_result unit) (o : call_result file_object)
  (d : list record) : list event :=
  Call OpMakedirs (raised m) ::
  match m with
  | Raises _ => []
  | Ok _ =>
      Call OpOpen (raised o) ::
      match o with
      | Raises _ => []
      | Ok f => with_block_events f d
      end
  end.

(** The exception that these statements raise, if any. *)
Definition save_failure (m : call_result unit) (o : call_result file_object)
  (d : list record) : option exn :=
  match m with
  | Raises e => Some e
  | Ok _ =>
      match o with
      | Raises e => Some e
      | Ok f => with_block_failure f d
      end
  end.

(** The file that the [with] block leaves: the lines taken, or those of
    them that reached the disk when [close] fails. *)
Definition left_by (f : file_object) (d : list record) : file :=
  match close f with
  | Closed => accepted f 0 (csv_of d)
  | CloseFails persisted => firstn persisted (accepted f 0 (csv_of d))
  end.

(** [p] is an initial segment of [l]. *)
Definition initial_segment {X} (p l : list X) : Prop := exists rest, l = p ++ rest.

(** All records have the field names [ks], in that order. *)
Definition uniform_keys (ks : list string) (d : list record) : Prop :=
  Forall (fun r => keys r = ks) d.

(** ** Events of the retry loop *)

(** Events that neither navigate, nor choose or install an identity, nor
    close the session. *)
Definition calm (e : event) : bool :=
  negb (is_navigation e || is_choice e || installs_identity e || is_quit e).

(** The exception that the [except WebDriverException] clause reports
    when it runs: the event is its warning line. *)
Definition reported_by (e : event) : option exn :=
  match e with
  | Log WARNING (MsgWebDriverError _ x) => Some x
  | _ => None
  end.

Definition is_retry_warning (e : event) : bool :=
  match reported_by e with
  | Some _ => true
  | None => false
  end.

(** Calm events that are neither delays nor the warning of the [except
    WebDriverException] clause. *)
Definition still (e : event) : bool :=
  calm e && negb (is_sleep e) && negb (is_retry_warning e).

(** For each navigation attempt: the exception that the [except
    WebDriverException] clause reported since the previous attempt, if
    the clause ran, and the delays slept since the previous external
    call.  [scan_attempts reported pending t] returns these blocks and
    what is reported and pending at the end of [t]. *)
Fixpoint scan_attempts (reported : option exn) (pending : list Q) (t : list event)
  : list (option exn * list Q) * (option exn * list Q) :=
  match t with
  | [] => ([], (reported, pending))
  | Sleep d :: t' => scan_attempts reported (pending ++ [d]) t'
  | Log l m :: t' =>
      scan_attempts match reported_by (Log l m) with
                    | Some e => Some e
                    | None => reported
                    end pending t'
  | Call OpGet _ :: t' =>
      let (blocks, s) := scan_attempts None [] t' in
      ((reported, pending) :: blocks, s)
  | _ :: t' => scan_attempts reported [] t'
  end.

Definition attempt_blocks (t : list event) : list (option exn * list Q) :=
  fst (scan_attempts None [] t).

(** The delays before one navigation attempt, with their cause: the
    jitter delay alone when the clause did not run since the previous
    attempt; when it ran, for a WebDriver exception, its wait followed by
    the jitter delay. *)
Definition timed_block (b : option exn * list Q) : Prop :=
  match b with
  | (None, [d]) => within 2 5 d
  | (Some e, [r; d]) =>
      is_WebDriverException e = true /\ within 3 7 r /\ within 2 5 d
  | _ => False
  end.

(** What can be reported and pending when an attempt starts. *)
Definition state_ok (s : option exn * list Q) : Prop :=
  s = (None, []) \/
  exists e r, s = (Some e, [r]) /\ is_WebDriverException e = true /\ within 3 7 r.

(** Events that neither choose nor install an identity. *)
Definition keeps_identity (e : event) : bool :=
  negb (is_choice e || installs_identity e).

(** Events that neither choose or install an identity nor close the
    session. *)
Definition settled (e : event) : bool :=
  keeps_identity e && negb (is_quit e).

(** ** The clauses of the browser scrapers as result transformers *)

Definition result := (completion unit * frame * list event)%type.

(** The [except WebDriverException] clause of attempt [i]: a WebDriver
    exception is re-raised on the last attempt, and otherwise logged,
    followed by a wait and [continue]. *)
Definition retry_clause (E : environment) (i : nat) (r : result) : result :=
  match r with
  | (Raised e, fr1, t1) =>
      if is_WebDriverException e && negb (i =? max_retries - 1) then
        (Continued, fr1,
         t1 ++ [Log WARNING (MsgWebDriverError (i + 1) e);
                Sleep (uniform 3 7 (before_retry_draw E i))])
      else (Raised e, fr1, t1)
  | other => other
  end.

(** The outer [except Exception] clause: the exception is logged. *)
Definition except_clause (r : result) : result :=
  match r with
  | (Raised e, fr1, t1) => (Normal tt, fr1, t1 ++ [Log ERROR (MsgAnErrorOccurred e)])
  | other => other
  end.

(** The events of the [finally] clause. *)
Definition closing_events (E : environment) : list event :=
  Call OpQuit (raised (quit E)) ::
  match quit E with
  | Ok _ => []
  | Raises e => [Log WARNING (MsgErrorClosingDriver e)]
  end.

(** The [finally] clause: the session is closed after the [try] block. *)
Definition finally_clause (E : environment) (r : result) : result :=
  match r with
  | (c, fr1, t1) => (c, fr1, t1 ++ closing_events E)
  end.

(** The identity installed while configuring the session. *)
Definition session_identity (E : environment) : identity :=
  mkIdentity (random_choice (choice_draw E 1) user_agents) "Windows" "en-US,en;q=0.9".

(** The three DevTools commands, then the rest [r] of the [try] block. *)
Definition configured (E : environment) (fr : frame) (r : result) : result :=
  prepend [Choose (user_agent (session_identity E));
           Call (OpCdp (SetUserAgentOverride (session_identity E))) (raised (cdp E 0))]
    match cdp E 0 with
    | Raises e => (Raised e, fr, [])
    | Ok _ =>
        prepend [Call (OpCdp AddScriptToEvaluateOnNewDocument) (raised (cdp E 1))]
          match cdp E 1 with
          | Raises e => (Raised e, fr, [])
          | Ok _ =>
              prepend [Call (OpCdp SetExtraHTTPHeaders) (raised (cdp E 2))]
                match cdp E 2 with
                | Raises e => (Raised e, fr, [])
                | Ok _ => r
                end
          end
    end.

(** The user agent given to the browser at launch. *)
Definition launch_agent (E : environment) : string :=
  random_choice (choice_draw E 0) user_agents.

(** A whole browser scraper whose [try] block, after the configuration
    of the session, yields [r]. *)
Definition scraper_result (E : environment) (fr : frame) (r : result) : result :=
  if chromedriver_exists E then
    match chrome E with
    | Ok _ =>
        prepend [Log INFO MsgScraping; Choose (launch_agent E);
                 Call (OpChrome (launch_agent E)) None]
                (finally_clause E (except_clause (configured E fr r)))
    | Raises e =>
        (Raised e, fr,
         [Log INFO MsgScraping; Choose (launch_agent E);
          Call (OpChrome (launch_agent E)) (Some e)])
    end
  else
    (Returned, fr,
     [Log INFO MsgScraping; Choose (launch_agent E); Log ERROR MsgDriverNotFound]).

(** The first exception raised while loading the page in attempt [i]. *)
Definition load_failure (E : environment) (i : nat) : option exn :=
  match navigate E i with
  | Raises e => Some e
  | Ok _ =>
      match wait_page E i with
      | Raises e => Some e
      | Ok _ => raised (title E i)
      end
  end.

(** Attempt [i] of the Metacritic scraper ends in a failure that the
    retry loop handles: a WebDriver exception (a timeout of the readiness
    probe, a transport error) is raised, or the page holds no game
    entry.  An attempt that finds entries and accepts no record is not of
    this kind (see [metacritic_empty_result]). *)
Definition metacritic_attempt_retryable (E : environment) (i : nat) : bool :=
  match load_failure E i with
  | Some e => is_WebDriverException e
  | None =>
      match product_items E i with
      | Raises e => is_WebDriverException e
      | Ok [] => true
      | Ok (_ :: _) => false
      end
  end.

(** Attempt [i] of the game-sales scraper ends in a failure that the
    retry loop handles: a WebDriver exception is raised while loading the
    page or waiting for the table.  An attempt that finds a table without
    any record is not of this kind (see [games_empty_result]). *)
Definition games_attempt_retryable (E : environment) (i : nat) : bool :=
  match load_failure E i with
  | Some e => is_WebDriverException e
  | None =>
      match wait_chart E i with
      | Raises e => is_WebDriverException e
      | Ok _ => false
      end
  end.

(** The statements that load the page in attempt [i], then the rest [r]
    of the [try] block. *)
Definition loaded (E : environment) (marker : string) (i : nat) (fr : frame)
  (r : result) : result :=
  prepend [Sleep (uniform 2 5 (before_attempt_draw E i));
           Call OpGet (raised (navigate E i))]
    match navigate E i with
    | Raises e => (Raised e, fr, [])
    | Ok _ =>
        prepend [Log INFO (MsgPageLoaded (i + 1) max_retries);
                 Sleep (uniform 3 7 (after_load_draw E i));
                 Call (OpWait marker) (raised (wait_page E i))]
          match wait_page E i with
          | Raises e => (Raised e, fr, [])
          | Ok _ =>
              prepend [Call OpTitle (raised (title E i))]
                match title E i with
                | Raises e => (Raised e, fr, [])
                | Ok t => prepend [Log INFO (MsgPageTitle t)] r
                end
          end
    end.

(** ** Sample worlds *)

(** The same world, except for what [driver.quit()] answers. *)
Definition with_quit (q : call_result unit) (E : environment) : environment :=
  {| choice_draw := choice_draw E;
     before_attempt_draw := before_attempt_draw E;
     after_load_draw := after_load_draw E;
     before_retry_draw := before_retry_draw E;
     chromedriver_exists := chromedriver_exists E;
     chrome := chrome E;
     cdp := cdp E;
     navigate := navigate E;
     wait_page := wait_page E;
     title := title E;
     product_items := product_items E;
     wait_chart := wait_chart E;
     page_source := page_source E;
     quit := q;
     makedirs := makedirs E;
     open_w := open_w E |}.

Definition zelda : game_element :=
  mkGame (Ok "The Legend of Zelda: Breath of the Wild") (Ok "97") (Ok "Mar 3, 2017").

(** An entry whose score element is missing. *)
Definition unscored : game_element :=
  mkGame (Ok "Untitled") (Raises NoSuchElementException) (Ok "TBA").

Definition mario_row : list string :=
  ["1"; "Mario Kart 8 Deluxe"; "NS"; "Nintendo"; "Nintendo EAD"; "67.35"; "28th Apr 17"].

(** A world in which everything works at the first attempt. *)
Definition fair_world : environment :=
  {| choice_draw := fun k => k;
     before_attempt_draw := fun _ => 0%N;
     after_load_draw := fun _ => 0%N;
     before_retry_draw := fun _ => 0%N;
     chromedriver_exists := true;
     chrome := Ok tt;
     cdp := fun _ => Ok tt;
     navigate := fun _ => Ok tt;
     wait_page := fun _ => Ok tt;
     title := fun _ => Ok "Best Games";
     product_items := fun _ => Ok [zelda; unscored];
     wait_chart := fun _ => Ok (Ok [Ok ["Pos"; "Game"]; Ok mario_row; Ok ["x"]]);
     page_source := Ok "<html>";
     quit := Ok tt;
     makedirs := Ok tt;
     open_w := Ok sound_file |}.

(** The same world without the chromedriver binary. *)
Definition no_driver_world : environment :=
  {| choice_draw := choice_draw fair_world;
     before_attempt_draw := before_attempt_draw fair_world;
     after_load_draw := after_load_draw fair_world;
     before_retry_draw := before_retry_draw fair_world;
     chromedriver_exists := false;
     chrome := chrome fair_world;
     cdp := cdp fair_world;
     navigate := navigate fair_world;
     wait_page := wait_page fair_world;
     title := title fair_world;
     product_items := product_items fair_world;
     wait_chart := wait_chart fair_world;
     page_source := page_source fair_world;
     quit := quit fair_world;
     makedirs := makedirs fair_world;
     open_w := open_w fair_world |}.

(** A world whose pages answer as [nav], [items] and [chart] say, with the
    longest possible wait in the [except] clause. *)
Definition world_of (nav : nat -> call_result unit)
  (items : nat -> call_result (list game_element))
  (chart : nat -> call_result table_element) : environment :=
  {| choice_draw := choice_draw fair_world;
     before_attempt_draw := before_attempt_draw fair_world;
     after_load_draw := after_load_draw fair_world;
     before_retry_draw := fun _ => (2 ^ 53 - 1)%N;
     chromedriver_exists := true;
     chrome := chrome fair_world;
     cdp := cdp fair_world;
     navigate := nav;
     wait_page := wait_page fair_world;
     title := title fair_world;
     product_items := items;
     wait_chart := chart;
     page_source := page_source fair_world;
     quit := quit fair_world;
     makedirs := makedirs fair_world;
     open_w := open_w fair_world |}.

(** The first navigation fails with a transport error, the second works. *)
Definition flaky_world : environment :=
  world_of (fun i => if i =? 0 then Raises WebDriverException else Ok tt)
           (product_items fair_world) (wait_chart fair_world).

(** Every navigation times out. *)
Definition dead_world : environment :=
  world_of (fun _ => Raises TimeoutException)
           (product_items fair_world) (wait_chart fair_world).

(** The pages load, but the table has only its header row and the list
    only entries without a score. *)
Definition empty_world : environment :=
  world_of (fun _ => Ok tt)
           (fun _ => Ok [unscored])
           (fun _ => Ok (Ok [Ok ["Pos"; "Game"]])).

(** The first page shows no game entry at all, the second does. *)
Definition late_world : environment :=
  world_of (fun _ => Ok tt)
           (fun i => if i =? 0 then Ok [] else Ok [zelda])
           (wait_chart fair_world).

(** An attempt of the Metacritic scraper whose page loads and shows
    entries of which none gives a record, and an attempt of the game-sales
    scraper that finds a table without any record: the EmptyResult of
    the specification. *)
Definition metacritic_empty_result (E : environment) (i : nat) : bool :=
  match load_failure E i with
  | Some _ => false
  | None =>
      match product_items E i with
      | Ok (g :: gs) =>
          match accepted_games (g :: gs) with
          | [] => true
          | _ :: _ => false
          end
      | _ => false
      end
  end.

Definition games_empty_result (E : environment) (i : nat) : bool :=
  match load_failure E i with
  | Some _ => false
  | None =>
      match wait_chart E i with
      | Ok (Ok trs) =>
          match games_accepted (tl trs) with
          | [] => true
          | _ :: _ => false
          end
      | _ => false
      end
  end.

(** A failed attempt in the words of the specification: a navigation
    timeout, a transport error, or an empty result. *)
Definition metacritic_attempt_fails (E : environment) (i : nat) : bool :=
  metacritic_attempt_retryable E i || metacritic_empty_result E i.

Definition games_attempt_fails (E : environment) (i : nat) : bool :=
  games_attempt_retryable E i || games_empty_result E i.

(** An ERROR line of the log. *)
Definition is_error (e : event) : bool :=
  match e with
  | Log ERROR _ => true
  | _ => false
  end.

(** The first two navigations time out; the third page loads, but its
    only entry has no score and its table only the header row. *)
Definition barren_world : environment :=
  world_of (fun i => if i <? 2 then Raises TimeoutException else Ok tt)
           (fun _ => Ok [unscored])
           (fun _ => Ok (Ok [Ok ["Pos"; "Game"]])).

(** The same world, except for what [open] answers. *)
Definition with_open (o : call_result file_object) (E : environment) : environment :=
  {| choice_draw := choice_draw E;
     before_attempt_draw := before_attempt_draw E;
     after_load_draw := after_load_draw E;
     before_retry_draw := before_retry_draw E;
     chromedriver_exists := chromedriver_exists E;
     chrome := chrome E;
     cdp := cdp E;
     navigate := navigate E;
     wait_page := wait_page E;
     title := title E;
     product_items := product_items E;
     wait_chart := wait_chart E;
     page_source := page_source E;
     quit := quit E;
     makedirs := makedirs E;
     open_w := o |}.

(** A file object that takes the header line and refuses the line after
    it, whose text cannot be encoded. *)
Definition header_only_file : file_object :=
  {| write := fun k => if k =? 1 then Some UnencodableText else None;
     close := Closed |}.

(** The world where everything works, except that the first record
    cannot be encoded. *)
Definition unencodable_world : environment :=
  with_open (Ok header_only_file) fair_world.

(** ** The claims that the code does not satisfy, as they are stated *)

(** C2 as stated: when the third attempt is made and fails, the run
    reports a terminal error. *)
Definition exhaustion_reported (E : environment) : Prop :=
  let tM := snd (run (Metacritic.scrape_metacritic_scores E)) in
  let tG := snd (run (VGChartzGames.scrape_vgchartz_game_sales E)) in
  (navigations tM = max_retries ->
   metacritic_attempt_fails E (max_retries - 1) = true ->
   count is_error tM <> 0) /\
  (navigations tG = max_retries ->
   games_attempt_fails E (max_retries - 1) = true ->
   count is_error tG <> 0).


(** C1 as stated: on every retry the Identity Provider is called again
    before the next navigation attempt. *)
Definition identity_rechosen_on_retry (t : list event) : Prop :=
  rechosen_between_attempts false t = true.

(** C8 as stated: every delay between the start of the run, or a failed
    attempt, and the next navigation attempt lies within [2s, 5s]. *)
Definition delays_within_jitter (t : list event) : Prop :=
  Forall (within 2 5) (inter_attempt_delays t).

(** C7 as stated, for the first attempt of the game-sales scraper: when
    the table is found but yields no record, the attempt is retried. *)
Definition empty_result_retried (E : environment) : Prop :=
  load_failure E 0 = None ->
  (exists trs, wait_chart E 0 = Ok (Ok trs) /\ games_accepted (tl trs) = []) ->
  1 < navigations (snd (run (VGChartzGames.scrape_vgchartz_game_sales E))).

(** C3 as stated, for the console scraper: of 50 rows of which 3 are
    under the minimum, exactly 47 records are kept. *)
Definition fifty_rows_give_47 (rows : list (list string)) : Prop :=
  List.length rows = 50 ->
  List.length (filter malformed rows) = 3 ->
  List.length (data (frame_of (for_each rows VGChartzConsoles.process_row) frame0))
  = 47.

(** How a loop ends when the body of its last iteration completes as [c]. *)
Definition loop_end (c : completion unit) : completion unit :=
  match c with
  | Normal _ | Continued | Broke => Normal tt
  | Raised e => Raised e
  | Returned => Returned
  end.

(** The events of a run up to the [try] block, when the block is reached. *)
Definition session_prefix (E : environment) : list event :=
  [Log INFO MsgScraping; Choose (launch_agent E);
   Call (OpChrome (launch_agent E)) None;
   Choose (user_agent (session_identity E));
   Call (OpCdp (SetUserAgentOverride (session_identity E))) None;
   Call (OpCdp AddScriptToEvaluateOnNewDocument) None;
   Call (OpCdp SetExtraHTTPHeaders) None].

(** The variable [table], once bound, holds a table that some attempt
    found. *)
Definition table_found (E : environment) (fr : frame) : Prop :=
  match table fr with
  | None => True
  | Some tbl => exists i, wait_chart E i = Ok tbl
  end.

(** The record sets that a run can extract: the records kept from the
    table of the page (console and game sales), or from the entries of the
    page of some attempt (Metacritic). *)
Definition consoles_record_set (C : VGChartzConsoles.environment)
  (d : list record) : Prop :=
  exists trs,
    VGChartzConsoles.sales_table C = Some trs /\ d = consoles_records (tl trs).

Definition metacritic_record_set (E : environment) (d : list record) : Prop :=
  exists i gs, product_items E i = Ok gs /\ d = accepted_games gs.

Definition games_record_set (E : environment) (d : list record) : Prop :=
  exists i trs, wait_chart E i = Ok (Ok trs) /\ d = games_accepted (tl trs).

(** A run that leaves the destination alone, or that opens it and
    leaves in it what the [with] block left of the file of a non-empty
    record set [d], one of the sets [P]: whatever the destination held
    before, it then holds [left_by f d], where [f] is the file object
    that [open] returned. *)
Definition leaves (P : list record -> Prop) (o : call_result file_object)
  (t : list event) : Prop :=
  (count is_write t = 0 /\ forall before, fs_after before t = before) \/
  (exists d f,
      P d /\ d <> [] /\ o = Ok f /\
      forall before, fs_after before t = Some (left_by f d)).


(** The events of the statements that load the page in attempt [i], when
    none of them raises. *)
Definition load_events (E : environment) (marker : string) (i : nat) : list event :=
  [Sleep (uniform 2 5 (before_attempt_draw E i));
   Call OpGet None;
   Log INFO (MsgPageLoaded (i + 1) max_retries);
   Sleep (uniform 3 7 (after_load_draw E i));
   Call (OpWait marker) None;
   Call OpTitle None;
   Log INFO (MsgPageTitle match title E i with
                          | Ok t => t
                          | Raises _ => ""
                          end)].

(** The number written by a string of decimal digits. *)
Definition decimal (s : string) : nat :=
  fold_left (fun n c => 10 * n + (nat_of_ascii c - 48)) (list_ascii_of_string s) 0.

(** A parser for the witnesses: it knows one timestamp. *)
Definition sample_fromisoformat (s : string) : call_result datetime :=
  if String.eqb s "2017-03-03T00:00:00.000+00:00"
  then Ok (mkDate 2017 3 3)
  else Raises ValueError.

Definition sample_api : OpenCritic.environment :=
  {| OpenCritic.choice_draw := fun k => k;
     OpenCritic.delay_draw := fun _ => 0%N;
     OpenCritic.games_response :=
       Ok (OpenCritic.Entries
             [OpenCritic.JObject [("id", VNum 1548); ("name", VStr "Zelda")];
              OpenCritic.JObject [("id", VNum 7); ("name", VStr "Someday")]]);
     OpenCritic.details_response :=
       fun i =>
         if i =? 0 then
           Ok (OpenCritic.JObject
                 [("name", VStr "Zelda"); ("topCriticScore", VNum 97);
                  ("firstReleaseDate", VStr "2017-03-03T00:00:00.000Z")])
         else
           Ok (OpenCritic.JObject
                 [("name", VStr "Someday"); ("topCriticScore", VNum 80);
                  ("firstReleaseDate", VStr "to be announced")]);
     OpenCritic.makedirs := Ok tt;
     OpenCritic.open_w := Ok sound_file |}.

(** ** Requests of the HTTP scrapers *)

(** A call of [requests.get], whatever its outcome. *)
Definition is_request (e : event) : bool :=
  match e with
  | Call (OpRequest _) _ => true
  | _ => false
  end.

(** Whether every request directly follows a call of
    [get_random_user_agent]; [chosen] tells whether the previous event
    was such a call. *)
Fixpoint each_request_after_choice (chosen : bool) (t : list event) : bool :=
  match t with
  | [] => true
  | Choose _ :: t' => each_request_after_choice true t'
  | Call (OpRequest _) _ :: t' => chosen && each_request_after_choice false t'
  | _ :: t' => each_request_after_choice false t'
  end.

(** For each request of a run, the delays slept since the previous
    request (or the start of the run). *)
Fixpoint request_delays (pending : list Q) (t : list event) : list (list Q) :=
  match t with
  | [] => []
  | Sleep d :: t' => request_delays (pending ++ [d]) t'
  | Call (OpRequest _) _ :: t' => pending :: request_delays [] t'
  | _ :: t' => request_delays pending t'
  end.

(** ** The OpenCritic scraper, game by game *)

(** The entries of the list that the loop reaches as objects: those
    before the first entry that is not an object. *)
Fixpoint leading_objects (games : list OpenCritic.json) : list OpenCritic.json_object :=
  match games with
  | OpenCritic.JObject game :: games' => game :: leading_objects games'
  | _ => []
  end.

(** Every entry of the list is an object. *)
Definition all_objects (games : list OpenCritic.json) : bool :=
  forallb (fun game => match game with
                       | OpenCritic.JObject _ => true
                       | OpenCritic.JOther => false
                       end) games.

Section OpenCriticForms.

Variable fromisoformat : string -> call_result datetime.
Variable E : OpenCritic.environment.

(** [game['id']] does not raise [KeyError]. *)
Definition has_id (game : OpenCritic.json_object) : bool :=
  match dict_get "id" game with
  | Some _ => true
  | None => false
  end.

(** The record appended for a game whose detail request answered the
    object [details]. *)
Definition details_record (details : OpenCritic.json_object) : record :=
  OpenCritic.mk_record
    (OpenCritic.get_default "name" details (VStr ""))
    (OpenCritic.get_default "topCriticScore" details (VNum 0))
    (OpenCritic.convert_release_date fromisoformat
       (OpenCritic.get_default "firstReleaseDate" details (VStr ""))).

(** The exception that makes the loop skip the object entry at position
    [fst ig] of the list, if any: no [id], a detail request that raises,
    or a detail answer that is not an object. *)
Definition game_failure (ig : nat * OpenCritic.json_object) : option exn :=
  if has_id (snd ig) then
    match OpenCritic.details_response E (fst ig) with
    | Ok (OpenCritic.JObject _) => None
    | Ok OpenCritic.JOther => Some AttributeError
    | Raises e => Some e
    end
  else Some KeyError.

(** The records one object entry contributes: one, or none when it is
    skipped. *)
Definition processed (ig : nat * OpenCritic.json_object) : list record :=
  if has_id (snd ig) then
    match OpenCritic.details_response E (fst ig) with
    | Ok (OpenCritic.JObject details) => [details_record details]
    | _ => []
    end
  else [].

Definition opencritic_records (games : list (nat * OpenCritic.json_object))
  : list record :=
  flat_map processed games.

(** The warning of a skipped game: it names the game as the list does,
    or as [unknown]. *)
Definition skipped_game (game : OpenCritic.json_object) (e : exn) : message :=
  MsgErrorProcessingGameNamed (OpenCritic.get_default "name" game (VStr "unknown")) e.

(** The one log line of the iteration of an object entry. *)
Definition game_log (ig : nat * OpenCritic.json_object) : level * message :=
  if has_id (snd ig) then
    match OpenCritic.details_response E (fst ig) with
    | Ok (OpenCritic.JObject details) =>
        (INFO, MsgProcessedGame (OpenCritic.get_default "name" details (VStr "")))
    | Ok OpenCritic.JOther => (WARNING, skipped_game (snd ig) AttributeError)
    | Raises e => (WARNING, skipped_game (snd ig) e)
    end
  else (WARNING, skipped_game (snd ig) KeyError).

(** The events of the iteration of an object entry. *)
Definition opencritic_game_events (ig : nat * OpenCritic.json_object)
  : list event :=
  if has_id (snd ig) then
    [Sleep (uniform 0.5 1.5 (OpenCritic.delay_draw E (fst ig)));
     Choose (random_choice (OpenCritic.choice_draw E (S (fst ig))) user_agents);
     Call (OpRequest "https://api.opencritic.com/api/game/{game_id}")
          (raised (OpenCritic.details_response E (fst ig)));
     Log (fst (game_log ig)) (snd (game_log ig))]
  else [Log (fst (game_log ig)) (snd (game_log ig))].

(** The error line of the two outer [except] clauses. *)
Definition opencritic_error (e : exn) : event :=
  Log ERROR (if is_RequestException e then MsgErrorMakingRequest e
             else MsgAnErrorOccurred e).

(** The events of a run whose list request answered [n] entries, up to
    the end of the iterations of the object entries [games]. *)
Definition opencritic_listing_of (n : nat) (games : list OpenCritic.json_object)
  : list event :=
  Log INFO MsgScraping ::
  Choose (random_choice (OpenCritic.choice_draw E 0) user_agents) ::
  Call (OpRequest "https://api.opencritic.com/api/game") None ::
  Log INFO (MsgFoundGames n) ::
  flat_map opencritic_game_events (OpenCritic.indexed games).

(** The events of a run up to the end of the loop over a list of
    objects. *)
Definition opencritic_listing (games : list OpenCritic.json_object) : list event :=
  opencritic_listing_of (List.length games) games.

(** The delay slept before the detail request of a game. *)
Definition game_delay (ig : nat * OpenCritic.json_object) : Q :=
  uniform 0.5 1.5 (OpenCritic.delay_draw E (fst ig)).

(** The entries that the list request returned; none when it raised or
    answered a value without a length. *)
Definition listed_entries : list OpenCritic.json :=
  match OpenCritic.games_response E with
  | Ok (OpenCritic.Entries games) => games
  | _ => []
  end.

(** The games that the loop reaches: the object entries before the first
    entry that is not an object. *)
Definition listed_games : list OpenCritic.json_object :=
  leading_objects listed_entries.

(** The record sets that a run can extract. *)
Definition opencritic_record_set (d : list record) : Prop :=
  exists games,
    OpenCritic.games_response E = Ok (OpenCritic.Entries (map OpenCritic.JObject games)) /\
    d = opencritic_records (OpenCritic.indexed games).

End OpenCriticForms.

(** Events that neither request, nor choose an identity, nor sleep. *)
Definition quiet (e : event) : bool :=
  negb (is_request e || is_choice e || is_sleep e).

(** An API whose list request fails. *)
Definition broken_api : OpenCritic.environment :=
  {| OpenCritic.choice_draw := fun k => k;
     OpenCritic.delay_draw := fun _ => 0%N;
     OpenCritic.games_response := Raises RequestException;
     OpenCritic.details_response := fun _ => Raises RequestException;
     OpenCritic.makedirs := Ok tt;
     OpenCritic.open_w := Ok sound_file |}.

(** An API that lists three games: the first is fine, the second has no
    [id], the detail request of the third fails. *)
Definition patchy_games : list OpenCritic.json_object :=
  [ [("id", VNum 1548); ("name", VStr "Zelda")];
    [("name", VStr "Nameless")];
    [("id", VNum 9)] ].

Definition patchy_api : OpenCritic.environment :=
  {| OpenCritic.choice_draw := fun k => k;
     OpenCritic.delay_draw := fun _ => (2 ^ 53 - 1)%N;
     OpenCritic.games_response :=
       Ok (OpenCritic.Entries (map OpenCritic.JObject patchy_games));
     OpenCritic.details_response :=
       fun i =>
         if i =? 0 then
           Ok (OpenCritic.JObject
                 [("name", VStr "Zelda"); ("topCriticScore", VNum 97);
                  ("firstReleaseDate", VNone)])
         else Raises RequestException;
     OpenCritic.makedirs := Ok tt;
     OpenCritic.open_w := Ok sound_file |}.

(** An API whose list holds a game, then a string, then another game. *)
Definition stray_api : OpenCritic.environment :=
  {| OpenCritic.choice_draw := fun k => k;
     OpenCritic.delay_draw := fun _ => 0%N;
     OpenCritic.games_response :=
       Ok (OpenCritic.Entries
             [OpenCritic.JObject [("id", VNum 1548); ("name", VStr "Zelda")];
              OpenCritic.JOther;
              OpenCritic.JObject [("id", VNum 7); ("name", VStr "Someday")]]);
     OpenCritic.details_response := OpenCritic.details_response sample_api;
     OpenCritic.makedirs := Ok tt;
     OpenCritic.open_w := Ok sound_file |}.


(** ** Sessions that fail before the first navigation *)

(** A DevTools command. *)
Definition is_cdp (e : event) : bool :=
  match e with
  | Call (OpCdp _) _ => true
  | _ => false
  end.

(** The first exception raised by the three DevTools commands that
    configure the session. *)
Definition configuration_failure (E : environment) : option exn :=
  match cdp E 0 with
  | Raises e => Some e
  | Ok _ =>
      match cdp E 1 with
      | Raises e => Some e
      | Ok _ => raised (cdp E 2)
      end
  end.

(** The DevTools commands sent while the session is configured: each one
    is sent when the one before it returned. *)
Definition configuration_commands (E : environment) : list event :=
  Call (OpCdp (SetUserAgentOverride (session_identity E))) (raised (cdp E 0)) ::
  match cdp E 0 with
  | Raises _ => []
  | Ok _ =>
      Call (OpCdp AddScriptToEvaluateOnNewDocument) (raised (cdp E 1)) ::
      match cdp E 1 with
      | Raises _ => []
      | Ok _ => [Call (OpCdp SetExtraHTTPHeaders) (raised (cdp E 2))]
      end
  end.

(** The browser was started: the driver binary exists and
    [webdriver.Chrome] returned. *)
Definition started (E : environment) : bool :=
  chromedriver_exists E &&
  match chrome E with
  | Ok _ => true
  | Raises _ => false
  end.

(** The calls of [get_random_user_agent] of a browser scraper: one for
    the launch options and, once the browser runs, one for the override. *)
Definition identity_choices (E : environment) : list event :=
  Choose (launch_agent E) ::
  (if started E then [Choose (user_agent (session_identity E))] else []).

(** The same world, except for what starting the browser, the DevTools
    commands and the file system answer. *)
Definition with_session (c : call_result unit) (d : nat -> call_result unit)
  (m : call_result unit) (o : call_result file_object) (E : environment)
  : environment :=
  {| choice_draw := choice_draw E;
     before_attempt_draw := before_attempt_draw E;
     after_load_draw := after_load_draw E;
     before_retry_draw := before_retry_draw E;
     chromedriver_exists := chromedriver_exists E;
     chrome := c;
     cdp := d;
     navigate := navigate E;
     wait_page := wait_page E;
     title := title E;
     product_items := product_items E;
     wait_chart := wait_chart E;
     page_source := page_source E;
     quit := quit E;
     makedirs := m;
     open_w := o |}.

(** The browser cannot be started. *)
Definition no_browser_world : environment :=
  with_session (Raises WebDriverException) (cdp fair_world)
               (Ok tt) (Ok sound_file) fair_world.

(** The second DevTools command is refused. *)
Definition no_devtools_world : environment :=
  with_session (Ok tt) (fun k => if k =? 1 then Raises WebDriverException else Ok tt)
               (Ok tt) (Ok sound_file) fair_world.

(** The data directory cannot be created. *)
Definition readonly_world : environment :=
  with_session (Ok tt) (cdp fair_world) (Raises OSError) (Ok sound_file) fair_world.

(** The pages load but never show the [chart] table. *)
Definition tableless_world : environment :=
  world_of (fun _ => Ok tt) (product_items fair_world)
           (fun _ => Raises TimeoutException).

(** The readiness probe of the first page times out, the second page is
    fine. *)
Definition slow_world : environment :=
  {| choice_draw := choice_draw fair_world;
     before_attempt_draw := before_attempt_draw fair_world;
     after_load_draw := after_load_draw fair_world;
     before_retry_draw := before_retry_draw fair_world;
     chromedriver_exists := true;
     chrome := chrome fair_world;
     cdp := cdp fair_world;
     navigate := navigate fair_world;
     wait_page := fun i => if i =? 0 then Raises TimeoutException else Ok tt;
     title := title fair_world;
     product_items := product_items fair_world;
     wait_chart := wait_chart fair_world;
     page_source := page_source fair_world;
     quit := quit fair_world;
     makedirs := makedirs fair_world;
     open_w := open_w fair_world |}.

(** ** The console scraper: sample pages *)


(** A page without a [chart] table. *)
Definition tableless_page : VGChartzConsoles.environment :=
  {| VGChartzConsoles.response := Ok tt;
     VGChartzConsoles.sales_table := None;
     VGChartzConsoles.makedirs := Ok tt;
     VGChartzConsoles.open_w := Ok sound_file |}.

(** A page whose table holds a Nintendo console in its first row only. *)
Definition headless_page : VGChartzConsoles.environment :=
  {| VGChartzConsoles.response := Ok tt;
     VGChartzConsoles.sales_table := Some [switch_row; other_console_row; ["x"]];
     VGChartzConsoles.makedirs := Ok tt;
     VGChartzConsoles.open_w := Ok sound_file |}.


(** ** The destination of the two score scrapers *)



(** ** Running a scraper again *)

(** A run that rewrites the destination from scratch: running it twice
    gives what running it once gives, and when it writes at all, the
    content it leaves does not depend on what the destination held. *)
Definition overwrites (t : list event) : Prop :=
  (forall f, fs_after (fs_after f t) t = fs_after f t) /\
  (count is_write t <> 0 -> forall f f', fs_after f t = fs_after f' t).

(** A Metacritic entry fails one of its three lookups. *)
Definition unreadable_game (g : game_element) : bool :=
  match game_record g with
  | Ok _ => false
  | Raises _ => true
  end.

(** A table row whose cells cannot be read. *)
Definition unreadable_row (row : row_element) : bool :=
  match row with
  | Ok _ => false
  | Raises _ => true
  end.

(** ** The analysis scripts: classifying a game by its name *)

(** [extract_game_type], [extract_series] and [extract_developer] look
    for keywords in the name of a game, ignoring case.  Strings are the
    UTF-8 bytes of the Python strings, so that a substring is a
    substring. *)

(** The lower-case form of an ASCII letter; other bytes are unchanged. *)
Definition lower_ascii (c : ascii) : ascii :=
  let n := nat_of_ascii c in
  if (65 <=? n) && (n <=? 90) then ascii_of_nat (n + 32) else c.

Fixpoint ascii_lower (s : string) : string :=
  match s with
  | EmptyString => EmptyString
  | String c s' => String (lower_ascii c) (ascii_lower s')
  end.

(** The string holds ASCII characters only. *)
Fixpoint is_ascii (s : string) : bool :=
  match s with
  | EmptyString => true
  | String c s' => (nat_of_ascii c <? 128) && is_ascii s'
  end.

(** A dict display [{k1: v1, k2: v2, ...}]: a key that is given again
    keeps its place and takes the new value. *)
Fixpoint dict_set {V} (k : string) (v : V) (d : list (string * V))
  : list (string * V) :=
  match d with
  | [] => [(k, v)]
  | (k', v') :: d' =>
      if String.eqb k k' then (k, v) :: d' else (k', v') :: dict_set k v d'
  end.

Definition dict_display {V} (entries : list (string * V)) : list (string * V) :=
  fold_left (fun d kv => dict_set (fst kv) (snd kv) d) entries [].

(** The display of [game_types] in [extract_game_type]. *)
Definition game_types_display : list (string * list string) :=
  [ ("Main Series", ["Mario"; "Zelda"; "Pokemon"; "Metroid"; "Kirby"; "Fire Emblem"; "Animal Crossing"; "Splatoon"; "Donkey Kong"; "Xenoblade"; "Bayonetta"; "Pikmin"; "Star Fox"; "F-Zero"; "Wario"; "Yoshi"; "Luigi"]);
    ("Spin-off", ["Mario Kart"; "Mario Party"; "Mario Golf"; "Mario Tennis"; "Mario Strikers"; "Mario + Rabbids"; "Mario & Sonic"; "Mario & Luigi"; "Mario vs. Donkey Kong"; "Mario Sports"; "Paper Mario"; "WarioWare"]);
    ("Remake", ["Remake"; "Remaster"; "HD"; "Deluxe"; "Definitive Edition"; "Anniversary"; "Collection"]);
    ("Port", ["Port"; "Switch"; "Nintendo Switch"]);
    ("DLC", ["DLC"; "Expansion"; "Pass"; "Pack"]);
    ("Indie", ["Indie"; "Independent"]);
    ("Third Party", ["Third Party"; "Third-Party"]);
    ("First Party", ["First Party"; "First-Party"]);
    ("Second Party", ["Second Party"; "Second-Party"]);
    ("Exclusive", ["Exclusive"; "Nintendo Exclusive"]);
    ("Multiplatform", ["Multiplatform"; "Multi-Platform"]);
    ("Digital Only", ["Digital Only"; "Digital-Only"]);
    ("Physical Only", ["Physical Only"; "Physical-Only"]);
    ("Free to Play", ["Free to Play"; "Free-to-Play"; "F2P"]);
    ("Premium", ["Premium"; "Full Price"]);
    ("Budget", ["Budget"; "Budget Price"]);
    ("Mid-Range", ["Mid-Range"; "Mid-Range Price"]);
    ("High-End", ["High-End"; "High-End Price"]);
    ("Ultra", ["Ultra"; "Ultra Price"]);
    ("Luxury", ["Luxury"; "Luxury Price"]) ].

(** The display of [series] in [extract_series]; ten keys are given
    twice. *)
Definition series_display : list (string * list string) :=
  [ ("Mario", ["Mario"; "Super Mario"; "Mario Kart"; "Mario Party"; "Mario Golf"; "Mario Tennis"; "Mario Strikers"; "Mario + Rabbids"]);
    ("Zelda", ["Zelda"; "The Legend of Zelda"; "Hyrule"]);
    ("Pokemon", ["Pokemon"; "Pok√©mon"]);
    ("Metroid", ["Metroid"]);
    ("Kirby", ["Kirby"]);
    ("Fire Emblem", ["Fire Emblem"]);
    ("Animal Crossing", ["Animal Crossing"]);
    ("Splatoon", ["Splatoon"]);
    ("Donkey Kong", ["Donkey Kong"; "DK"]);
    ("Xenoblade", ["Xenoblade"]);
    ("Bayonetta", ["Bayonetta"]);
    ("Pikmin", ["Pikmin"]);
    ("Star Fox", ["Star Fox"; "StarFox"]);
    ("F-Zero", ["F-Zero"]);
    ("Wario", ["Wario"; "WarioWare"]);
    ("Yoshi", ["Yoshi"]);
    ("Luigi", ["Luigi"]);
    ("Paper Mario", ["Paper Mario"]);
    ("Mario & Luigi", ["Mario & Luigi"]);
    ("Mario vs. Donkey Kong", ["Mario vs. Donkey Kong"]);
    ("Mario Sports", ["Mario Sports"]);
    ("Mario Party", ["Mario Party"]);
    ("Mario Kart", ["Mario Kart"]);
    ("Mario Golf", ["Mario Golf"]);
    ("Mario Tennis", ["Mario Tennis"]);
    ("Mario Strikers", ["Mario Strikers"]);
    ("Mario + Rabbids", ["Mario + Rabbids"]);
    ("Mario & Sonic", ["Mario & Sonic"]);
    ("Mario & Luigi", ["Mario & Luigi"]);
    ("Mario vs. Donkey Kong", ["Mario vs. Donkey Kong"]);
    ("Mario Sports", ["Mario Sports"]);
    ("Mario Party", ["Mario Party"]);
    ("Mario Kart", ["Mario Kart"]);
    ("Mario Golf", ["Mario Golf"]);
    ("Mario Tennis", ["Mario Tennis"]);
    ("Mario Strikers", ["Mario Strikers"]);
    ("Mario + Rabbids", ["Mario + Rabbids"]);
    ("Mario & Sonic", ["Mario & Sonic"]) ].

(** The display of [developers] in [extract_developer]. *)
Definition developers_display : list (string * list string) :=
  [ ("Nintendo EPD", ["Mario"; "Zelda"; "Animal Crossing"; "Splatoon"; "Arms"]);
    ("Nintendo EAD", ["Mario"; "Zelda"; "Animal Crossing"; "Splatoon"; "Arms"]);
    ("Game Freak", ["Pokemon"; "Pokémon"]);
    ("Retro Studios", ["Metroid"; "Donkey Kong"; "DK"]);
    ("HAL Laboratory", ["Kirby"]);
    ("Intelligent Systems", ["Fire Emblem"; "Paper Mario"; "WarioWare"]);
    ("Monolith Soft", ["Xenoblade"]);
    ("PlatinumGames", ["Bayonetta"; "Astral Chain"]);
    ("Nintendo SPD", ["Brain Age"; "Ring Fit"]);
    ("Nintendo R&D", ["Mario"; "Zelda"; "Animal Crossing"]);
    ("Nintendo EAD Tokyo", ["Mario"; "Donkey Kong"; "DK"]);
    ("Nintendo EAD Kyoto", ["Mario"; "Zelda"; "Animal Crossing"]);
    ("Nintendo EAD Osaka", ["Mario"; "Donkey Kong"; "DK"]);
    ("Nintendo EAD Tokyo 2", ["Mario"; "Donkey Kong"; "DK"]);
    ("Nintendo EAD Kyoto 2", ["Mario"; "Zelda"; "Animal Crossing"]);
    ("Nintendo EAD Osaka 2", ["Mario"; "Donkey Kong"; "DK"]);
    ("Nintendo EAD Tokyo 3", ["Mario"; "Donkey Kong"; "DK"]);
    ("Nintendo EAD Kyoto 3", ["Mario"; "Zelda"; "Animal Crossing"]);
    ("Nintendo EAD Osaka 3", ["Mario"; "Donkey Kong"; "DK"]);
    ("Nintendo EAD Tokyo 4", ["Mario"; "Donkey Kong"; "DK"]);
    ("Nintendo EAD Kyoto 4", ["Mario"; "Zelda"; "Animal Crossing"]);
    ("Nintendo EAD Osaka 4", ["Mario"; "Donkey Kong"; "DK"]);
    ("Nintendo EAD Tokyo 5", ["Mario"; "Donkey Kong"; "DK"]);
    ("Nintendo EAD Kyoto 5", ["Mario"; "Zelda"; "Animal Crossing"]);
    ("Nintendo EAD Osaka 5", ["Mario"; "Donkey Kong"; "DK"]);
    ("Nintendo EAD Tokyo 6", ["Mario"; "Donkey Kong"; "DK"]);
    ("Nintendo EAD Kyoto 6", ["Mario"; "Zelda"; "Animal Crossing"]);
    ("Nintendo EAD Osaka 6", ["Mario"; "Donkey Kong"; "DK"]);
    ("Nintendo EAD Tokyo 7", ["Mario"; "Donkey Kong"; "DK"]);
    ("Nintendo EAD Kyoto 7", ["Mario"; "Zelda"; "Animal Crossing"]);
    ("Nintendo EAD Osaka 7", ["Mario"; "Donkey Kong"; "DK"]);
    ("Nintendo EAD Tokyo 8", ["Mario"; "Donkey Kong"; "DK"]);
    ("Nintendo EAD Kyoto 8", ["Mario"; "Zelda"; "Animal Crossing"]);
    ("Nintendo EAD Osaka 8", ["Mario"; "Donkey Kong"; "DK"]);
    ("Nintendo EAD Tokyo 9", ["Mario"; "Donkey Kong"; "DK"]);
    ("Nintendo EAD Kyoto 9", ["Mario"; "Zelda"; "Animal Crossing"]);
    ("Nintendo EAD Osaka 9", ["Mario"; "Donkey Kong"; "DK"]);
    ("Nintendo EAD Tokyo 10", ["Mario"; "Donkey Kong"; "DK"]);
    ("Nintendo EAD Kyoto 10", ["Mario"; "Zelda"; "Animal Crossing"]);
    ("Nintendo EAD Osaka 10", ["Mario"; "Donkey Kong"; "DK"]) ].

Definition game_types : list (string * list string) := dict_display game_types_display.
Definition series : list (string * list string) := dict_display series_display.
Definition developers : list (string * list string) := dict_display developers_display.

Section Classification.

(** [str.lower] of the Python library. *)
Variable lower : string -> string.

(** [any(keyword.lower() in game_name.lower() for keyword in keywords)] *)
Definition any_keyword (keywords : list string) (game_name : string) : bool :=
  existsb (fun keyword => contains (lower keyword) (lower game_name)) keywords.

(** [for name, keywords in table.items(): if any(...): return name],
    then [return 'Other']. *)
Fixpoint first_match (items : list (string * list string)) (game_name : string)
  : string :=
  match items with
  | [] => "Other"
  | (name, keywords) :: rest =>
      if any_keyword keywords game_name then name
      else first_match rest game_name
  end.

Definition extract_game_type (game_name : string) : string :=
  first_match game_types game_name.

Definition extract_series (game_name : string) : string :=
  first_match series game_name.

Definition extract_developer (game_name : string) : string :=
  first_match developers game_name.

End Classification.

(** A keyword that cannot decide anything: an ASCII keyword that contains,
    ignoring case, an ASCII keyword of an earlier entry. *)
Definition shadowed (earlier : list string) (keyword : string) : bool :=
  is_ascii keyword &&
  existsb (fun k => is_ascii k && contains (ascii_lower k) (ascii_lower keyword))
          earlier.

(** The names of the entries that have a keyword that is not shadowed by
    the entries before them. *)
Fixpoint reachable (earlier : list string) (items : list (string * list string))
  : list string :=
  match items with
  | [] => []
  | (name, keywords) :: rest =>
      (if forallb (shadowed earlier) keywords then [] else [name]) ++
      reachable (earlier ++ keywords) rest
  end.

(** ** The analysis scripts: scores *)

(** What [float(row['OpenCritic Score'])] can return: a finite number
    (every float is a rational), an infinity, or NaN. *)
Inductive pyfloat : Type :=
| Finite (q : Q)
| PosInf
| NegInf
| NaN.

(** [n <= x], [x <= n] and [x < n] for an int [n] and a float [x]; a
    comparison with NaN is false. *)
Definition int_le (n : Z) (x : pyfloat) : bool :=
  match x with
  | Finite q => Qle_bool (inject_Z n) q
  | PosInf => true
  | NegInf => false
  | NaN => false
  end.

Definition le_int (x : pyfloat) (n : Z) : bool :=
  match x with
  | Finite q => Qle_bool q (inject_Z n)
  | PosInf => false
  | NegInf => true
  | NaN => false
  end.

Definition lt_int (x : pyfloat) (n : Z) : bool :=
  match x with
  | Finite q => negb (Qle_bool (inject_Z n) q)
  | PosInf => false
  | NegInf => true
  | NaN => false
  end.

(** [x >= n] *)
Definition ge_int (x : pyfloat) (n : Z) : bool := int_le n x.

Definition is_nan (x : pyfloat) : bool :=
  match x with
  | NaN => true
  | _ => false
  end.

(** An element of the list [games] of the analysis scripts. *)
Record scored_game := mkScored {
  Game : string;
  Score : pyfloat;
  Release_Date : string
}.

(** A dict of counters, in insertion order. *)
Definition counters := list (string * nat).

(** [d[k] += 1] *)
Fixpoint increment (k : string) (d : counters) : call_result counters :=
  match d with
  | [] => Raises KeyError
  | (k', n) :: d' =>
      if String.eqb k k' then Ok ((k', n + 1) :: d')
      else match increment k d' with
           | Ok d'' => Ok ((k', n) :: d'')
           | Raises e => Raises e
           end
  end.

(** [sum(d.values())] *)
Definition total (d : counters) : nat := fold_right plus 0 (map snd d).

(** *** quality_sales_analysis.py *)

(** The display of [quality_categories]. *)
Definition quality_categories : counters :=
  [ ("Exceptional (90-100)", 0); ("Excellent (80-89)", 0); ("Good (70-79)", 0);
    ("Average (60-69)", 0); ("Below Average (<60)", 0) ].

(** The key chosen by the [if] ... [elif] ... [else] chain. *)
Definition quality_category (score : pyfloat) : string :=
  if ge_int score 90 then "Exceptional (90-100)"
  else if ge_int score 80 then "Excellent (80-89)"
  else if ge_int score 70 then "Good (70-79)"
  else if ge_int score 60 then "Average (60-69)"
  else "Below Average (<60)".

(** The loop that fills [quality_categories]. *)
Definition count_quality_categories (games : list scored_game)
  : call_result counters :=
  fold_left (fun d game =>
               match d with
               | Ok d => increment (quality_category (Score game)) d
               | Raises e => Raises e
               end) games (Ok quality_categories).

(** The display of [quality_ranges]. *)
Definition quality_ranges : list (string * (Z * Z)) :=
  [ ("90-100", (90, 100)%Z); ("80-89", (80, 89)%Z); ("70-79", (70, 79)%Z);
    ("60-69", (60, 69)%Z); ("Below 60", (0, 59)%Z) ].

(** The inner loop with its [break]: the name of the first range with
    [min_score <= score <= max_score], if there is one. *)
Definition quality_range (score : pyfloat) : option string :=
  match find (fun r : string * (Z * Z) =>
                int_le (fst (snd r)) score && le_int score (snd (snd r)))
             quality_ranges with
  | Some r => Some (fst r)
  | None => None
  end.

(** The loop that fills [market_success]. *)
Definition count_market_success (games : list scored_game)
  : call_result counters :=
  fold_left (fun d game =>
               match d with
               | Ok d =>
                   match quality_range (Score game) with
                   | Some range_name => increment range_name d
                   | None => Ok d
                   end
               | Raises e => Raises e
               end) games (Ok (map (fun r => (fst r, 0)) quality_ranges)).

(** *** game_quality_analysis.py *)

Definition high_quality_games (games : list scored_game) : nat :=
  List.length (filter (fun game => ge_int (Score game) 80) games).

Definition medium_quality_games (games : list scored_game) : nat :=
  List.length (filter (fun game => int_le 60 (Score game) && lt_int (Score game) 80)
                      games).

Definition low_quality_games (games : list scored_game) : nat :=
  List.length (filter (fun game => lt_int (Score game) 60) games).

(** A critic average between two bands, and a list with it. *)
Definition fractional_game : scored_game :=
  mkScored "Between the bands" (Finite 89.5) "2020-01-01".

Definition three_games : list scored_game :=
  [ mkScored "Top" (Finite 97) "2017-03-03"; fractional_game;
    mkScored "Unscored" NaN "" ].
(** * Facts about the monad *)

Unset Implicit Arguments.

Section MonadFacts.

Context {A B : Type}.

Lemma run_eta (m : M A) (fr : frame) :
  m fr = (outcome_of m fr, frame_of m fr, trace_of m fr).
Proof.
  unfold outcome_of, frame_of, trace_of.
  destruct (m fr) as [[c f] t]; reflexivity.
Qed.

Lemma trace_bind (m : M A) (f : A -> M B) (fr : frame) :
  trace_of (bind m f) fr =
  trace_of m fr ++
    match outcome_of m fr with
    | Normal a => trace_of (f a) (frame_of m fr)
    | _ => []
    end.
Proof.
  unfold trace_of, outcome_of, frame_of, bind.
  destruct (m fr) as [[c fr1] t1]; destruct c; simpl;
    rewrite ?app_nil_r; auto.
  destruct (f a fr1) as [[c2 fr2] t2]; reflexivity.
Qed.

Lemma outcome_bind (m : M A) (f : A -> M B) (fr : frame) :
  outcome_of (bind m f) fr =
    match outcome_of m fr with
    | Normal a => outcome_of (f a) (frame_of m fr)
    | Raised e => Raised e
    | Returned => Returned
    | Broke => Broke
    | Continued => Continued
    end.
Proof.
  unfold trace_of, outcome_of, frame_of, bind.
  destruct (m fr) as [[c fr1] t1]; destruct c; simpl; auto.
  destruct (f a fr1) as [[c2 fr2] t2]; reflexivity.
Qed.

Lemma frame_bind (m : M A) (f : A -> M B) (fr : frame) :
  frame_of (bind m f) fr =
    match outcome_of m fr with
    | Normal a => frame_of (f a) (frame_of m fr)
    | _ => frame_of m fr
    end.
Proof.
  unfold trace_of, outcome_of, frame_of, bind.
  destruct (m fr) as [[c fr1] t1]; destruct c; simpl; auto.
  destruct (f a fr1) as [[c2 fr2] t2]; reflexivity.
Qed.

End MonadFacts.

Lemma trace_try_except {A} (body : M A) handler (fr : frame) :
  trace_of (try_except body handler) fr =
  trace_of body fr ++
    match outcome_of body fr with
    | Raised e =>
        match handler e with
        | Some h => trace_of h (frame_of body fr)
        | None => []
        end
    | _ => []
    end.
Proof.
  unfold trace_of, outcome_of, frame_of, try_except.
  destruct (body fr) as [[c fr1] t1]; destruct c; simpl;
    rewrite ?app_nil_r; auto.
  destruct (handler e) as [h|]; simpl; rewrite ?app_nil_r; auto.
  destruct (h fr1) as [[c2 fr2] t2]; reflexivity.
Qed.

Lemma trace_try_finally {A} (body : M A) (fin : M unit) (fr : frame) :
  trace_of (try_finally body fin) fr =
  trace_of body fr ++ trace_of fin (frame_of body fr).
Proof.
  unfold trace_of, outcome_of, frame_of, try_finally.
  destruct (body fr) as [[c fr1] t1]; simpl.
  destruct (fin fr1) as [[c2 fr2] t2]; destruct c2; reflexivity.
Qed.

Lemma trace_for_each_cons {X} (x : X) xs (body : X -> M unit) (fr : frame) :
  trace_of (for_each (x :: xs) body) fr =
  trace_of (body x) fr ++
    match outcome_of (body x) fr with
    | Normal _ | Continued => trace_of (for_each xs body) (frame_of (body x) fr)
    | _ => []
    end.
Proof.
  unfold trace_of, outcome_of, frame_of; simpl.
  destruct (body x fr) as [[c fr1] t1]; destruct c; simpl;
    rewrite ?app_nil_r; auto;
    destruct (for_each xs body fr1) as [[c2 fr2] t2]; reflexivity.
Qed.

Lemma outcome_for_each_cons {X} (x : X) xs (body : X -> M unit) (fr : frame) :
  outcome_of (for_each (x :: xs) body) fr =
    match outcome_of (body x) fr with
    | Normal _ | Continued => outcome_of (for_each xs body) (frame_of (body x) fr)
    | Broke => Normal tt
    | Raised e => Raised e
    | Returned => Returned
    end.
Proof.
  unfold trace_of, outcome_of, frame_of; simpl.
  destruct (body x fr) as [[c fr1] t1]; destruct c; simpl; auto;
    destruct (for_each xs body fr1) as [[c2 fr2] t2]; reflexivity.
Qed.

Lemma frame_for_each_cons {X} (x : X) xs (body : X -> M unit) (fr : frame) :
  frame_of (for_each (x :: xs) body) fr =
    match outcome_of (body x) fr with
    | Normal _ | Continued => frame_of (for_each xs body) (frame_of (body x) fr)
    | _ => frame_of (body x) fr
    end.
Proof.
  unfold trace_of, outcome_of, frame_of; simpl.
  destruct (body x fr) as [[c fr1] t1]; destruct c; simpl; auto;
    destruct (for_each xs body fr1) as [[c2 fr2] t2]; reflexivity.
Qed.

(** ** Computations whose events all satisfy a test *)

Section Emits.

Variable p : event -> bool.

Lemma emits_ret {A} (a : A) : emits p (ret a).
Proof. intros fr; reflexivity. Qed.

Lemma emits_raise {A} e : emits p (@raise A e).
Proof. intros fr; reflexivity. Qed.

Lemma emits_return {A} : emits p (@return_ A).
Proof. intros fr; reflexivity. Qed.

Lemma emits_break {A} : emits p (@break_ A).
Proof. intros fr; reflexivity. Qed.

Lemma emits_continue {A} : emits p (@continue_ A).
Proof. intros fr; reflexivity. Qed.

Lemma emits_get_data : emits p get_data.
Proof. intros fr; reflexivity. Qed.

Lemma emits_set_data d : emits p (set_data d).
Proof. intros fr; reflexivity. Qed.

Lemma emits_data_append r : emits p (data_append r).
Proof. intros fr; reflexivity. Qed.

Lemma emits_get_table : emits p get_table.
Proof. intros fr; reflexivity. Qed.

Lemma emits_set_table t : emits p (set_table t).
Proof. intros fr; reflexivity. Qed.

Lemma emits_emit e : p e = true -> emits p (emit e).
Proof. intros H fr; unfold trace_of; simpl; rewrite H; reflexivity. Qed.

Lemma emits_bind {A B} (m : M A) (f : A -> M B) :
  emits p m -> (forall a, emits p (f a)) -> emits p (bind m f).
Proof.
  intros Hm Hf fr. rewrite trace_bind, forallb_app, Hm; simpl.
  destruct (outcome_of m fr); auto. apply Hf.
Qed.

Lemma emits_perform {A} op (r : call_result A) :
  p (Call op (raised r)) = true -> emits p (perform op r).
Proof.
  intros H. unfold perform. apply emits_bind.
  - apply emits_emit, H.
  - intros _. destruct r; [apply emits_ret | apply emits_raise].
Qed.

Lemma emits_try_except {A} (body : M A) handler :
  emits p body ->
  (forall e h, handler e = Some h -> emits p h) ->
  emits p (try_except body handler).
Proof.
  intros Hb Hh fr. rewrite trace_try_except, forallb_app, Hb; simpl.
  destruct (outcome_of body fr); auto.
  destruct (handler e) as [h|] eqn:He; auto.
  apply (Hh e h He).
Qed.

Lemma emits_try_finally {A} (body : M A) fin :
  emits p body -> emits p fin -> emits p (try_finally body fin).
Proof.
  intros Hb Hf fr. rewrite trace_try_finally, forallb_app, Hb, Hf; reflexivity.
Qed.

Lemma emits_for_each {X} (xs : list X) (body : X -> M unit) :
  (forall x, emits p (body x)) -> emits p (for_each xs body).
Proof.
  intros Hb. induction xs as [|x xs IH]; intros fr.
  - reflexivity.
  - rewrite trace_for_each_cons, forallb_app, Hb; simpl.
    destruct (outcome_of (body x) fr); auto.
Qed.

End Emits.

(** Decompose a computation into its statements. *)
Ltac emits_step :=
  match goal with
  | |- emits _ (bind _ _) => apply emits_bind; [| intros ?]
  | |- emits _ (ret _) => apply emits_ret
  | |- emits _ (raise _) => apply emits_raise
  | |- emits _ return_ => apply emits_return
  | |- emits _ break_ => apply emits_break
  | |- emits _ continue_ => apply emits_continue
  | |- emits _ get_data => apply emits_get_data
  | |- emits _ (set_data _) => apply emits_set_data
  | |- emits _ (data_append _) => apply emits_data_append
  | |- emits _ get_table => apply emits_get_table
  | |- emits _ (set_table _) => apply emits_set_table
  | |- emits _ (log _ _) => apply emits_emit; reflexivity
  | |- emits _ (sleep _) => apply emits_emit; reflexivity
  | |- emits _ (emit _) => apply emits_emit; reflexivity
  | |- emits _ (perform _ _) => apply emits_perform; reflexivity
  | |- emits _ (for_each _ _) => apply emits_for_each; intros ?
  | |- emits _ (try_finally _ _) => apply emits_try_finally
  | |- emits _ (try_except _ _) =>
      apply emits_try_except;
      [| let e := fresh "e" in let h := fresh "h" in let H := fresh "H" in
         intros e h H;
         repeat match type of H with
                | (if ?c then _ else _) = Some _ => destruct c
                end;
         try discriminate H;
         injection H as H; subst h ]
  | |- emits _ (if ?c then _ else _) => destruct c
  | |- emits _ (match ?x with _ => _ end) => destruct x
  end.

Ltac emits_tac := repeat emits_step.

Lemma emits_write_line p f k cells :
  p (WriteLine cells) = true ->
  (forall e, p (Call OpWrite (Some e)) = true) ->
  emits p (write_line f k cells).
Proof.
  intros Hw He. unfold write_line. destruct (write f k).
  - apply emits_bind; [apply emits_emit, He | intros _; apply emits_raise].
  - apply emits_emit, Hw.
Qed.

Lemma emits_write_csv p a b :
  p (Call OpMakedirs (raised a)) = true ->
  p (Call OpOpen (raised b)) = true ->
  (forall l, p (WriteLine l) = true) ->
  (forall e, p (Call OpWrite (Some e)) = true) ->
  (forall c, p (Close c) = true) ->
  emits p (write_csv a b).
Proof.
  intros Ha Hb Hw He Hc. unfold write_csv.
  apply emits_bind; [apply emits_perform; exact Ha | intros _].
  apply emits_bind; [apply emits_perform; exact Hb | intros f].
  apply emits_try_finally.
  - apply emits_bind; [apply emits_get_data | intros d].
    destruct d; [apply emits_raise |].
    apply emits_bind; [apply emits_write_line; auto | intros _].
    apply emits_for_each; intros row.
    destruct (dict_to_list _ (snd row));
      [apply emits_write_line; auto | apply emits_raise].
  - unfold close_file.
    apply emits_bind; [apply emits_emit, Hc | intros _].
    destruct (close f); [apply emits_ret | apply emits_raise].
Qed.

(** ** A statement followed by the rest of the block *)

Section Sequencing.

Context {B : Type}.
Variable fr : frame.

Lemma bind_ret {A} (a : A) (k : A -> M B) : bind (ret a) k fr = k a fr.
Proof. unfold bind, ret. destruct (k a fr) as [[c f] t]; reflexivity. Qed.

Lemma bind_emit e (k : unit -> M B) : bind (emit e) k fr = prepend [e] (k tt fr).
Proof. reflexivity. Qed.

Lemma bind_log l m (k : unit -> M B) :
  bind (log l m) k fr = prepend [Log l m] (k tt fr).
Proof. reflexivity. Qed.

Lemma bind_sleep d (k : unit -> M B) :
  bind (sleep d) k fr = prepend [Sleep d] (k tt fr).
Proof. reflexivity. Qed.

Lemma bind_perform {A} op (r : call_result A) (k : A -> M B) :
  bind (perform op r) k fr =
    match r with
    | Ok a => prepend [Call op None] (k a fr)
    | Raises e => (Raised e, fr, [Call op (Some e)])
    end.
Proof.
  destruct r as [a|e]; [| reflexivity].
  unfold perform, bind, emit, ret; cbn.
  destruct (k a fr) as [[c f] t]; reflexivity.
Qed.

Lemma bind_get_data (k : list record -> M B) :
  bind get_data k fr = k (data fr) fr.
Proof. unfold bind, get_data. destruct (k (data fr) fr) as [[c f] t]; reflexivity. Qed.

Lemma bind_set_data d (k : unit -> M B) :
  bind (set_data d) k fr = k tt {| data := d; table := table fr |}.
Proof. unfold bind, set_data. destruct (k tt _) as [[c f] t]; reflexivity. Qed.

Lemma bind_get_table (k : option table_element -> M B) :
  bind get_table k fr = k (table fr) fr.
Proof. unfold bind, get_table. destruct (k (table fr) fr) as [[c f] t]; reflexivity. Qed.

Lemma bind_assoc {A C} (m : M A) (f : A -> M C) (g : C -> M B) :
  bind (bind m f) g fr = bind m (fun a => bind (f a) g) fr.
Proof.
  unfold bind. destruct (m fr) as [[c f1] t1]; destruct c; auto.
  destruct (f a f1) as [[c2 f2] t2]; destruct c2; auto.
  destruct (g a0 f2) as [[c3 f3] t3]. rewrite app_assoc. reflexivity.
Qed.

End Sequencing.

(** * The Table Extractor *)

Lemma well_formed_insufficient cols :
  VGChartzGames.insufficient cols = negb (well_formed cols).
Proof.
  unfold VGChartzGames.insufficient, well_formed, minimum_columns.
  destruct cols as [|c cols]; [reflexivity |].
  destruct (Nat.ltb_spec (List.length (c :: cols)) 7);
    destruct (Nat.leb_spec 7 (List.length (c :: cols))); simpl; auto; lia.
Qed.

Lemma well_formed_insufficient_consoles cols :
  VGChartzConsoles.insufficient cols = negb (well_formed cols).
Proof. exact (well_formed_insufficient cols). Qed.

(** ** Substring test *)

Lemma prefix_occurs sub s :
  prefix sub s = true <-> exists after, s = (sub ++ after)%string.
Proof.
  revert s; induction sub as [|c sub IH]; intros s; simpl.
  - split; [intros _; exists s; reflexivity | intros _; destruct s; reflexivity].
  - destruct s as [|c' s]; simpl.
    + split; [discriminate | intros [a Ha]; discriminate].
    + destruct (ascii_dec c c') as [->|Hc].
      * rewrite IH. split; intros [a Ha]; exists a; congruence.
      * split; [discriminate | intros [a Ha]; congruence].
Qed.

Lemma contains_unfold sub s :
  contains sub s =
    if prefix sub s then true
    else match s with
         | EmptyString => false
         | String _ s' => contains sub s'
         end.
Proof. destruct s; reflexivity. Qed.

Lemma contains_occurs sub s : contains sub s = true <-> occurs_in sub s.
Proof.
  unfold occurs_in. induction s as [|c s IH]; rewrite contains_unfold.
  - destruct (prefix sub "") eqn:Hp.
    + split; [intros _ | reflexivity].
      apply prefix_occurs in Hp as [a Ha]. exists ""%string, a. exact Ha.
    + split; [discriminate |].
      intros [b [a H]]. destruct b; simpl in H.
      * assert (prefix sub "" = true) by (apply prefix_occurs; eauto).
        congruence.
      * discriminate.
  - destruct (prefix sub (String c s)) eqn:Hp.
    + split; [intros _ | reflexivity].
      apply prefix_occurs in Hp as [a Ha]. exists ""%string, a. exact Ha.
    + rewrite IH. split.
      * intros [b [a H]]. exists (String c b), a. simpl. congruence.
      * intros [b [a H]]. destruct b as [|c' b]; simpl in H.
        -- assert (prefix sub (String c s) = true) by (apply prefix_occurs; eauto).
           congruence.
        -- exists b, a. congruence.
Qed.

Lemma is_nintendo_occurs name :
  VGChartzConsoles.is_nintendo name = true <->
  exists console, In console VGChartzConsoles.NINTENDO_CONSOLES /\ occurs_in console name.
Proof.
  unfold VGChartzConsoles.is_nintendo. rewrite existsb_exists.
  split; intros [c [Hin H]]; exists c; split; auto; apply contains_occurs; auto.
Qed.

(** ** The row loops *)

(** One row of the console table. *)
Lemma consoles_process_row cols fr :
  VGChartzConsoles.process_row cols fr =
    if well_formed cols then
      if VGChartzConsoles.is_nintendo (name_cell cols) then
        (Normal tt,
         {| data := data fr ++ [VGChartzConsoles.mk_record (name_cell cols) cols];
            table := table fr |}, [])
      else (Normal tt, fr, [])
    else (Continued, fr, [Log WARNING (MsgSkippingRow cols)]).
Proof.
  unfold VGChartzConsoles.process_row, name_cell.
  rewrite well_formed_insufficient_consoles.
  destruct (well_formed cols); simpl; [| reflexivity].
  destruct (VGChartzConsoles.is_nintendo (nth 1 cols "")); reflexivity.
Qed.

Lemma consoles_loop rows fr :
  for_each rows VGChartzConsoles.process_row fr =
    (Normal tt,
     {| data := data fr ++ consoles_records rows; table := table fr |},
     map (fun cols => Log WARNING (MsgSkippingRow cols)) (filter malformed rows)).
Proof.
  revert fr; induction rows as [|cols rows IH]; intros fr.
  - simpl. unfold ret. rewrite app_nil_r. destruct fr; reflexivity.
  - cbn [for_each]. rewrite consoles_process_row.
    unfold consoles_records, malformed in *. cbn [filter].
    unfold consoles_kept at 1.
    destruct (well_formed cols); cbn [negb andb].
    + destruct (VGChartzConsoles.is_nintendo (name_cell cols)); rewrite IH; cbn.
      * rewrite <- app_assoc. reflexivity.
      * reflexivity.
    + rewrite IH. reflexivity.
Qed.

(** One row of the game table. *)
Lemma games_process_row (row : row_element) fr :
  VGChartzGames.process_row row fr =
    match row with
    | Ok cols =>
        if well_formed cols then
          (Normal tt,
           {| data := data fr ++ [VGChartzGames.mk_record cols]; table := table fr |},
           [Call (OpFindElements "td") None])
        else
          (Continued, fr,
           [Call (OpFindElements "td") None; Log WARNING (MsgSkippingRow cols)])
    | Raises e =>
        (Continued, fr,
         [Call (OpFindElements "td") (Some e); Log WARNING (MsgErrorProcessingRow e)])
    end.
Proof.
  unfold VGChartzGames.process_row. destruct row as [cols|e].
  - unfold try_except, bind, perform, emit, ret.
    cbn -[VGChartzGames.insufficient well_formed].
    rewrite well_formed_insufficient.
    destruct (well_formed cols); reflexivity.
  - reflexivity.
Qed.

Lemma games_loop rows fr :
  for_each rows VGChartzGames.process_row fr =
    (Normal tt,
     {| data := data fr ++ games_accepted rows; table := table fr |},
     games_trace rows).
Proof.
  revert fr; induction rows as [|row rows IH]; intros fr.
  - cbn. rewrite app_nil_r. destruct fr; auto.
  - cbn [for_each]. rewrite games_process_row.
    destruct row as [cols|e]; cbn [games_accepted games_trace flat_map].
    + destruct (well_formed cols); rewrite IH; cbn.
      * rewrite <- app_assoc. reflexivity.
      * reflexivity.
    + rewrite IH. reflexivity.
Qed.

Lemma games_accepted_readable rows :
  games_accepted (map Ok rows) = games_records rows.
Proof.
  unfold games_records, games_accepted.
  induction rows as [|cols rows IH]; [reflexivity |].
  cbn [map flat_map filter].
  destruct (well_formed cols); cbn [map app]; rewrite IH; reflexivity.
Qed.

Lemma games_trace_log rows :
  log_of (games_trace (map Ok rows)) = skipped_log rows.
Proof.
  unfold skipped_log, malformed, games_trace.
  induction rows as [|cols rows IH]; [reflexivity |].
  cbn [map flat_map filter].
  destruct (well_formed cols); cbn [map app negb log_of]; rewrite IH; reflexivity.
Qed.

Lemma filter_partition_length {X} (p : X -> bool) xs :
  List.length (filter p xs) + List.length (filter (fun x => negb (p x)) xs)
  = List.length xs.
Proof.
  induction xs as [|x xs IH]; [reflexivity |].
  simpl. destruct (p x); simpl; lia.
Qed.

Lemma games_records_length rows :
  List.length (games_records rows) + List.length (filter malformed rows)
  = List.length rows.
Proof.
  unfold games_records, malformed. rewrite length_map.
  apply filter_partition_length.
Qed.

Lemma consoles_records_length rows :
  List.length (consoles_records rows) + List.length (filter malformed rows)
  <= List.length rows.
Proof.
  rewrite <- (games_records_length rows).
  apply Nat.add_le_mono_r.
  unfold consoles_records, games_records. rewrite !length_map.
  induction rows as [|cols rows IH]; [reflexivity |].
  cbn [filter]. unfold consoles_kept at 1.
  destruct (well_formed cols); cbn [andb]; [| exact IH].
  destruct (VGChartzConsoles.is_nintendo _); cbn [List.length]; lia.
Qed.

(** * The Persistence Writer *)

Lemma count_app p t1 t2 : count p (t1 ++ t2) = count p t1 + count p t2.
Proof. unfold count. rewrite filter_app, length_app. reflexivity. Qed.

Lemma count_cons p e t : count p (e :: t) = (if p e then 1 else 0) + count p t.
Proof. unfold count. simpl. destruct (p e); reflexivity. Qed.

Lemma count_nil p : count p [] = 0.
Proof. reflexivity. Qed.

Lemma count_zero_forallb p t :
  count p t = 0 <-> forallb (fun e => negb (p e)) t = true.
Proof.
  induction t as [|e t IH]; [split; reflexivity |].
  rewrite count_cons. simpl. destruct (p e); simpl.
  - split; [lia | discriminate].
  - exact IH.
Qed.

Lemma fs_after_app f t1 t2 : fs_after f (t1 ++ t2) = fs_after (fs_after f t1) t2.
Proof. unfold fs_after. apply fold_left_app. Qed.

(** Without an event that touches it, the destination is unchanged. *)
Lemma fs_after_no_write f t : count is_write t = 0 -> fs_after f t = f.
Proof.
  revert f; induction t as [|e t IH]; intros f H; [reflexivity |].
  rewrite count_cons in H.
  destruct (is_write e) eqn:He; [lia |].
  cbn [fs_after fold_left]. fold (fs_after (fs_step f e) t).
  rewrite IH by lia.
  destruct e as [| op err | | | | a]; try reflexivity; try discriminate He.
  - destruct op; try reflexivity. destruct err; [reflexivity | discriminate He].
  - destruct a; [reflexivity | discriminate He].
Qed.

Lemma fs_after_lines ls ls' :
  fs_after (Some ls) (map WriteLine ls') = Some (ls ++ ls').
Proof.
  revert ls; induction ls' as [|l ls' IH]; intros ls.
  - rewrite app_nil_r. reflexivity.
  - cbn [map fs_after fold_left fs_step].
    fold (fs_after (Some (ls ++ [l])) (map WriteLine ls')).
    rewrite IH, <- app_assoc. reflexivity.
Qed.

(** A complete write leaves exactly the file of the record set. *)
Lemma fs_after_write_events f d : fs_after f (write_events d) = Some (csv_of d).
Proof.
  unfold write_events. cbn [fs_after fold_left fs_step].
  fold (fs_after (Some []) (map WriteLine (csv_of d) ++ [Close Closed])).
  rewrite fs_after_app, fs_after_lines. reflexivity.
Qed.

(** ** What the file object takes *)

Lemma accepted_initial f k ls : initial_segment (accepted f k ls) ls.
Proof.
  revert k; induction ls as [|l ls IH]; intros k; [exists []; reflexivity |].
  cbn [accepted]. destruct (write f k).
  - exists (l :: ls). reflexivity.
  - destruct (IH (S k)) as [rest Hrest]. exists rest. cbn. congruence.
Qed.

Lemma firstn_initial {X} n (l : list X) : initial_segment (firstn n l) l.
Proof. exists (skipn n l). symmetry. apply firstn_skipn. Qed.

Lemma initial_segment_trans {X} (a b c : list X) :
  initial_segment a b -> initial_segment b c -> initial_segment a c.
Proof.
  intros [r1 ->] [r2 ->]. exists (r1 ++ r2). rewrite app_assoc. reflexivity.
Qed.


(** What the [with] block leaves is an initial segment of the file of
    the record set. *)
Lemma left_by_initial f d : initial_segment (left_by f d) (csv_of d).
Proof.
  unfold left_by. destruct (close f) as [|persisted].
  - apply accepted_initial.
  - eapply initial_segment_trans; [apply firstn_initial | apply accepted_initial].
Qed.

(** When every write is taken, all the lines are. *)
Lemma accepted_all f k ls :
  (forall j, k <= j < k + List.length ls -> write f j = None) ->
  accepted f k ls = ls /\ write_failure f k ls = None.
Proof.
  revert k; induction ls as [|l ls IH]; intros k H; [split; reflexivity |].
  cbn [accepted write_failure]. rewrite (H k) by (cbn; lia).
  destruct (IH (S k)) as [Ha Hf].
  - intros j Hj. apply H. cbn [List.length]. lia.
  - rewrite Ha, Hf. split; reflexivity.
Qed.


Lemma csv_of_length d : d <> [] -> List.length (csv_of d) = S (List.length d).
Proof.
  destruct d as [|r rs]; [contradiction |].
  intros _. cbn [csv_of List.length]. rewrite length_map. reflexivity.
Qed.

(** A sound file object receives the whole file. *)
Lemma sound_save f d :
  d <> [] -> sound f d ->
  save_events (Ok tt) (Ok f) d = write_events d /\
  save_failure (Ok tt) (Ok f) d = None /\
  left_by f d = csv_of d.
Proof.
  intros Hd [Hw Hc].
  destruct (accepted_all f 0 (csv_of d)) as [Ha Hf].
  { intros j Hj. apply Hw. rewrite (csv_of_length d Hd) in Hj. lia. }
  unfold save_events, save_failure, with_block_events, with_block_failure,
    left_by, write_events.
  rewrite Ha, Hf, Hc. repeat split.
Qed.


(** ** The statements that save the records *)

Lemma count_with_block p f d :
  (forall l, p (WriteLine l) = false) ->
  (forall e, p (Call OpWrite (Some e)) = false) ->
  p (Close (close f)) = false ->
  count p (with_block_events f d) = 0.
Proof.
  intros Hw He Hc. unfold with_block_events.
  rewrite !count_app.
  assert (H1 : count p (map WriteLine (accepted f 0 (csv_of d))) = 0).
  { induction (accepted f 0 (csv_of d)) as [|l ls IH]; [reflexivity |].
    cbn [map]. rewrite count_cons, Hw. exact IH. }
  rewrite H1.
  destruct (write_failure f 0 (csv_of d));
    rewrite ?count_cons, ?He, ?Hc; reflexivity.
Qed.

Lemma count_save_events p m o d :
  (forall err, p (Call OpMakedirs err) = false) ->
  (forall err, p (Call OpOpen err) = false) ->
  (forall l, p (WriteLine l) = false) ->
  (forall e, p (Call OpWrite (Some e)) = false) ->
  (forall c, p (Close c) = false) ->
  count p (save_events m o d) = 0.
Proof.
  intros Hm Ho Hw He Hc. unfold save_events.
  rewrite count_cons, Hm. destruct m; [| reflexivity].
  rewrite count_cons, Ho. destruct o as [f|e]; [| reflexivity].
  apply count_with_block; auto.
Qed.

Lemma forallb_with_block p f d :
  (forall l, p (WriteLine l) = true) ->
  (forall e, p (Call OpWrite (Some e)) = true) ->
  p (Close (close f)) = true ->
  forallb p (with_block_events f d) = true.
Proof.
  intros Hw He Hc. unfold with_block_events.
  rewrite !forallb_app.
  assert (H1 : forallb p (map WriteLine (accepted f 0 (csv_of d))) = true).
  { induction (accepted f 0 (csv_of d)) as [|l ls IH]; [reflexivity |].
    cbn [map forallb]. rewrite Hw. exact IH. }
  rewrite H1.
  destruct (write_failure f 0 (csv_of d)); cbn [forallb]; rewrite ?He, ?Hc; reflexivity.
Qed.

Lemma forallb_save_events p m o d :
  (forall err, p (Call OpMakedirs err) = true) ->
  (forall err, p (Call OpOpen err) = true) ->
  (forall l, p (WriteLine l) = true) ->
  (forall e, p (Call OpWrite (Some e)) = true) ->
  (forall c, p (Close c) = true) ->
  forallb p (save_events m o d) = true.
Proof.
  intros Hm Ho Hw He Hc. unfold save_events.
  cbn [forallb]. rewrite Hm. destruct m; [| reflexivity].
  cbn [forallb]. rewrite Ho. destruct o as [f|e]; [| reflexivity].
  apply forallb_with_block; auto.
Qed.

(** When [os.makedirs] or [open] raises, the destination is not
    touched. *)
Lemma save_events_no_write m o d :
  (forall f, o <> Ok f) \/ (forall u, m <> Ok u) ->
  count is_write (save_events m o d) = 0.
Proof.
  intros H. unfold save_events.
  destruct m as [[]|e]; [| reflexivity].
  destruct o as [f|e]; [| reflexivity].
  destruct H as [H | H]; [elim (H f) | elim (H tt)]; reflexivity.
Qed.

Lemma fs_after_with_block f d :
  fs_after (Some []) (with_block_events f d) = Some (left_by f d).
Proof.
  unfold with_block_events, left_by.
  rewrite fs_after_app, fs_after_lines, fs_after_app. cbn [app].
  destruct (write_failure f 0 (csv_of d)); destruct (close f); reflexivity.
Qed.

(** Once the file is open, the destination holds what the [with] block
    leaves, whatever it held before. *)
Lemma fs_after_save_events before m f d :
  fs_after before (save_events (Ok m) (Ok f) d) = Some (left_by f d).
Proof.
  unfold save_events. cbn [fs_after fold_left fs_step raised].
  apply fs_after_with_block.
Qed.

(** ** Runs that leave a file *)

Lemma leaves_no_write P o t : count is_write t = 0 -> leaves P o t.
Proof. intros H. left. split; [exact H | intros f; apply fs_after_no_write, H]. Qed.

Lemma leaves_app P o t1 t2 : leaves P o t1 -> leaves P o t2 -> leaves P o (t1 ++ t2).
Proof.
  intros H1 [[Hz2 Hf2] | [d [f [HP [Hd [Ho Hf2]]]]]].
  - destruct H1 as [[Hz1 Hf1] | [d [f [HP [Hd [Ho Hf1]]]]]].
    + apply leaves_no_write. rewrite count_app, Hz1, Hz2. reflexivity.
    + right. exists d, f. repeat split; auto.
      intros before. rewrite fs_after_app, Hf2. apply Hf1.
  - right. exists d, f. repeat split; auto.
    intros before. rewrite fs_after_app. apply Hf2.
Qed.

(** The statements that save a non-empty record set. *)
Lemma leaves_save (P : list record -> Prop) m o d :
  P d -> d <> [] -> leaves P o (save_events m o d).
Proof.
  intros HP Hd.
  destruct m as [[]|e]; [| apply leaves_no_write, save_events_no_write;
                           right; intros u; discriminate].
  destruct o as [f|e]; [| apply leaves_no_write, save_events_no_write;
                          left; intros f; discriminate].
  right. exists d, f. repeat split; auto.
  intros before. apply fs_after_save_events.
Qed.

(** What a run leaves is an initial segment of the file of one of its
    record sets; the destination is never opened for an empty one. *)
Lemma leaves_initial P o t before file :
  leaves P o t -> fs_after before t = Some file ->
  before = Some file \/
  exists d, P d /\ d <> [] /\ initial_segment file (csv_of d).
Proof.
  intros [[_ Hf] | [d [f [HP [Hd [_ Hf]]]]]] H; rewrite Hf in H.
  - left. exact H.
  - right. injection H as <-. exists d. repeat split; auto. apply left_by_initial.
Qed.

Lemma dict_get_cells ks (r : record) :
  NoDup ks -> keys r = ks ->
  map (fun k => match dict_get k r with Some v => v | None => VStr "" end) ks
  = cells r.
Proof.
  unfold cells.
  intros Hnd; revert r; induction Hnd as [|k ks Hk Hnd IH]; intros r Hr.
  - destruct r; [reflexivity | discriminate].
  - destruct r as [|[k' v] r]; [discriminate |].
    cbn in Hr. injection Hr as -> Hr.
    cbn [map dict_get snd]. rewrite String.eqb_refl. f_equal.
    rewrite <- (IH r Hr). apply map_ext_in.
    intros k' Hin. cbn [dict_get].
    destruct (String.eqb_spec k' k) as [->|]; [contradiction | reflexivity].
Qed.

Lemma dict_to_list_uniform ks (r : record) :
  NoDup ks -> keys r = ks -> dict_to_list ks r = Ok (cells r).
Proof.
  intros Hnd Hr. unfold dict_to_list.
  replace (forallb _ (keys r)) with true.
  - rewrite (dict_get_cells ks r Hnd Hr). reflexivity.
  - symmetry. apply forallb_forall. intros k Hin.
    apply existsb_exists. exists k. rewrite <- Hr. split; auto.
    apply String.eqb_refl.
Qed.

Lemma numbered_cons {X} k (x : X) xs :
  numbered k (x :: xs) = (k, x) :: numbered (S k) xs.
Proof. reflexivity. Qed.

(** [writer.writerows] on records with uniform field names: the lines
    are written until a write raises. *)
Lemma writerows_uniform ks f k d fr :
  NoDup ks -> uniform_keys ks d ->
  for_each (numbered k d)
    (fun row =>
       match dict_to_list ks (snd row) with
       | Ok cells => write_line f (fst row) cells
       | Raises e => raise e
       end) fr
  = (match write_failure f k (map cells d) with
     | Some e => Raised (exn_of e)
     | None => Normal tt
     end, fr,
     map WriteLine (accepted f k (map cells d)) ++
     match write_failure f k (map cells d) with
     | Some e => [Call OpWrite (Some (exn_of e))]
     | None => []
     end).
Proof.
  intros Hnd Hu; revert k; induction Hu as [|r d Hr Hu IH]; intros k;
    [reflexivity |].
  rewrite numbered_cons. cbn [for_each fst snd map accepted write_failure].
  rewrite (dict_to_list_uniform ks r Hnd Hr).
  unfold write_line. destruct (write f k) as [e|].
  - reflexivity.
  - cbn. rewrite IH. reflexivity.
Qed.

Lemma try_finally_close_file (body : M unit) f fr :
  try_finally body (close_file f) fr =
    match body fr with
    | (c, fr1, t1) =>
        (match close f with
         | Closed => c
         | CloseFails _ => Raised OSError
         end, fr1, t1 ++ [Close (close f)])
    end.
Proof.
  unfold try_finally, close_file.
  destruct (body fr) as [[c fr1] t1].
  destruct (close f); reflexivity.
Qed.

(** The writer on a record set with uniform field names, by cases on
    what [os.makedirs], [open], the writes and [close] answer. *)
Lemma write_csv_uniform a b r rs fr :
  data fr = r :: rs -> NoDup (keys r) -> uniform_keys (keys r) (r :: rs) ->
  write_csv a b fr =
    (match save_failure a b (r :: rs) with
     | Some e => Raised e
     | None => Normal tt
     end, fr, save_events a b (r :: rs)).
Proof.
  intros Hd Hnd Hu. unfold write_csv, save_failure, save_events.
  rewrite bind_perform. destruct a as [[]|e]; [| reflexivity].
  rewrite bind_perform. destruct b as [f|e]; [| reflexivity].
  rewrite try_finally_close_file, bind_get_data, Hd.
  unfold with_block_failure, with_block_events.
  cbn [csv_of accepted write_failure]. fold (header_of r).
  unfold write_line at 1.
  destruct (write f 0) as [e|] eqn:H0; cbn [raised prepend].
  - unfold bind, emit, raise. cbn.
    destruct (close f); reflexivity.
  - rewrite bind_emit.
    rewrite (writerows_uniform (keys r) f 1 (r :: rs) fr Hnd Hu).
    cbn [prepend app map].
    destruct (write_failure f 1 _) as [e|];
      destruct (close f); cbn [option_map app]; rewrite <- ?app_assoc; reflexivity.
Qed.

Lemma uniform_keys_map {X} (f : X -> record) ks xs :
  (forall x, keys (f x) = ks) -> uniform_keys ks (map f xs).
Proof.
  intros H. unfold uniform_keys. rewrite Forall_map.
  apply Forall_forall. auto.
Qed.

Ltac nodup_strings :=
  repeat (constructor; [cbn; intuition discriminate |]); constructor.

Lemma consoles_keys name cols :
  keys (VGChartzConsoles.mk_record name cols) =
  ["Console"; "North America (M)"; "Europe (M)"; "Japan (M)";
   "Rest of World (M)"; "Total Sales (M)"].
Proof. reflexivity. Qed.

Lemma consoles_records_uniform rows :
  uniform_keys ["Console"; "North America (M)"; "Europe (M)"; "Japan (M)";
                "Rest of World (M)"; "Total Sales (M)"] (consoles_records rows).
Proof. apply uniform_keys_map. intros; apply consoles_keys. Qed.

(** The whole console scraper, by cases on what the world answers. *)
Lemma consoles_run (E : VGChartzConsoles.environment) :
  VGChartzConsoles.scrape_vgchartz_console_sales E frame0 =
    match VGChartzConsoles.response E with
    | Raises e =>
        (Raised e, frame0,
         [Log INFO MsgScraping;
          Call (OpRequest "https://www.vgchartz.com/analysis/platform_totals/") (Some e)])
    | Ok _ =>
        match VGChartzConsoles.sales_table E with
        | None =>
            (Returned, frame0,
             [Log INFO MsgScraping;
              Call (OpRequest "https://www.vgchartz.com/analysis/platform_totals/") None;
              Log ERROR MsgCouldNotFindSalesTable])
        | Some trs =>
            let d := consoles_records (tl trs) in
            let fr := {| data := d; table := None |} in
            let t := Log INFO MsgScraping ::
                     Call (OpRequest "https://www.vgchartz.com/analysis/platform_totals/") None ::
                     map (fun cols => Log WARNING (MsgSkippingRow cols))
                         (filter malformed (tl trs)) in
            let saved := save_events (VGChartzConsoles.makedirs E)
                                     (VGChartzConsoles.open_w E) d in
            match d with
            | [] => (Returned, fr, t ++ [Log WARNING MsgNoNintendoConsoleData])
            | _ :: _ =>
                match save_failure (VGChartzConsoles.makedirs E)
                                   (VGChartzConsoles.open_w E) d with
                | Some e => (Raised e, fr, t ++ saved)
                | None => (Normal tt, fr, t ++ saved ++ [Log INFO MsgSaved])
                end
            end
        end
    end.
Proof.
  unfold VGChartzConsoles.scrape_vgchartz_console_sales.
  rewrite bind_log, bind_perform.
  destruct (VGChartzConsoles.response E) as [[]|e]; [| reflexivity].
  destruct (VGChartzConsoles.sales_table E) as [trs|]; [| reflexivity].
  rewrite bind_set_data. unfold bind at 1. rewrite consoles_loop.
  rewrite bind_get_data. cbn [data table frame0 app].
  pose proof (consoles_records_uniform (tl trs)) as Hu.
  destruct (consoles_records (tl trs)) as [|r rs] eqn:Hd.
  - reflexivity.
  - assert (Hk : keys r = ["Console"; "North America (M)"; "Europe (M)"; "Japan (M)";
                           "Rest of World (M)"; "Total Sales (M)"])
      by (inversion Hu; assumption).
    unfold bind at 1.
    rewrite (write_csv_uniform _ _ r rs); cbn [data];
      [| reflexivity | rewrite Hk; nodup_strings | rewrite Hk; exact Hu].
    cbv zeta.
    destruct (save_failure _ _ (r :: rs)); cbn; rewrite ?app_nil_r; reflexivity.
Qed.

(** * The browser scrapers *)

Section BrowserFacts.

Variable E : environment.

(** The statements that load the page, followed by the rest [k] of the
    attempt. *)
Lemma load_page_then marker i (k : unit -> M unit) fr :
  bind (load_page E marker i) k fr = loaded E marker i fr (k tt fr).
Proof.
  unfold load_page, loaded.
  rewrite bind_assoc, bind_sleep, bind_assoc, bind_perform.
  destruct (navigate E i) as [[]|e]; [| reflexivity].
  rewrite bind_assoc, bind_log, bind_assoc, bind_sleep, bind_assoc, bind_perform.
  destruct (wait_page E i) as [[]|e]; [| reflexivity].
  rewrite bind_assoc, bind_perform.
  destruct (title E i) as [t|e]; [| reflexivity].
  rewrite bind_log.
  destruct (k tt fr) as [[c f] tr]; reflexivity.
Qed.

(** The [except WebDriverException] clause applied to the result of the
    [try] block. *)
Lemma try_except_on_webdriver_error i (body : M unit) fr :
  try_except body (on_webdriver_error E i) fr = retry_clause E i (body fr).
Proof.
  unfold try_except, on_webdriver_error, retry_clause.
  destruct (body fr) as [[c fr1] t1]; destruct c; try reflexivity.
  destruct (is_WebDriverException e); [| reflexivity].
  destruct (i =? max_retries - 1); cbn; rewrite ?app_nil_r; reflexivity.
Qed.

(** The [finally] clause: the session is closed, whatever the [try]
    block did; an exception of [quit] is logged. *)
Lemma try_finally_close_driver (body : M unit) fr :
  try_finally body (close_driver E) fr = finally_clause E (body fr).
Proof.
  unfold try_finally, close_driver, try_except, finally_clause, closing_events.
  destruct (body fr) as [[c fr1] t1].
  destruct (quit E) as [[]|e]; reflexivity.
Qed.

(** The outer [except Exception] clause. *)
Lemma try_except_log_error (body : M unit) fr :
  try_except body (fun e => Some (log ERROR (MsgAnErrorOccurred e))) fr =
  except_clause (body fr).
Proof.
  unfold try_except, except_clause.
  destruct (body fr) as [[c fr1] t1]; destruct c; reflexivity.
Qed.

(** The configuration of the session followed by the rest [k] of the
    [try] block. *)
Lemma configure_session_then (k : unit -> M unit) fr :
  bind (configure_session E) k fr = configured E fr (k tt fr).
Proof.
  unfold configure_session, get_random_user_agent, configured.
  rewrite !bind_assoc, bind_emit, bind_ret, bind_assoc, bind_perform.
  destruct (cdp E 0) as [[]|e]; [| reflexivity].
  rewrite bind_assoc, bind_perform.
  destruct (cdp E 1) as [[]|e]; [| reflexivity].
  rewrite bind_perform.
  destruct (cdp E 2) as [[]|e]; [| reflexivity].
  destruct (k tt fr) as [[c f] tr]; reflexivity.
Qed.

(** A whole scraper: the driver is set up and, when there is one, the
    [try] block [body] runs, guarded by the two clauses. *)
Lemma scraper_run (B : M unit) fr :
  bind (log INFO MsgScraping)
       (fun _ => bind (setup_driver E)
          (fun driver =>
             match driver with
             | None => return_
             | Some _ =>
                 try_finally
                   (try_except
                      (bind (configure_session E) (fun _ => B))
                      (fun e => Some (log ERROR (MsgAnErrorOccurred e))))
                   (close_driver E)
             end)) fr
  = scraper_result E fr (B fr).
Proof.
  unfold setup_driver, get_random_user_agent, scraper_result, launch_agent.
  rewrite bind_log, !bind_assoc, bind_emit, bind_ret.
  destruct (chromedriver_exists E); cbn [negb].
  - rewrite bind_assoc, bind_perform.
    destruct (chrome E) as [[]|e]; [| reflexivity].
    rewrite bind_ret, try_finally_close_driver, try_except_log_error,
      configure_session_then.
    destruct (finally_clause _ _) as [[c f] tr]; reflexivity.
  - rewrite bind_assoc, bind_log, bind_ret. reflexivity.
Qed.

End BrowserFacts.

(** ** The loop over the Metacritic entries *)

Lemma metacritic_process_game g fr :
  Metacritic.process_game g fr =
    match game_record g with
    | Ok r => (Normal tt, {| data := data fr ++ [r]; table := table fr |}, game_events g)
    | Raises e => (Continued, fr, game_events g)
    end.
Proof.
  unfold Metacritic.process_game, game_record, game_events, try_except.
  rewrite bind_perform.
  destruct (game_title g) as [t|e]; [| reflexivity].
  rewrite bind_perform.
  destruct (game_score g) as [s|e]; [| reflexivity].
  rewrite bind_perform.
  destruct (game_date g) as [d|e]; reflexivity.
Qed.

Lemma metacritic_games_loop gs fr :
  for_each gs Metacritic.process_game fr =
    (Normal tt,
     {| data := data fr ++ accepted_games gs; table := table fr |},
     flat_map game_events gs).
Proof.
  revert fr; induction gs as [|g gs IH]; intros fr.
  - cbn. rewrite app_nil_r. destruct fr; reflexivity.
  - cbn [for_each]. rewrite metacritic_process_game.
    cbn [accepted_games flat_map].
    destruct (game_record g) as [r|e]; rewrite IH; cbn.
    + rewrite <- app_assoc. reflexivity.
    + reflexivity.
Qed.

Lemma accepted_games_uniform gs :
  uniform_keys ["Game"; "Metascore"; "Release Date"] (accepted_games gs).
Proof.
  unfold uniform_keys, accepted_games.
  induction gs as [|g gs IH]; [constructor |].
  cbn [flat_map]. unfold game_record at 1.
  destruct (game_title g); [| exact IH].
  destruct (game_score g); [| exact IH].
  destruct (game_date g); [| exact IH].
  constructor; [reflexivity | exact IH].
Qed.

(** The rest of a Metacritic attempt, by cases on what the page holds. *)
Lemma metacritic_extract_and_save E i fr :
  Metacritic.extract_and_save E i fr =
    match product_items E i with
    | Raises e =>
        (Raised e, fr, [Call (OpFindElements "c-productListItem") (Some e)])
    | Ok [] =>
        if i =? max_retries - 1 then
          (Returned, fr,
           [Call (OpFindElements "c-productListItem") None;
            Log ERROR MsgNoGameElements])
        else
          (Continued, fr,
           [Call (OpFindElements "c-productListItem") None;
            Log WARNING (MsgNoGameElementsRetrying (i + 1))])
    | Ok gs =>
        let d := accepted_games gs in
        let fr' := {| data := d; table := table fr |} in
        let t := Call (OpFindElements "c-productListItem") None ::
                 flat_map game_events gs in
        match d with
        | [] => (Returned, fr', t ++ [Log WARNING MsgNoGameData])
        | _ :: _ =>
            match save_failure (makedirs E) (open_w E) d with
            | Some e => (Raised e, fr', t ++ save_events (makedirs E) (open_w E) d)
            | None =>
                (Broke, fr',
                 t ++ save_events (makedirs E) (open_w E) d ++ [Log INFO MsgSaved])
            end
        end
    end.
Proof.
  unfold Metacritic.extract_and_save. rewrite bind_perform.
  destruct (product_items E i) as [[|g gs]|e]; [| | reflexivity].
  - destruct (i =? max_retries - 1); reflexivity.
  - rewrite bind_set_data. unfold bind at 1. rewrite metacritic_games_loop.
    rewrite bind_get_data. cbn [data table app].
    pose proof (accepted_games_uniform (g :: gs)) as Hu.
    destruct (accepted_games (g :: gs)) as [|r rs] eqn:Hd.
    + reflexivity.
    + assert (Hk : keys r = ["Game"; "Metascore"; "Release Date"])
        by (inversion Hu; assumption).
      unfold bind at 1.
      rewrite (write_csv_uniform _ _ r rs); cbn [data];
        [| reflexivity | rewrite Hk; nodup_strings | rewrite Hk; exact Hu].
      destruct (save_failure _ _ (r :: rs)); cbn; rewrite ?app_nil_r; reflexivity.
Qed.

(** ** The game-sales scraper, statement by statement *)

(** The search for the [chart] table in an attempt. *)
Lemma games_find_table E i fr :
  VGChartzGames.find_table E i fr =
    match wait_chart E i with
    | Ok tbl =>
        (Broke, {| data := data fr; table := Some tbl |},
         [Call (OpWait "chart") None])
    | Raises e =>
        if is_TimeoutException e then
          if i =? max_retries - 1 then
            prepend [Call (OpWait "chart") (Some e);
                     Log ERROR MsgCouldNotFindTable;
                     Log INFO MsgPageSourceHeader;
                     Call OpPageSource (raised (page_source E))]
              match page_source E with
              | Ok src => (Returned, fr, [Log INFO (MsgPageSource (substring 0 1000 src))])
              | Raises e' => (Raised e', fr, [])
              end
          else
            (Continued, fr,
             [Call (OpWait "chart") (Some e);
              Log WARNING (MsgTableNotFoundRetrying (i + 1))])
        else (Raised e, fr, [Call (OpWait "chart") (Some e)])
    end.
Proof.
  unfold VGChartzGames.find_table, try_except. rewrite bind_perform.
  destruct (wait_chart E i) as [tbl|e]; [reflexivity |].
  destruct (is_TimeoutException e); [| reflexivity].
  destruct (i =? max_retries - 1); [| reflexivity].
  rewrite bind_log, bind_log, bind_perform.
  destruct (page_source E) as [src|e']; reflexivity.
Qed.

Lemma games_accepted_uniform rows :
  uniform_keys ["Game"; "Platform"; "Publisher"; "Developer"; "Total Sales (M)";
                "Release Date"] (games_accepted rows).
Proof.
  unfold uniform_keys, games_accepted.
  induction rows as [|row rows IH]; [constructor |].
  cbn [flat_map]. destruct row as [cols|e]; [| exact IH].
  destruct (well_formed cols); [| exact IH].
  constructor; [reflexivity | exact IH].
Qed.

(** The statements after the retry loop, by cases on the table found. *)
Lemma games_extract_and_save E fr :
  VGChartzGames.extract_and_save E fr =
    match table fr with
    | None => (Raised UnboundLocalError, fr, [])
    | Some (Raises e) => (Raised e, fr, [Call (OpFindElements "tr") (Some e)])
    | Some (Ok trs) =>
        let d := games_accepted (tl trs) in
        let fr' := {| data := d; table := table fr |} in
        let t := Call (OpFindElements "tr") None :: games_trace (tl trs) in
        match d with
        | [] => (Returned, fr', t ++ [Log WARNING MsgNoNintendoGameData])
        | _ :: _ =>
            match save_failure (makedirs E) (open_w E) d with
            | Some e => (Raised e, fr', t ++ save_events (makedirs E) (open_w E) d)
            | None =>
                (Normal tt, fr',
                 t ++ save_events (makedirs E) (open_w E) d ++ [Log INFO MsgSaved])
            end
        end
    end.
Proof.
  unfold VGChartzGames.extract_and_save, VGChartzGames.extract_rows.
  rewrite bind_assoc, bind_get_table.
  destruct (table fr) as [[trs|e]|] eqn:Ht; [| reflexivity | reflexivity].
  rewrite bind_assoc, bind_perform, bind_assoc, bind_set_data.
  unfold bind at 1. rewrite games_loop.
  rewrite bind_get_data. cbn [data table app].
  pose proof (games_accepted_uniform (tl trs)) as Hu.
  destruct (games_accepted (tl trs)) as [|r rs] eqn:Hd.
  - rewrite Ht. reflexivity.
  - assert (Hk : keys r = ["Game"; "Platform"; "Publisher"; "Developer";
                           "Total Sales (M)"; "Release Date"])
      by (inversion Hu; assumption).
    unfold bind at 1.
    rewrite (write_csv_uniform _ _ r rs); cbn [data];
      [| reflexivity | rewrite Hk; nodup_strings | rewrite Hk; exact Hu].
    rewrite Ht.
    destruct (save_failure _ _ (r :: rs)); cbn; rewrite ?app_nil_r; reflexivity.
Qed.

(** ** Jitter bounds *)

Lemma random_random_bounds draw :
  (0 <= random_random draw /\ random_random draw <= 1)%Q.
Proof.
  unfold random_random, Qle; cbn [Qnum Qden].
  assert (H : (0 <= Z.of_N (draw mod 2 ^ 53) < Z.pos (2 ^ 53))%Z).
  { split; [apply N2Z.is_nonneg |].
    change (Z.pos (2 ^ 53)) with (Z.of_N (2 ^ 53)).
    apply N2Z.inj_lt, N.mod_lt. discriminate. }
  set (x := Z.of_N (draw mod 2 ^ 53)) in *.
  set (y := Z.pos (2 ^ 53)) in *.
  clearbody x y. lia.
Qed.

Lemma uniform_2_5 draw : within 2 5 (uniform 2 5 draw).
Proof.
  unfold within, uniform.
  destruct (random_random_bounds draw) as [H0 H1].
  split; Lqa.lra.
Qed.

Lemma uniform_3_7 draw : within 3 7 (uniform 3 7 draw).
Proof.
  unfold within, uniform.
  destruct (random_random_bounds draw) as [H0 H1].
  split; Lqa.lra.
Qed.

(** * The retry loop *)

Lemma metacritic_run E :
  Metacritic.scrape_metacritic_scores E frame0 =
  scraper_result E frame0
    (for_each (range max_retries) (Metacritic.attempt_body E) frame0).
Proof. apply scraper_run. Qed.

Lemma games_run E :
  VGChartzGames.scrape_vgchartz_game_sales E frame0 =
  scraper_result E frame0
    (bind (for_each (range max_retries) (VGChartzGames.attempt_body E))
          (fun _ => VGChartzGames.extract_and_save E) frame0).
Proof. apply scraper_run. Qed.

Lemma metacritic_attempt E i fr :
  Metacritic.attempt_body E i fr =
  retry_clause E i
    (loaded E "c-productList" i fr (Metacritic.extract_and_save E i fr)).
Proof.
  unfold Metacritic.attempt_body.
  rewrite try_except_on_webdriver_error, load_page_then. reflexivity.
Qed.

Lemma games_attempt E i fr :
  VGChartzGames.attempt_body E i fr =
  retry_clause E i (loaded E "body" i fr (VGChartzGames.find_table E i fr)).
Proof.
  unfold VGChartzGames.attempt_body.
  rewrite try_except_on_webdriver_error, load_page_then. reflexivity.
Qed.

(** ** Delays before the navigation attempts *)

Lemma scan_attempts_app c p t1 t2 :
  scan_attempts c p (t1 ++ t2) =
    (fst (scan_attempts c p t1) ++
     fst (scan_attempts (fst (snd (scan_attempts c p t1)))
                        (snd (snd (scan_attempts c p t1))) t2),
     snd (scan_attempts (fst (snd (scan_attempts c p t1)))
                        (snd (snd (scan_attempts c p t1))) t2)).
Proof.
  revert c p; induction t1 as [|e t1 IH]; intros c p.
  - cbn. destruct (scan_attempts c p t2); reflexivity.
  - destruct e as [ua | op err | d | l m | cs | a]; cbn [app scan_attempts];
      try apply IH.
    destruct op; try apply IH.
    rewrite IH. destruct (scan_attempts None [] t1) as [b q]. reflexivity.
Qed.

(** The blocks of delays are those of the attempts, without their
    cause. *)
Lemma scan_delays_attempts c p t :
  scan_delays p t =
    (map snd (fst (scan_attempts c p t)), snd (snd (scan_attempts c p t))).
Proof.
  revert c p; induction t as [|e t IH]; intros c p; [reflexivity |].
  destruct e as [ua | op err | d | l m | cs | a]; cbn [scan_delays scan_attempts];
    try apply IH.
  destruct op; try apply IH.
  rewrite (IH None []). destruct (scan_attempts None [] t) as [b q]. reflexivity.
Qed.

Lemma delay_blocks_attempts t : delay_blocks t = map snd (attempt_blocks t).
Proof.
  unfold delay_blocks, attempt_blocks.
  rewrite (scan_delays_attempts None []). reflexivity.
Qed.

Lemma reported_by_still e : still e = true -> reported_by e = None.
Proof.
  unfold still, is_retry_warning. intros H.
  apply andb_prop in H as [_ H].
  destruct (reported_by e); [discriminate | reflexivity].
Qed.

(** Events that are neither delays, nor navigations, nor the warning of
    the [except] clause leave nothing reported or pending (when nothing
    was) and complete no block. *)
Lemma scan_attempts_still t :
  forallb still t = true -> scan_attempts None [] t = ([], (None, [])).
Proof.
  induction t as [|e t IH]; [reflexivity |].
  cbn [forallb]. intros H. apply andb_prop in H as [He Ht].
  pose proof (reported_by_still e He) as Hr.
  destruct e as [ua | op err | d | l m | cs | a]; cbn [scan_attempts]; auto;
    try discriminate He.
  - destruct op; auto; discriminate He.
  - rewrite Hr. auto.
Qed.

(** Without a navigation no block is completed. *)
Lemma scan_attempts_no_navigation c p t :
  forallb (fun e => negb (is_navigation e)) t = true ->
  fst (scan_attempts c p t) = [].
Proof.
  revert c p; induction t as [|e t IH]; intros c p; [reflexivity |].
  cbn [forallb]. intros H. apply andb_prop in H as [He Ht].
  destruct e as [ua | op err | d | l m | cs | a]; cbn [scan_attempts]; auto.
  destruct op; auto; discriminate He.
Qed.

Lemma forallb_impl {X} (p q : X -> bool) xs :
  (forall x, p x = true -> q x = true) ->
  forallb p xs = true -> forallb q xs = true.
Proof.
  intros Hpq H. rewrite forallb_forall in *. auto.
Qed.

Lemma still_calm e : still e = true -> calm e = true.
Proof.
  unfold still. intros H.
  apply andb_prop in H as [H _]. apply andb_prop in H as [H _]. exact H.
Qed.

Lemma calm_settled e : calm e = true -> settled e = true.
Proof.
  unfold calm, settled, keeps_identity.
  destruct (is_navigation e); [discriminate |].
  destruct (is_choice e); [discriminate |].
  destruct (installs_identity e); [discriminate |].
  destruct (is_quit e); [discriminate | reflexivity].
Qed.

Lemma calm_no_navigation e : calm e = true -> negb (is_navigation e) = true.
Proof. unfold calm. destruct (is_navigation e); [discriminate | auto]. Qed.

Lemma timed_block_ok b : timed_block b -> block_ok (snd b).
Proof.
  destruct b as [[e|] [|r [|d [|x b]]]]; cbn; try contradiction; tauto.
Qed.

(** ** The shape of one attempt *)

(** The [except WebDriverException] clause adds nothing to the events of
    the [try] block, or, for a WebDriver exception, its warning and its
    wait. *)
Lemma retry_clause_events E i (r : result) :
  snd (retry_clause E i r) = snd r \/
  exists e,
    is_WebDriverException e = true /\
    snd (retry_clause E i r) =
      snd r ++ [Log WARNING (MsgWebDriverError (i + 1) e);
                Sleep (uniform 3 7 (before_retry_draw E i))].
Proof.
  destruct r as [[c f] t]. unfold retry_clause.
  destruct c; try (left; reflexivity).
  destruct (is_WebDriverException e) eqn:He; [| left; reflexivity].
  destruct (negb (i =? max_retries - 1)); [| left; reflexivity].
  right. exists e. split; [exact He | reflexivity].
Qed.

Section Attempt.

Variable E : environment.
Variable marker : string.
Variable i : nat.
Variable fr : frame.

(** The rest of the [try] block: any result whose events are [still]. *)
Variable r : result.
Hypothesis r_still : forallb still (snd r) = true.

(** The [try] block starts with the jitter delay and the navigation; the
    events that follow are still, but for the delay after the page load,
    which an external call follows. *)
Lemma loaded_shape :
  exists mid,
    snd (loaded E marker i fr r) =
      Sleep (uniform 2 5 (before_attempt_draw E i)) ::
      Call OpGet (raised (navigate E i)) :: mid
    /\ forallb calm mid = true
    /\ scan_attempts None [] mid = ([], (None, [])).
Proof.
  destruct r as [[c f] t]. cbn [snd] in r_still.
  pose proof (forallb_impl still calm t still_calm r_still) as Hcalm.
  pose proof (scan_attempts_still t r_still) as Hscan.
  unfold loaded.
  destruct (navigate E i) as [[]|e1]; cbn [prepend app raised snd];
    [| eexists; split; [reflexivity | split; reflexivity]].
  destruct (wait_page E i) as [[]|e2]; cbn [prepend app raised snd];
    [| eexists; split; [reflexivity | split; reflexivity]].
  destruct (title E i) as [s|e3]; cbn [prepend app raised snd];
    [| eexists; split; [reflexivity | split; reflexivity]].
  eexists. split; [reflexivity |].
  cbn [forallb calm is_navigation is_choice installs_identity is_quit
         orb negb andb scan_attempts reported_by app].
  rewrite Hcalm, Hscan. split; reflexivity.
Qed.

(** An attempt starts with its jitter delay and its navigation; the
    events that follow are calm, and leave nothing reported or pending,
    or the WebDriver exception reported by the [except] clause and the
    wait of that clause. *)
Lemma attempt_shape :
  exists rest,
    snd (retry_clause E i (loaded E marker i fr r)) =
      Sleep (uniform 2 5 (before_attempt_draw E i)) ::
      Call OpGet (raised (navigate E i)) :: rest
    /\ forallb calm rest = true
    /\ (snd (scan_attempts None [] rest) = (None, []) \/
        exists e,
          is_WebDriverException e = true /\
          snd (scan_attempts None [] rest) =
            (Some e, [uniform 3 7 (before_retry_draw E i)])).
Proof.
  destruct loaded_shape as [mid [Hl [Hcalm Hscan]]].
  destruct (retry_clause_events E i (loaded E marker i fr r)) as [-> | [e [He ->]]];
    rewrite Hl.
  - exists mid. split; [reflexivity |]. split; [exact Hcalm |].
    left. rewrite Hscan. reflexivity.
  - exists (mid ++ [Log WARNING (MsgWebDriverError (i + 1) e);
                    Sleep (uniform 3 7 (before_retry_draw E i))]).
    split; [reflexivity |].
    split; [rewrite forallb_app, Hcalm; reflexivity |].
    right. exists e. split; [exact He |].
    rewrite scan_attempts_app, Hscan. reflexivity.
Qed.

End Attempt.

(** ** Observations on settled and calm events *)

Lemma presented_keeps_identity cur t :
  forallb keeps_identity t = true -> presented cur t = repeat cur (navigations t).
Proof.
  unfold navigations.
  induction t as [|e t IH]; [reflexivity |].
  cbn [forallb]. intros H. apply andb_prop in H as [He Ht].
  rewrite count_cons.
  destruct e as [ua | op err | d | l m | cs | a]; cbn [presented is_navigation plus];
    auto.
  destruct op as [ua | c | | | | | | | | | |]; cbn [is_navigation plus repeat];
    try (destruct err; auto; fail); auto.
  - discriminate He.
  - destruct c; try (destruct err; auto; fail). discriminate He.
  - rewrite IH by assumption. reflexivity.
Qed.

(** What follows the first navigation of a trace that keeps the identity
    keeps it too. *)
Lemma after_first_navigation_keeps t :
  forallb keeps_identity t = true ->
  forallb keeps_identity (after_first_navigation t) = true.
Proof.
  induction t as [|e t IH]; [reflexivity |].
  cbn [forallb]. intros H. apply andb_prop in H as [He Ht].
  cbn [after_first_navigation]. destruct (is_navigation e); auto.
Qed.

Lemma keeps_identity_no_choice t :
  forallb keeps_identity t = true -> count is_choice t = 0.
Proof.
  intros H. apply count_zero_forallb.
  revert H. apply forallb_impl. intros e. unfold keeps_identity.
  destruct (is_choice e); [discriminate | reflexivity].
Qed.

Lemma settled_keeps_identity e : settled e = true -> keeps_identity e = true.
Proof. unfold settled. intros H. apply andb_prop in H. tauto. Qed.

Lemma settled_no_quit t :
  forallb settled t = true -> count is_quit t = 0.
Proof.
  intros H. apply count_zero_forallb.
  revert H. apply forallb_impl. intros e. unfold settled.
  destruct (is_quit e); [| reflexivity].
  rewrite andb_false_r. discriminate.
Qed.

Lemma calm_no_navigations t :
  forallb calm t = true -> navigations t = 0.
Proof.
  intros H. apply count_zero_forallb.
  revert H. apply forallb_impl. exact calm_no_navigation.
Qed.

(** ** The loop over the attempts *)

Section Loop.

Variable E : environment.
Variable attempt : nat -> M unit.

(** Every attempt has the shape established above. *)
Hypothesis shape :
  forall i fr, exists rest,
    trace_of (attempt i) fr =
      Sleep (uniform 2 5 (before_attempt_draw E i)) ::
      Call OpGet (raised (navigate E i)) :: rest
    /\ forallb calm rest = true
    /\ (snd (scan_attempts None [] rest) = (None, []) \/
        exists e,
          is_WebDriverException e = true /\
          snd (scan_attempts None [] rest) =
            (Some e, [uniform 3 7 (before_retry_draw E i)])).

Lemma attempt_navigations i fr : navigations (trace_of (attempt i) fr) = 1.
Proof.
  destruct (shape i fr) as [rest [-> [Hcalm _]]].
  unfold navigations. rewrite !count_cons. cbn [is_navigation].
  change (count is_navigation rest) with (navigations rest).
  rewrite (calm_no_navigations rest Hcalm). reflexivity.
Qed.

Lemma attempt_settled i fr : forallb settled (trace_of (attempt i) fr) = true.
Proof.
  destruct (shape i fr) as [rest [-> [Hcalm _]]].
  cbn [forallb settled keeps_identity is_choice installs_identity is_quit
         orb negb andb].
  revert Hcalm. apply forallb_impl. exact calm_settled.
Qed.

(** The loop makes at most one navigation per attempt. *)
Lemma loop_navigations indices fr :
  navigations (trace_of (for_each indices attempt) fr) <= List.length indices.
Proof.
  revert fr; induction indices as [|i indices IH]; intros fr; [cbn; lia |].
  rewrite trace_for_each_cons. unfold navigations in *.
  rewrite count_app.
  pose proof (attempt_navigations i fr) as H1. unfold navigations in H1.
  rewrite H1. cbn [List.length].
  destruct (outcome_of (attempt i) fr);
    try (specialize (IH (frame_of (attempt i) fr))); cbn [count filter List.length]; lia.
Qed.

Lemma loop_settled indices fr :
  forallb settled (trace_of (for_each indices attempt) fr) = true.
Proof.
  revert fr; induction indices as [|i indices IH]; intros fr; [reflexivity |].
  rewrite trace_for_each_cons, forallb_app, attempt_settled. cbn [andb].
  destruct (outcome_of (attempt i) fr); auto.
Qed.

(** Every navigation of the loop is preceded by the jitter delay of its
    attempt, alone when the [except] clause did not run since the
    previous navigation, and after the wait of that clause when it did. *)
Lemma loop_blocks indices fr s :
  state_ok s ->
  Forall timed_block
    (fst (scan_attempts (fst s) (snd s) (trace_of (for_each indices attempt) fr))).
Proof.
  revert fr s; induction indices as [|i indices IH]; intros fr s Hs;
    [constructor |].
  rewrite trace_for_each_cons, scan_attempts_app. cbn [fst].
  destruct (shape i fr) as [rest [-> [Hcalm Hend]]].
  cbn [scan_attempts].
  pose proof (scan_attempts_no_navigation None [] rest
                (forallb_impl calm _ rest calm_no_navigation Hcalm)) as Hb.
  destruct (scan_attempts None [] rest) as [b q]. cbn [fst snd] in *. subst b.
  apply Forall_app. split.
  - constructor; [| constructor].
    pose proof (uniform_2_5 (before_attempt_draw E i)) as Hd.
    destruct Hs as [-> | [e [w [-> [He Hw]]]]]; cbn; auto.
  - assert (Hq : state_ok q).
    { destruct Hend as [-> | [e [He ->]]]; [left; reflexivity |].
      right. exists e. eexists. split; [reflexivity |].
      split; [exact He | apply uniform_3_7]. }
    destruct (outcome_of (attempt i) fr); auto; constructor.
Qed.

End Loop.

(** ** The two retry loops *)

Lemma metacritic_extract_still E i : emits still (Metacritic.extract_and_save E i).
Proof.
  unfold Metacritic.extract_and_save, Metacritic.process_game.
  repeat first [ apply emits_write_csv;
                   [reflexivity | reflexivity | reflexivity | reflexivity | reflexivity]
               | emits_step ].
Qed.

Lemma games_find_table_still E i : emits still (VGChartzGames.find_table E i).
Proof. unfold VGChartzGames.find_table. emits_tac. Qed.

Lemma games_extract_still E : emits still (VGChartzGames.extract_and_save E).
Proof.
  unfold VGChartzGames.extract_and_save, VGChartzGames.extract_rows,
    VGChartzGames.process_row.
  repeat first [ apply emits_write_csv;
                   [reflexivity | reflexivity | reflexivity | reflexivity | reflexivity]
               | emits_step ].
Qed.

Lemma metacritic_shape E i fr :
  exists rest,
    trace_of (Metacritic.attempt_body E i) fr =
      Sleep (uniform 2 5 (before_attempt_draw E i)) ::
      Call OpGet (raised (navigate E i)) :: rest
    /\ forallb calm rest = true
    /\ (snd (scan_attempts None [] rest) = (None, []) \/
        exists e,
          is_WebDriverException e = true /\
          snd (scan_attempts None [] rest) =
            (Some e, [uniform 3 7 (before_retry_draw E i)])).
Proof.
  unfold trace_of. rewrite metacritic_attempt.
  apply attempt_shape. apply metacritic_extract_still.
Qed.

Lemma games_shape E i fr :
  exists rest,
    trace_of (VGChartzGames.attempt_body E i) fr =
      Sleep (uniform 2 5 (before_attempt_draw E i)) ::
      Call OpGet (raised (navigate E i)) :: rest
    /\ forallb calm rest = true
    /\ (snd (scan_attempts None [] rest) = (None, []) \/
        exists e,
          is_WebDriverException e = true /\
          snd (scan_attempts None [] rest) =
            (Some e, [uniform 3 7 (before_retry_draw E i)])).
Proof.
  unfold trace_of. rewrite games_attempt.
  apply attempt_shape. apply games_find_table_still.
Qed.

(** * Whole runs of the browser scrapers *)

Lemma still_settled e : still e = true -> settled e = true.
Proof. intros H. apply calm_settled, still_calm, H. Qed.

Lemma still_no_navigations t : forallb still t = true -> navigations t = 0.
Proof.
  intros H. apply calm_no_navigations. revert H. apply forallb_impl, still_calm.
Qed.

(** The [try] block of the Metacritic scraper after the configuration. *)
Section MetacriticBlock.

Variable E : environment.

Lemma metacritic_block_navigations :
  navigations
    (snd (for_each (range max_retries) (Metacritic.attempt_body E) frame0))
  <= max_retries.
Proof.
  exact (loop_navigations E _ (metacritic_shape E) (range max_retries) frame0).
Qed.

Lemma metacritic_block_settled :
  forallb settled
    (snd (for_each (range max_retries) (Metacritic.attempt_body E) frame0)) = true.
Proof.
  exact (loop_settled E _ (metacritic_shape E) (range max_retries) frame0).
Qed.

Lemma metacritic_block_timed :
  Forall timed_block
    (fst (scan_attempts None []
            (snd (for_each (range max_retries) (Metacritic.attempt_body E) frame0)))).
Proof.
  apply (loop_blocks E _ (metacritic_shape E) (range max_retries) frame0 (None, [])).
  left; reflexivity.
Qed.

End MetacriticBlock.

(** The [try] block of the game-sales scraper after the configuration:
    the retry loop, then the extraction. *)
Section GamesBlock.

Variable E : environment.

Lemma games_block_trace :
  snd (bind (for_each (range max_retries) (VGChartzGames.attempt_body E))
            (fun _ => VGChartzGames.extract_and_save E) frame0) =
    trace_of (for_each (range max_retries) (VGChartzGames.attempt_body E)) frame0 ++
    match outcome_of (for_each (range max_retries) (VGChartzGames.attempt_body E))
                     frame0 with
    | Normal _ =>
        trace_of (VGChartzGames.extract_and_save E)
          (frame_of (for_each (range max_retries) (VGChartzGames.attempt_body E))
                    frame0)
    | _ => []
    end.
Proof.
  apply (trace_bind (for_each (range max_retries) (VGChartzGames.attempt_body E))).
Qed.

Lemma games_block_navigations :
  navigations
    (snd (bind (for_each (range max_retries) (VGChartzGames.attempt_body E))
               (fun _ => VGChartzGames.extract_and_save E) frame0))
  <= max_retries.
Proof.
  rewrite games_block_trace. unfold navigations. rewrite count_app.
  pose proof (loop_navigations E _ (games_shape E) (range max_retries) frame0) as H.
  unfold navigations, range in H. rewrite length_seq in H.
  match goal with
  | |- _ + count is_navigation ?t <= _ =>
      assert (Hz : count is_navigation t = 0)
  end.
  { destruct (outcome_of (for_each (range max_retries) (VGChartzGames.attempt_body E))
                         frame0); try reflexivity.
    apply still_no_navigations, games_extract_still. }
  rewrite Hz, Nat.add_0_r. exact H.
Qed.

Lemma games_block_settled :
  forallb settled
    (snd (bind (for_each (range max_retries) (VGChartzGames.attempt_body E))
               (fun _ => VGChartzGames.extract_and_save E) frame0)) = true.
Proof.
  rewrite games_block_trace, forallb_app.
  rewrite (loop_settled E _ (games_shape E) (range max_retries) frame0).
  destruct (outcome_of (for_each (range max_retries) (VGChartzGames.attempt_body E))
                       frame0); try reflexivity.
  cbn [andb].
  apply (forallb_impl still settled _ still_settled), games_extract_still.
Qed.

Lemma games_block_timed :
  Forall timed_block
    (fst (scan_attempts None []
            (snd (bind (for_each (range max_retries) (VGChartzGames.attempt_body E))
                       (fun _ => VGChartzGames.extract_and_save E) frame0)))).
Proof.
  rewrite games_block_trace, scan_attempts_app. cbn [fst].
  apply Forall_app. split.
  - apply (loop_blocks E _ (games_shape E) (range max_retries) frame0 (None, [])).
    left; reflexivity.
  - rewrite scan_attempts_no_navigation; [constructor |].
    destruct (outcome_of (for_each (range max_retries) (VGChartzGames.attempt_body E))
                         frame0); try reflexivity.
    apply (forallb_impl still _ _ (fun e H => calm_no_navigation e (still_calm e H))).
    apply games_extract_still.
Qed.

End GamesBlock.

(** ** From the [try] block to the run *)

Section Run.

Variable E : environment.
Variable fr : frame.
Variable r : result.

Ltac run_cases :=
  unfold scraper_result, finally_clause, except_clause, configured, closing_events,
    session_identity, launch_agent;
  cbn [user_agent];
  destruct (chromedriver_exists E);
  [ destruct (chrome E) as [[]|e0];
    [ destruct (cdp E 0) as [[]|e1];
      [ destruct (cdp E 1) as [[]|e2];
        [ destruct (cdp E 2) as [[]|e3] | ] | ];
      destruct (quit E) as [[]|eq] | ] | ];
  cbn [prepend app raised snd fst].

Lemma run_navigations n :
  navigations (snd r) <= n -> navigations (snd (scraper_result E fr r)) <= n.
Proof.
  intros H. destruct r as [[c f] t]. cbn [snd] in H.
  unfold navigations in *.
  run_cases; try (cbn; lia);
    destruct c; cbn [prepend app snd];
    rewrite ?count_cons, ?count_app, ?count_cons; cbn; lia.
Qed.

(** The Identity Provider is not called after the first navigation, and
    every navigation presents the identity installed while configuring
    the session. *)
Lemma run_identity :
  forallb settled (snd r) = true ->
  count is_choice (after_first_navigation (snd (scraper_result E fr r))) = 0 /\
  presented None (snd (scraper_result E fr r)) =
    repeat (Some (session_identity E))
           (navigations (snd (scraper_result E fr r))).
Proof.
  intros H. destruct r as [[c f] t]. cbn [snd] in H.
  pose proof (forallb_impl settled keeps_identity t settled_keeps_identity H) as Hk.
  unfold navigations.
  run_cases; try (cbn; auto; fail);
    destruct c; cbn [prepend app snd];
    cbn [after_first_navigation is_navigation presented];
    rewrite ?count_cons; cbn [is_navigation plus];
    (split;
     [ apply keeps_identity_no_choice, after_first_navigation_keeps;
       rewrite ?forallb_app, Hk; reflexivity
     | apply presented_keeps_identity;
       rewrite ?forallb_app, Hk; reflexivity ]).
Qed.

(** The delays before every navigation of the run, with their cause. *)
Lemma run_timed :
  Forall timed_block (fst (scan_attempts None [] (snd r))) ->
  Forall timed_block (attempt_blocks (snd (scraper_result E fr r))).
Proof.
  intros H. destruct r as [[c f] t]. cbn [snd] in H.
  unfold attempt_blocks.
  run_cases; try (cbn; constructor; fail);
    destruct c; cbn [prepend app snd scan_attempts reported_by];
    rewrite ?scan_attempts_app; cbn [fst];
    rewrite ?scan_attempts_no_navigation by reflexivity;
    rewrite ?app_nil_r; exact H.
Qed.

(** When the browser was started, the run ends with the closing of the
    session, and no exception escapes. *)
Lemma run_closes :
  chromedriver_exists E = true -> chrome E = Ok tt ->
  scraper_result E fr r =
    (match fst (fst (except_clause (configured E fr r))) with
     | Raised _ => Normal tt
     | c => c
     end,
     snd (fst (except_clause (configured E fr r))),
     (Log INFO MsgScraping :: Choose (launch_agent E) ::
      Call (OpChrome (launch_agent E)) None ::
      snd (except_clause (configured E fr r))) ++ closing_events E)
  /\ (forall e, fst (fst (scraper_result E fr r)) <> Raised e).
Proof.
  intros H1 H2. unfold scraper_result. rewrite H1, H2.
  unfold finally_clause.
  destruct (configured E fr r) as [[c f] t]; destruct c; cbn; split;
    try reflexivity; intros e'; discriminate.
Qed.

End Run.
(** * Outcomes of the attempts *)

Lemma game_events_no_write gs : count is_write (flat_map game_events gs) = 0.
Proof.
  induction gs as [|g gs IH]; [reflexivity |].
  cbn [flat_map]. rewrite count_app, IH. unfold game_events.
  destruct (game_title g); [| reflexivity].
  destruct (game_score g); [| reflexivity].
  destruct (game_date g); reflexivity.
Qed.

Lemma game_events_no_error gs : count is_error (flat_map game_events gs) = 0.
Proof.
  induction gs as [|g gs IH]; [reflexivity |].
  cbn [flat_map]. rewrite count_app, IH. unfold game_events.
  destruct (game_title g); [| reflexivity].
  destruct (game_score g); [| reflexivity].
  destruct (game_date g); reflexivity.
Qed.

Lemma games_trace_no_write rows : count is_write (games_trace rows) = 0.
Proof.
  induction rows as [|row rows IH]; [reflexivity |].
  cbn [games_trace flat_map]. fold (games_trace rows).
  rewrite count_app, IH.
  destruct row as [cols|e]; [destruct (well_formed cols) |]; reflexivity.
Qed.

Lemma games_trace_no_error rows : count is_error (games_trace rows) = 0.
Proof.
  induction rows as [|row rows IH]; [reflexivity |].
  cbn [games_trace flat_map]. fold (games_trace rows).
  rewrite count_app, IH.
  destruct row as [cols|e]; [destruct (well_formed cols) |]; reflexivity.
Qed.

Lemma save_events_no_error m o d : count is_error (save_events m o d) = 0.
Proof. apply count_save_events; reflexivity. Qed.

(** The statements that save raise a WebDriver exception only when
    [os.makedirs] or [open] does: the destination is then untouched. *)
Lemma save_failure_webdriver m o d e :
  save_failure m o d = Some e -> is_WebDriverException e = true ->
  count is_write (save_events m o d) = 0.
Proof.
  unfold save_failure, save_events, with_block_failure.
  destruct m as [[]|e1]; [| reflexivity].
  destruct o as [f|e2]; [| reflexivity].
  destruct (close f).
  - destruct (write_failure f 0 (csv_of d)) as [[]|]; cbn [option_map exn_of];
      intros H; [injection H as <- | injection H as <- | discriminate]; discriminate.
  - intros H; injection H as <-; discriminate.
Qed.

(** Simplify the count of an explicit list of events. *)
Ltac count_events :=
  repeat (rewrite ?count_cons, ?count_app, ?count_nil, ?game_events_no_write,
            ?game_events_no_error, ?games_trace_no_write, ?games_trace_no_error,
            ?save_events_no_error;
          cbn [is_write is_error is_navigation is_quit is_choice plus]);
  try reflexivity; try lia.

(** An attempt of the Metacritic scraper that is followed by another one
    has not touched the destination and has logged no error. *)
Lemma metacritic_attempt_continuing E i fr :
  match fst (fst (Metacritic.attempt_body E i fr)) with
  | Normal _ | Continued =>
      count is_write (snd (Metacritic.attempt_body E i fr)) = 0 /\
      count is_error (snd (Metacritic.attempt_body E i fr)) = 0
  | _ => True
  end.
Proof.
  rewrite metacritic_attempt, metacritic_extract_and_save.
  unfold loaded, retry_clause.
  destruct (navigate E i) as [[]|e1]; cbn [prepend app raised].
  2:{ destruct (is_WebDriverException e1 && negb (i =? max_retries - 1));
        cbn [fst snd]; [split; count_events | exact I]. }
  destruct (wait_page E i) as [[]|e2]; cbn [prepend app raised].
  2:{ destruct (is_WebDriverException e2 && negb (i =? max_retries - 1));
        cbn [fst snd]; [split; count_events | exact I]. }
  destruct (title E i) as [s|e3]; cbn [prepend app raised].
  2:{ destruct (is_WebDriverException e3 && negb (i =? max_retries - 1));
        cbn [fst snd]; [split; count_events | exact I]. }
  destruct (product_items E i) as [[|g gs]|e4]; cbn [prepend app raised].
  - destruct (i =? max_retries - 1); cbn [prepend app fst snd];
      [exact I | split; count_events].
  - cbv zeta.
    destruct (accepted_games (g :: gs)) as [|first rest];
      [cbn [prepend fst]; exact I |].
    destruct (save_failure (makedirs E) (open_w E) (first :: rest)) as [e|] eqn:Hs;
      cbn [prepend app fst snd]; [| exact I].
    destruct (is_WebDriverException e) eqn:He; cbn [andb]; [| exact I].
    destruct (negb (i =? max_retries - 1)); cbn [fst snd]; [| exact I].
    pose proof (save_failure_webdriver _ _ _ e Hs He) as Hw.
    split; count_events.
  - destruct (is_WebDriverException e4 && negb (i =? max_retries - 1));
      cbn [fst snd]; [split; count_events | exact I].
Qed.

(** On the last attempt the [except] clause re-raises. *)
Lemma retry_clause_last E r : retry_clause E (max_retries - 1) r = r.
Proof.
  destruct r as [[c f] t]; destruct c; try reflexivity.
  unfold retry_clause. rewrite Nat.eqb_refl, andb_false_r. reflexivity.
Qed.

(** A failed last attempt of the Metacritic scraper: the WebDriver
    exception is re-raised, or the missing entries are reported and the
    function returns; the destination is not touched. *)
Lemma metacritic_last_attempt_fails E fr :
  metacritic_attempt_retryable E (max_retries - 1) = true ->
  count is_write (snd (Metacritic.attempt_body E (max_retries - 1) fr)) = 0 /\
  ((exists e, is_WebDriverException e = true /\
              fst (fst (Metacritic.attempt_body E (max_retries - 1) fr)) = Raised e)
   \/
   (fst (fst (Metacritic.attempt_body E (max_retries - 1) fr)) = Returned /\
    In (Log ERROR MsgNoGameElements)
       (snd (Metacritic.attempt_body E (max_retries - 1) fr)))).
Proof.
  unfold metacritic_attempt_retryable, load_failure.
  rewrite metacritic_attempt, metacritic_extract_and_save, retry_clause_last.
  unfold loaded. rewrite Nat.eqb_refl.
  destruct (navigate E (max_retries - 1)) as [[]|e1]; cbn [prepend app raised fst snd].
  2:{ intros H. split; [count_events | left; eauto]. }
  destruct (wait_page E (max_retries - 1)) as [[]|e2]; cbn [prepend app raised fst snd].
  2:{ intros H. split; [count_events | left; eauto]. }
  destruct (title E (max_retries - 1)) as [s|e3]; cbn [prepend app raised fst snd].
  2:{ intros H. split; [count_events | left; eauto]. }
  destruct (product_items E (max_retries - 1)) as [[|g gs]|e4];
    cbn [prepend app raised fst snd].
  - intros _. split; [count_events |]. right. split; [reflexivity |].
    cbn. tauto.
  - discriminate.
  - intros H. split; [count_events | left; eauto].
Qed.

Lemma loaded_ok E marker i fr r :
  load_failure E i = None ->
  loaded E marker i fr r = prepend (load_events E marker i) r.
Proof.
  unfold load_failure, loaded, load_events.
  destruct (navigate E i) as [[]|e1]; [| discriminate].
  destruct (wait_page E i) as [[]|e2]; [| discriminate].
  destruct (title E i) as [s|e3]; [| discriminate].
  intros _. destruct r as [[c f] t]. reflexivity.
Qed.

Lemma load_events_counts E marker i :
  count is_write (load_events E marker i) = 0 /\
  count is_error (load_events E marker i) = 0.
Proof. split; reflexivity. Qed.

(** An attempt of the Metacritic scraper whose page shows entries of
    which none gives a record: a warning, and the function returns. *)
Lemma metacritic_attempt_empty E i fr :
  metacritic_empty_result E i = true ->
  exists t,
    Metacritic.attempt_body E i fr =
      (Returned, {| data := []; table := table fr |}, t ++ [Log WARNING MsgNoGameData]) /\
    count is_write t = 0 /\ count is_error t = 0.
Proof.
  unfold metacritic_empty_result.
  destruct (load_failure E i) eqn:Hload; [discriminate |].
  destruct (product_items E i) as [[|g gs]|e] eqn:Hitems; try discriminate.
  destruct (accepted_games (g :: gs)) eqn:Hacc; [| discriminate].
  intros _.
  rewrite metacritic_attempt, metacritic_extract_and_save, Hitems,
    (loaded_ok E _ i fr _ Hload).
  cbv zeta. rewrite Hacc. cbn [prepend retry_clause].
  eexists. split; [rewrite app_assoc; reflexivity |].
  destruct (load_events_counts E "c-productList" i) as [H1 H2].
  split; rewrite count_app; [rewrite H1 | rewrite H2]; count_events.
Qed.

(** The attempts of the game-sales scraper never touch the destination. *)
Lemma games_attempt_no_write E i :
  emits (fun e => negb (is_write e)) (VGChartzGames.attempt_body E i).
Proof.
  unfold VGChartzGames.attempt_body, VGChartzGames.find_table, load_page,
    on_webdriver_error.
  emits_tac.
Qed.

Lemma games_loop_no_write E indices fr :
  count is_write (trace_of (for_each indices (VGChartzGames.attempt_body E)) fr) = 0.
Proof.
  apply count_zero_forallb.
  apply (emits_for_each (fun e => negb (is_write e))).
  apply games_attempt_no_write.
Qed.

(** An attempt of the game-sales scraper logs an error only when it
    makes the function return. *)
Lemma games_attempt_continuing_no_error E i fr :
  match fst (fst (VGChartzGames.attempt_body E i fr)) with
  | Normal _ | Continued | Broke =>
      count is_error (snd (VGChartzGames.attempt_body E i fr)) = 0
  | _ => True
  end.
Proof.
  rewrite games_attempt, games_find_table.
  unfold loaded, retry_clause.
  destruct (navigate E i) as [[]|e1]; cbn [prepend app raised].
  2:{ destruct (is_WebDriverException e1 && negb (i =? max_retries - 1));
        cbn [fst snd]; [count_events | exact I]. }
  destruct (wait_page E i) as [[]|e2]; cbn [prepend app raised].
  2:{ destruct (is_WebDriverException e2 && negb (i =? max_retries - 1));
        cbn [fst snd]; [count_events | exact I]. }
  destruct (title E i) as [s|e3]; cbn [prepend app raised].
  2:{ destruct (is_WebDriverException e3 && negb (i =? max_retries - 1));
        cbn [fst snd]; [count_events | exact I]. }
  destruct (wait_chart E i) as [tbl|e4]; cbn [prepend app fst snd];
    [count_events |].
  destruct (is_TimeoutException e4).
  - destruct (i =? max_retries - 1); cbn [prepend app fst snd negb]; [| count_events].
    destruct (page_source E) as [src|e5]; cbn [prepend app fst snd]; [exact I |].
    rewrite andb_false_r. exact I.
  - cbn [prepend app fst snd].
    destruct (is_WebDriverException e4 && negb (i =? max_retries - 1));
      cbn [fst snd]; [count_events | exact I].
Qed.

(** A failed last attempt of the game-sales scraper: an exception is
    raised, or the missing table is reported and the function returns. *)
Lemma games_last_attempt_fails E fr :
  games_attempt_retryable E (max_retries - 1) = true ->
  (exists e, fst (fst (VGChartzGames.attempt_body E (max_retries - 1) fr)) = Raised e)
  \/
  (fst (fst (VGChartzGames.attempt_body E (max_retries - 1) fr)) = Returned /\
   In (Log ERROR MsgCouldNotFindTable)
      (snd (VGChartzGames.attempt_body E (max_retries - 1) fr))).
Proof.
  unfold games_attempt_retryable, load_failure.
  rewrite games_attempt, games_find_table, retry_clause_last.
  unfold loaded. rewrite Nat.eqb_refl.
  destruct (navigate E (max_retries - 1)) as [[]|e1]; cbn [prepend app raised fst snd].
  2:{ intros H. left; eauto. }
  destruct (wait_page E (max_retries - 1)) as [[]|e2]; cbn [prepend app raised fst snd].
  2:{ intros H. left; eauto. }
  destruct (title E (max_retries - 1)) as [s|e3]; cbn [prepend app raised fst snd].
  2:{ intros H. left; eauto. }
  destruct (wait_chart E (max_retries - 1)) as [tbl|e4]; [discriminate |].
  intros H.
  destruct (is_TimeoutException e4); cbn [prepend app raised fst snd].
  - destruct (page_source E) as [src|e5]; cbn [prepend app raised fst snd].
    + right. split; [reflexivity |]. cbn. tauto.
    + left; eauto.
  - left; eauto.
Qed.

(** An attempt of the game-sales scraper that finds a table leaves the
    loop with it. *)
Lemma games_attempt_finds E i fr tbl :
  load_failure E i = None -> wait_chart E i = Ok tbl ->
  VGChartzGames.attempt_body E i fr =
    (Broke, {| data := data fr; table := Some tbl |},
     load_events E "body" i ++ [Call (OpWait "chart") None]).
Proof.
  intros Hload Hchart.
  rewrite games_attempt, games_find_table, Hchart, (loaded_ok E _ i fr _ Hload).
  reflexivity.
Qed.

(** ** Loops that use all their attempts *)

Lemma for_each_eta {X} (xs : list X) (body : X -> M unit) fr :
  for_each xs body fr =
    (outcome_of (for_each xs body) fr, frame_of (for_each xs body) fr,
     trace_of (for_each xs body) fr).
Proof. apply run_eta. Qed.

Section Exhausted.

Variable attempt : nat -> M unit.

Hypothesis one_navigation :
  forall i fr, navigations (trace_of (attempt i) fr) = 1.

(** What the attempts that are followed by another one never do. *)
Variable p : event -> bool.

Hypothesis continuing_none :
  forall i fr,
    match outcome_of (attempt i) fr with
    | Normal _ | Continued => count p (trace_of (attempt i) fr) = 0
    | _ => True
    end.

(** When the loop makes as many navigations as it has attempts, every
    attempt before the last was retried, and the loop ends as its last
    attempt does. *)
Lemma loop_exhausted indices last fr :
  navigations (trace_of (for_each (indices ++ [last]) attempt) fr)
  = List.length indices + 1 ->
  exists fr' tpre,
    count p tpre = 0 /\
    for_each (indices ++ [last]) attempt fr =
      (loop_end (outcome_of (attempt last) fr'),
       frame_of (attempt last) fr',
       tpre ++ trace_of (attempt last) fr').
Proof.
  revert fr; induction indices as [|i indices IH]; intros fr H.
  - exists fr, []. split; [reflexivity |].
    cbn [app]. rewrite for_each_eta.
    rewrite outcome_for_each_cons, frame_for_each_cons, trace_for_each_cons.
    destruct (outcome_of (attempt last) fr); cbn; rewrite ?app_nil_r; reflexivity.
  - cbn [app List.length] in *.
    rewrite trace_for_each_cons in H. unfold navigations in H.
    rewrite count_app in H.
    pose proof (one_navigation i fr) as H1. unfold navigations in H1.
    rewrite H1 in H.
    pose proof (continuing_none i fr) as Hw.
    rewrite for_each_eta.
    rewrite outcome_for_each_cons, frame_for_each_cons, trace_for_each_cons.
    destruct (outcome_of (attempt i) fr); try (cbn in H; lia);
      (destruct (IH (frame_of (attempt i) fr)) as [fr' [tpre [Hpre Hloop]]];
       [unfold navigations; lia |]);
      exists fr', (trace_of (attempt i) fr ++ tpre);
      (split; [rewrite count_app; lia |]);
      rewrite (for_each_eta (indices ++ [last])) in Hloop;
      injection Hloop as Ho Hf Ht; rewrite Ho, Hf, Ht, app_assoc; reflexivity.
Qed.

End Exhausted.

(** ** What the attempts leave in the destination *)

Lemma leaves_before P o pre t :
  count is_write pre = 0 -> leaves P o t -> leaves P o (pre ++ t).
Proof. intros H Ht. apply leaves_app; [apply leaves_no_write, H | exact Ht]. Qed.

Lemma leaves_after P o t post :
  leaves P o t -> count is_write post = 0 -> leaves P o (t ++ post).
Proof. intros Ht H. apply leaves_app; [exact Ht | apply leaves_no_write, H]. Qed.

(** The events of the [except WebDriverException] clause and of the
    statements that load the page do not touch the destination. *)
Lemma retry_clause_leaves P o E i (r : result) :
  leaves P o (snd r) -> leaves P o (snd (retry_clause E i r)).
Proof.
  intros H.
  destruct (retry_clause_events E i r) as [-> | [e [_ ->]]]; [exact H |].
  apply leaves_after; [exact H | reflexivity].
Qed.

Lemma loaded_leaves P o E marker i fr (r : result) :
  leaves P o (snd r) -> leaves P o (snd (loaded E marker i fr r)).
Proof.
  intros H. destruct r as [[c f] t]. cbn [snd] in H. unfold loaded.
  destruct (navigate E i) as [[]|e1]; cbn [prepend app raised snd];
    [| apply leaves_no_write; reflexivity].
  destruct (wait_page E i) as [[]|e2]; cbn [prepend app raised snd];
    [| apply leaves_no_write; reflexivity].
  destruct (title E i) as [s|e3]; cbn [prepend app raised snd];
    [| apply leaves_no_write; reflexivity].
  apply (leaves_before P o
           [Sleep (uniform 2 5 (before_attempt_draw E i)); Call OpGet None;
            Log INFO (MsgPageLoaded (i + 1) max_retries);
            Sleep (uniform 3 7 (after_load_draw E i)); Call (OpWait marker) None;
            Call OpTitle None; Log INFO (MsgPageTitle s)] t);
    [reflexivity | exact H].
Qed.

(** An attempt of the Metacritic scraper leaves the destination alone,
    or leaves in it what the [with] block left of the file of the
    records of its page. *)
Lemma metacritic_attempt_leaves E i fr :
  leaves (metacritic_record_set E) (open_w E) (snd (Metacritic.attempt_body E i fr)).
Proof.
  rewrite metacritic_attempt. apply retry_clause_leaves, loaded_leaves.
  rewrite metacritic_extract_and_save.
  destruct (product_items E i) as [[|g gs]|e] eqn:Hitems;
    [destruct (i =? max_retries - 1); apply leaves_no_write; reflexivity
    | | apply leaves_no_write; reflexivity].
  cbv zeta.
  destruct (accepted_games (g :: gs)) as [|first rest] eqn:Hacc.
  - apply leaves_no_write. cbn [snd]. count_events.
  - assert (HP : metacritic_record_set E (first :: rest))
      by (exists i, (g :: gs); split; [exact Hitems | symmetry; exact Hacc]).
    assert (Hs : leaves (metacritic_record_set E) (open_w E)
                   (save_events (makedirs E) (open_w E) (first :: rest)))
      by (apply leaves_save; [exact HP | discriminate]).
    destruct (save_failure (makedirs E) (open_w E) (first :: rest)); cbn [snd];
      (apply leaves_before; [count_events |]); [exact Hs |].
    apply leaves_after; [exact Hs | reflexivity].
Qed.

(** A loop leaves what its last writing iteration left. *)
Lemma loop_leaves {X} P o (xs : list X) (body : X -> M unit) :
  (forall x fr, leaves P o (trace_of (body x) fr)) ->
  forall fr, leaves P o (trace_of (for_each xs body) fr).
Proof.
  intros Hbody. induction xs as [|x xs IH]; intros fr.
  - apply leaves_no_write. reflexivity.
  - rewrite trace_for_each_cons. apply leaves_app; [apply Hbody |].
    destruct (outcome_of (body x) fr); auto; apply leaves_no_write; reflexivity.
Qed.

(** ** Whole runs: the destination file *)

Lemma count_closing_writes E : count is_write (closing_events E) = 0.
Proof. unfold closing_events. destruct (quit E); reflexivity. Qed.

(** A run either reaches the [try] block after the configuration, or
    makes no navigation and no write and keeps its frame. *)
Lemma run_reaches_block E fr r :
  (scraper_result E fr r =
     (fst (fst (except_clause r)), snd (fst r),
      session_prefix E ++ snd (except_clause r) ++ closing_events E))
  \/
  (navigations (snd (scraper_result E fr r)) = 0 /\
   count is_write (snd (scraper_result E fr r)) = 0 /\
   snd (fst (scraper_result E fr r)) = fr).
Proof.
  destruct r as [[c f] t].
  unfold scraper_result, finally_clause, configured, session_prefix.
  destruct (chromedriver_exists E); [| right; cbn; auto].
  destruct (chrome E) as [[]|e0]; [| right; cbn; auto].
  destruct (cdp E 0) as [[]|e1];
    [| right; unfold closing_events; destruct (quit E); cbn; auto].
  destruct (cdp E 1) as [[]|e2];
    [| right; unfold closing_events; destruct (quit E); cbn; auto].
  destruct (cdp E 2) as [[]|e3];
    [| right; unfold closing_events; destruct (quit E); cbn; auto].
  left. destruct c; reflexivity.
Qed.

Lemma session_prefix_no_write E : count is_write (session_prefix E) = 0.
Proof. reflexivity. Qed.

Lemma session_prefix_no_navigation E : navigations (session_prefix E) = 0.
Proof. reflexivity. Qed.

Lemma closing_no_navigation E : navigations (closing_events E) = 0.
Proof. unfold closing_events. destruct (quit E); reflexivity. Qed.

Lemma except_clause_no_write r :
  count is_write (snd r) = 0 -> count is_write (snd (except_clause r)) = 0.
Proof.
  destruct r as [[c f] t]; destruct c; cbn [except_clause snd]; auto.
  intros H. rewrite count_app, H. reflexivity.
Qed.

Lemma except_clause_navigations r :
  navigations (snd (except_clause r)) = navigations (snd r).
Proof.
  destruct r as [[c f] t]; destruct c; cbn [except_clause snd]; auto.
  unfold navigations. rewrite count_app. cbn. lia.
Qed.

(** A run leaves what its [try] block leaves. *)
Lemma run_leaves (P : list record -> Prop) E fr r :
  leaves P (open_w E) (snd r) ->
  leaves P (open_w E) (snd (scraper_result E fr r)).
Proof.
  intros H.
  destruct (run_reaches_block E fr r) as [Hrun | [_ [Hw _]]];
    [| apply leaves_no_write, Hw].
  rewrite Hrun. cbn [snd].
  apply leaves_before; [apply session_prefix_no_write |].
  apply leaves_after; [| apply count_closing_writes].
  destruct r as [[c f] t]; destruct c; cbn [except_clause snd] in *; auto.
  apply leaves_after; [exact H | reflexivity].
Qed.

(** The [try] block of the Metacritic scraper. *)
Lemma metacritic_block_leaves E :
  leaves (metacritic_record_set E) (open_w E)
    (snd (for_each (range max_retries) (Metacritic.attempt_body E) frame0)).
Proof.
  apply (loop_leaves _ _ (range max_retries) (Metacritic.attempt_body E)).
  intros i fr. apply metacritic_attempt_leaves.
Qed.

(** ** The table found by the game-sales scraper *)

Lemma for_each_frame_invariant {X} (Inv : frame -> Prop) (xs : list X)
  (body : X -> M unit) :
  (forall x fr, Inv fr -> Inv (frame_of (body x) fr)) ->
  forall fr, Inv fr -> Inv (frame_of (for_each xs body) fr).
Proof.
  intros Hbody. induction xs as [|x xs IH]; intros fr Hfr; [exact Hfr |].
  rewrite frame_for_each_cons.
  destruct (outcome_of (body x) fr); auto.
Qed.

Lemma games_attempt_table E i fr :
  table_found E fr -> table_found E (frame_of (VGChartzGames.attempt_body E i) fr).
Proof.
  intros Hfr. unfold frame_of. rewrite games_attempt, games_find_table.
  unfold loaded, retry_clause.
  destruct (navigate E i) as [[]|e1]; cbn [prepend app raised].
  2:{ destruct (is_WebDriverException e1 && negb (i =? max_retries - 1)); exact Hfr. }
  destruct (wait_page E i) as [[]|e2]; cbn [prepend app raised].
  2:{ destruct (is_WebDriverException e2 && negb (i =? max_retries - 1)); exact Hfr. }
  destruct (title E i) as [s|e3]; cbn [prepend app raised].
  2:{ destruct (is_WebDriverException e3 && negb (i =? max_retries - 1)); exact Hfr. }
  destruct (wait_chart E i) as [tbl|e4] eqn:Hchart; cbn [prepend app raised fst snd].
  - unfold table_found. cbn [table]. exists i. exact Hchart.
  - destruct (is_TimeoutException e4); cbn [prepend app raised fst snd].
    + destruct (i =? max_retries - 1); cbn [prepend app raised fst snd];
        [| exact Hfr].
      destruct (page_source E) as [src|e5]; cbn [prepend app raised fst snd];
        [exact Hfr |].
      destruct (is_WebDriverException e5 && _); exact Hfr.
    + destruct (is_WebDriverException e4 && _); exact Hfr.
Qed.

(** The [try] block of the game-sales scraper. *)
Lemma games_block_leaves E :
  leaves (games_record_set E) (open_w E)
    (snd (bind (for_each (range max_retries) (VGChartzGames.attempt_body E))
               (fun _ => VGChartzGames.extract_and_save E) frame0)).
Proof.
  set (loop := for_each (range max_retries) (VGChartzGames.attempt_body E)).
  set (k := fun _ : unit => VGChartzGames.extract_and_save E).
  change (snd (bind loop k frame0)) with (trace_of (bind loop k) frame0).
  rewrite trace_bind.
  pose proof (games_loop_no_write E (range max_retries) frame0) as Hloop.
  pose proof (for_each_frame_invariant (table_found E) (range max_retries)
                (VGChartzGames.attempt_body E) (games_attempt_table E) frame0 I)
    as Htable.
  fold loop in Hloop, Htable.
  apply leaves_before; [exact Hloop |].
  destruct (outcome_of loop frame0); try (apply leaves_no_write; reflexivity).
  unfold k, trace_of. rewrite games_extract_and_save.
  unfold table_found in Htable.
  destruct (table (frame_of loop frame0)) as [[trs|e]|];
    try (apply leaves_no_write; reflexivity).
  cbv zeta.
  destruct (games_accepted (tl trs)) as [|first rest] eqn:Hd.
  - apply leaves_no_write. cbn [snd]. count_events.
  - assert (HP : games_record_set E (first :: rest)).
    { destruct Htable as [i Hi]. exists i, trs.
      split; [exact Hi | symmetry; exact Hd]. }
    assert (Hs : leaves (games_record_set E) (open_w E)
                   (save_events (makedirs E) (open_w E) (first :: rest)))
      by (apply leaves_save; [exact HP | discriminate]).
    destruct (save_failure (makedirs E) (open_w E) (first :: rest)); cbn [snd];
      (apply leaves_before; [count_events |]); [exact Hs |].
    apply leaves_after; [exact Hs | reflexivity].
Qed.

(** * The claims *)

Lemma run_of_result (m : M unit) c f t :
  m frame0 = (c, f, t) -> (forall e, c <> Raised e) -> run m = (None, t).
Proof.
  intros H Hc. unfold run. rewrite H.
  destruct c; try reflexivity. elim (Hc e). reflexivity.
Qed.

(** The events of a run before the session is closed. *)
Lemma session_body_quits E r :
  forallb settled (snd r) = true ->
  count is_quit
    (Log INFO MsgScraping :: Choose (launch_agent E) ::
     Call (OpChrome (launch_agent E)) None ::
     snd (except_clause (configured E frame0 r))) = 0.
Proof.
  intros H. destruct r as [[c f] t]. cbn [snd] in H.
  pose proof (settled_no_quit t H) as Hq.
  unfold except_clause, configured.
  destruct (cdp E 0) as [[]|e1]; [| reflexivity].
  destruct (cdp E 1) as [[]|e2]; [| reflexivity].
  destruct (cdp E 2) as [[]|e3]; [| reflexivity].
  destruct c; cbn [prepend app snd];
    rewrite ?count_cons, ?count_app, ?count_cons, Hq; reflexivity.
Qed.

Lemma with_quit_same E : with_quit (quit E) E = E.
Proof. destruct E; reflexivity. Qed.

Section SessionClosed.

Variable E : environment.
Hypothesis driver_found : chromedriver_exists E = true.
Hypothesis browser_started : chrome E = Ok tt.

(** The [try] block of a scraper, which does not depend on the answer
    of [quit]. *)
Variable scraper : environment -> M unit.
Variable block : environment -> result.
Hypothesis scraper_block :
  forall E', scraper E' frame0 = scraper_result E' frame0 (block E').
Hypothesis block_quit : forall q, block (with_quit q E) = block E.
Hypothesis block_settled : forallb settled (snd (block E)) = true.

Lemma session_closed_on_every_path :
  exists body,
    count is_quit body = 0 /\
    forall q,
      run (scraper (with_quit q E)) =
        (None,
         body ++ Call OpQuit (raised q) ::
                 match q with
                 | Ok _ => []
                 | Raises e => [Log WARNING (MsgErrorClosingDriver e)]
                 end)
      /\ forall f,
          fs_after f (snd (run (scraper (with_quit q E)))) = fs_after f body.
Proof.
  exists (Log INFO MsgScraping :: Choose (launch_agent E) ::
          Call (OpChrome (launch_agent E)) None ::
          snd (except_clause (configured E frame0 (block E)))).
  split; [apply session_body_quits, block_settled |].
  intros q.
  destruct (run_closes (with_quit q E) frame0 (block (with_quit q E))
              driver_found browser_started) as [Hrun Hc].
  rewrite block_quit in Hrun, Hc.
  change (configured (with_quit q E) frame0 (block E))
    with (configured E frame0 (block E)) in Hrun.
  change (launch_agent (with_quit q E)) with (launch_agent E) in Hrun.
  change (closing_events (with_quit q E))
    with (Call OpQuit (raised q) ::
          match q with
          | Ok _ => []
          | Raises e => [Log WARNING (MsgErrorClosingDriver e)]
          end) in Hrun.
  assert (Hr : run (scraper (with_quit q E)) =
               (None,
                (Log INFO MsgScraping :: Choose (launch_agent E) ::
                 Call (OpChrome (launch_agent E)) None ::
                 snd (except_clause (configured E frame0 (block E)))) ++
                Call OpQuit (raised q) ::
                match q with
                | Ok _ => []
                | Raises e => [Log WARNING (MsgErrorClosingDriver e)]
                end)).
  { eapply run_of_result.
    - rewrite scraper_block, block_quit. exact Hrun.
    - intros e He. apply (Hc e). rewrite Hrun. exact He. }
  split; [exact Hr |].
  intros f. rewrite Hr. cbn [snd]. rewrite fs_after_app.
  apply fs_after_no_write. destruct q; reflexivity.
Qed.

End SessionClosed.

(** C5. In every run in which the browser was started, [driver.quit()] is
    called exactly once, as the last external call of the run, whatever
    the [try] block did (success, exhausted retries, unexpected
    exception); an exception raised by [quit] is only logged: no
    exception escapes, and the events before the closing and the
    destination file are the same whatever [quit] answers. *)
Theorem session_terminated_on_every_exit_path :
  forall E : environment,
    chromedriver_exists E = true -> chrome E = Ok tt ->
    count is_quit (snd (run (Metacritic.scrape_metacritic_scores E))) = 1 /\
    fst (run (Metacritic.scrape_metacritic_scores E)) = None /\
    count is_quit (snd (run (VGChartzGames.scrape_vgchartz_game_sales E))) = 1 /\
    fst (run (VGChartzGames.scrape_vgchartz_game_sales E)) = None /\
    (exists body,
        count is_quit body = 0 /\
        forall q,
          run (Metacritic.scrape_metacritic_scores (with_quit q E)) =
            (None,
             body ++ Call OpQuit (raised q) ::
                     match q with
                     | Ok _ => []
                     | Raises e => [Log WARNING (MsgErrorClosingDriver e)]
                     end)
          /\ forall f,
              fs_after f (snd (run (Metacritic.scrape_metacritic_scores (with_quit q E))))
              = fs_after f body)
    /\
    (exists body,
        count is_quit body = 0 /\
        forall q,
          run (VGChartzGames.scrape_vgchartz_game_sales (with_quit q E)) =
            (None,
             body ++ Call OpQuit (raised q) ::
                     match q with
                     | Ok _ => []
                     | Raises e => [Log WARNING (MsgErrorClosingDriver e)]
                     end)
          /\ forall f,
              fs_after f (snd (run (VGChartzGames.scrape_vgchartz_game_sales (with_quit q E))))
              = fs_after f body).
Proof.
  intros E Hd Hc.
  assert (HM := session_closed_on_every_path E Hd Hc
             Metacritic.scrape_metacritic_scores
             (fun E' => for_each (range max_retries) (Metacritic.attempt_body E') frame0)
             metacritic_run (fun q => eq_refl) (metacritic_block_settled E)).
  assert (HG := session_closed_on_every_path E Hd Hc
             VGChartzGames.scrape_vgchartz_game_sales
             (fun E' => bind (for_each (range max_retries) (VGChartzGames.attempt_body E'))
                             (fun _ => VGChartzGames.extract_and_save E') frame0)
             games_run (fun q => eq_refl) (games_block_settled E)).
  destruct HM as [bodyM [HqM HM]]. destruct HG as [bodyG [HqG HG]].
  destruct (HM (quit E)) as [HM1 _]. destruct (HG (quit E)) as [HG1 _].
  rewrite with_quit_same in HM1, HG1.
  rewrite HM1, HG1. cbn [fst snd]. rewrite !count_app, HqM, HqG.
  repeat split; try (destruct (quit E); reflexivity).
  - exists bodyM. split; [exact HqM | exact HM].
  - exists bodyG. split; [exact HqG | exact HG].
Qed.

(** In the world where everything works the session is closed once and
    nothing escapes. *)
Lemma session_terminated_witness :
  count is_quit (snd (run (Metacritic.scrape_metacritic_scores fair_world))) = 1 /\
  fst (run (VGChartzGames.scrape_vgchartz_game_sales fair_world)) = None.
Proof.
  destruct (session_terminated_on_every_exit_path fair_world eq_refl eq_refl)
    as [H1 [_ [_ [H4 _]]]].
  split; [exact H1 | exact H4].
Defined.


Lemma run_trace (m : M unit) : snd (run m) = trace_of m frame0.
Proof.
  unfold run, trace_of. destruct (m frame0) as [[c f] t]; destruct c; reflexivity.
Qed.

Lemma metacritic_trace E :
  snd (run (Metacritic.scrape_metacritic_scores E)) =
  snd (scraper_result E frame0
         (for_each (range max_retries) (Metacritic.attempt_body E) frame0)).
Proof. rewrite run_trace. unfold trace_of. rewrite metacritic_run. reflexivity. Qed.

Lemma games_trace_of_run E :
  snd (run (VGChartzGames.scrape_vgchartz_game_sales E)) =
  snd (scraper_result E frame0
         (bind (for_each (range max_retries) (VGChartzGames.attempt_body E))
               (fun _ => VGChartzGames.extract_and_save E) frame0)).
Proof. rewrite run_trace. unfold trace_of. rewrite games_run. reflexivity. Qed.

(** C6. When the chromedriver binary cannot be located, [setup_driver]
    logs the error and returns no driver; the scraper returns at once:
    the browser is not started, nothing is retried and no navigation
    attempt is made. *)
Theorem missing_driver_aborts_before_any_navigation :
  forall E : environment,
    chromedriver_exists E = false ->
    setup_driver E frame0 =
      (Normal None, frame0, [Choose (launch_agent E); Log ERROR MsgDriverNotFound]) /\
    run (Metacritic.scrape_metacritic_scores E) =
      (None, [Log INFO MsgScraping; Choose (launch_agent E);
              Log ERROR MsgDriverNotFound]) /\
    run (VGChartzGames.scrape_vgchartz_game_sales E) =
      (None, [Log INFO MsgScraping; Choose (launch_agent E);
              Log ERROR MsgDriverNotFound]) /\
    navigations (snd (run (Metacritic.scrape_metacritic_scores E))) = 0 /\
    navigations (snd (run (VGChartzGames.scrape_vgchartz_game_sales E))) = 0 /\
    count is_launch (snd (run (Metacritic.scrape_metacritic_scores E))) = 0 /\
    count is_launch (snd (run (VGChartzGames.scrape_vgchartz_game_sales E))) = 0.
Proof.
  intros E H.
  assert (HM : run (Metacritic.scrape_metacritic_scores E) =
               (None, [Log INFO MsgScraping; Choose (launch_agent E);
                       Log ERROR MsgDriverNotFound])).
  { unfold run. rewrite metacritic_run. unfold scraper_result. rewrite H. reflexivity. }
  assert (HG : run (VGChartzGames.scrape_vgchartz_game_sales E) =
               (None, [Log INFO MsgScraping; Choose (launch_agent E);
                       Log ERROR MsgDriverNotFound])).
  { unfold run. rewrite games_run. unfold scraper_result. rewrite H. reflexivity. }
  rewrite HM, HG. repeat split.
  unfold setup_driver, get_random_user_agent. rewrite H. reflexivity.
Qed.

(** The world without the chromedriver binary: no navigation at all. *)
Lemma missing_driver_witness :
  navigations (snd (run (Metacritic.scrape_metacritic_scores no_driver_world))) = 0 /\
  navigations (snd (run (VGChartzGames.scrape_vgchartz_game_sales no_driver_world))) = 0.
Proof.
  destruct (missing_driver_aborts_before_any_navigation no_driver_world eq_refl)
    as [_ [_ [_ [H1 [H2 _]]]]].
  split; [exact H1 | exact H2].
Defined.

(** C1 (as stated) fails: in a run whose first navigation fails and is
    retried, the Identity Provider is not called between the two
    navigation attempts. *)
Lemma identity_not_rechosen_on_retry :
  ~ identity_rechosen_on_retry
      (snd (run (Metacritic.scrape_metacritic_scores flaky_world))).
Proof. unfold identity_rechosen_on_retry. vm_compute. discriminate. Qed.

(** C1 (amended). In every run of a browser scraper the Identity Provider
    is never called after the first navigation attempt, and every
    navigation attempt of the run presents the same identity: the one
    installed once, while the session was configured. *)
Theorem identity_fixed_for_all_attempts :
  forall E : environment,
    let tM := snd (run (Metacritic.scrape_metacritic_scores E)) in
    let tG := snd (run (VGChartzGames.scrape_vgchartz_game_sales E)) in
    count is_choice (after_first_navigation tM) = 0 /\
    presented None tM = repeat (Some (session_identity E)) (navigations tM) /\
    count is_choice (after_first_navigation tG) = 0 /\
    presented None tG = repeat (Some (session_identity E)) (navigations tG).
Proof.
  intros E tM tG. subst tM tG.
  rewrite metacritic_trace, games_trace_of_run.
  destruct (run_identity E frame0 _ (metacritic_block_settled E)) as [H1 H2].
  destruct (run_identity E frame0 _ (games_block_settled E)) as [H3 H4].
  auto.
Qed.

Lemma timed_blocks_within bs :
  Forall timed_block bs -> Forall (within 2 7) (List.concat (map snd bs)).
Proof.
  induction 1 as [|b bs Hb _ IH]; [constructor |].
  cbn [map List.concat]. apply Forall_app. split; [| exact IH].
  destruct b as [[e|] [|r [|d [|x b]]]]; cbn in Hb; try contradiction.
  - destruct Hb as [_ [Hr Hd]]. cbn [snd].
    constructor; [| constructor; [| constructor]]; unfold within in *; split; lra.
  - cbn [snd]. constructor; [| constructor]. unfold within in *. split; lra.
Qed.

Lemma timed_blocks_ok bs : Forall timed_block bs -> Forall block_ok (map snd bs).
Proof.
  induction 1 as [|b bs Hb _ IH]; [constructor |].
  cbn [map]. constructor; [apply timed_block_ok, Hb | exact IH].
Qed.

(** The [except WebDriverException] clause runs its warning and its wait
    exactly for a WebDriver exception of an attempt that is not the
    last. *)
Lemma retry_clause_runs E (body : M unit) i fr e fr1 t1 :
  body fr = (Raised e, fr1, t1) ->
  is_WebDriverException e = true -> i <> max_retries - 1 ->
  try_except body (on_webdriver_error E i) fr =
    (Continued, fr1,
     t1 ++ [Log WARNING (MsgWebDriverError (i + 1) e);
            Sleep (uniform 3 7 (before_retry_draw E i))]).
Proof.
  intros Hb He Hi. rewrite try_except_on_webdriver_error, Hb.
  unfold retry_clause. apply Nat.eqb_neq in Hi. rewrite He, Hi. reflexivity.
Qed.

Lemma retry_clause_idle E (body : M unit) i fr :
  (i = max_retries - 1 \/
   forall e, fst (fst (body fr)) = Raised e -> is_WebDriverException e = false) ->
  try_except body (on_webdriver_error E i) fr = body fr.
Proof.
  intros H. rewrite try_except_on_webdriver_error.
  destruct (body fr) as [[c fr1] t1]. unfold retry_clause.
  destruct c; try reflexivity.
  destruct H as [-> | H].
  - rewrite Nat.eqb_refl, andb_false_r. reflexivity.
  - rewrite (H e eq_refl). reflexivity.
Qed.

(** C8 (as stated) fails: after a navigation that raised a WebDriver
    exception, the scraper waits up to 7 seconds before the jitter delay
    of the next attempt. *)
Lemma retry_wait_exceeds_jitter :
  ~ delays_within_jitter
      (snd (run (Metacritic.scrape_metacritic_scores flaky_world))).
Proof.
  unfold delays_within_jitter. intros H.
  assert (Hin : In (uniform 3 7 (2 ^ 53 - 1))
                   (inter_attempt_delays
                      (snd (run (Metacritic.scrape_metacritic_scores flaky_world))))).
  { right. left. reflexivity. }
  rewrite Forall_forall in H. destruct (H _ Hin) as [_ Hle].
  vm_compute in Hle. apply Hle. reflexivity.
Qed.

(** C8 (amended). In every run, the delays slept before a navigation
    attempt since the previous external call are: the jitter delay of
    the attempt alone, within [2s, 5s], when the [except
    WebDriverException] clause did not run since the previous attempt;
    and, when it ran (for a WebDriver exception, which its warning
    reports), the wait of that clause, within [3s, 7s], followed by the
    jitter delay.  The clause logs its warning and waits exactly when
    the [try] block of an attempt that is not the last one raised a
    WebDriver exception; otherwise it adds no event.  Every such delay
    lies within [2s, 7s]. *)
Theorem delays_before_navigation_bounded :
  forall E : environment,
    let tM := snd (run (Metacritic.scrape_metacritic_scores E)) in
    let tG := snd (run (VGChartzGames.scrape_vgchartz_game_sales E)) in
    Forall timed_block (attempt_blocks tM) /\
    delay_blocks tM = map snd (attempt_blocks tM) /\
    Forall block_ok (delay_blocks tM) /\
    Forall (within 2 7) (inter_attempt_delays tM) /\
    Forall timed_block (attempt_blocks tG) /\
    delay_blocks tG = map snd (attempt_blocks tG) /\
    Forall block_ok (delay_blocks tG) /\
    Forall (within 2 7) (inter_attempt_delays tG) /\
    (forall (body : M unit) i fr e fr1 t1,
        body fr = (Raised e, fr1, t1) ->
        is_WebDriverException e = true -> i <> max_retries - 1 ->
        try_except body (on_webdriver_error E i) fr =
          (Continued, fr1,
           t1 ++ [Log WARNING (MsgWebDriverError (i + 1) e);
                  Sleep (uniform 3 7 (before_retry_draw E i))])) /\
    (forall (body : M unit) i fr,
        (i = max_retries - 1 \/
         forall e, fst (fst (body fr)) = Raised e ->
                   is_WebDriverException e = false) ->
        try_except body (on_webdriver_error E i) fr = body fr).
Proof.
  intros E tM tG. subst tM tG.
  unfold inter_attempt_delays. rewrite !delay_blocks_attempts.
  rewrite metacritic_trace, games_trace_of_run.
  pose proof (run_timed E frame0 _ (metacritic_block_timed E)) as HM.
  pose proof (run_timed E frame0 _ (games_block_timed E)) as HG.
  repeat split; auto using timed_blocks_ok, timed_blocks_within.
  - apply retry_clause_runs.
  - apply retry_clause_idle.
Qed.

(** The run whose first navigation fails: the second navigation comes
    after the wait of the clause and its own jitter delay. *)
Lemma retry_wait_witness :
  attempt_blocks (snd (run (Metacritic.scrape_metacritic_scores flaky_world))) =
    [(None, [uniform 2 5 0]);
     (Some WebDriverException, [uniform 3 7 (2 ^ 53 - 1); uniform 2 5 0])] /\
  try_except (raise WebDriverException) (on_webdriver_error flaky_world 0) frame0 =
    (Continued, frame0,
     [] ++ [Log WARNING (MsgWebDriverError (0 + 1) WebDriverException);
            Sleep (uniform 3 7 (before_retry_draw flaky_world 0))]).
Proof.
  split; [reflexivity |].
  destruct (delays_before_navigation_bounded flaky_world)
    as [_ [_ [_ [_ [_ [_ [_ [_ [H _]]]]]]]]].
  apply (H (raise WebDriverException) 0 frame0 WebDriverException frame0 []);
    [reflexivity | reflexivity | discriminate].
Defined.

(** * The Persistence Writer *)

Lemma skipping_lines_no_write rows :
  count is_write (map (fun cols => Log WARNING (MsgSkippingRow cols)) rows) = 0.
Proof. induction rows as [|cols rows IH]; [reflexivity | exact IH]. Qed.

Lemma consoles_leaves C :
  leaves (consoles_record_set C) (VGChartzConsoles.open_w C)
    (trace_of (VGChartzConsoles.scrape_vgchartz_console_sales C) frame0).
Proof.
  unfold trace_of. rewrite consoles_run.
  destruct (VGChartzConsoles.response C) as [[]|e];
    [| apply leaves_no_write; reflexivity].
  destruct (VGChartzConsoles.sales_table C) as [trs|] eqn:Htable;
    [| apply leaves_no_write; reflexivity].
  cbv zeta.
  destruct (consoles_records (tl trs)) as [|first rest] eqn:Hd.
  - apply leaves_no_write. cbn [snd].
    rewrite count_app, !count_cons, skipping_lines_no_write. reflexivity.
  - assert (HP : consoles_record_set C (first :: rest))
      by (exists trs; split; [exact Htable | symmetry; exact Hd]).
    assert (Hs : leaves (consoles_record_set C) (VGChartzConsoles.open_w C)
                   (save_events (VGChartzConsoles.makedirs C)
                                (VGChartzConsoles.open_w C) (first :: rest)))
      by (apply leaves_save; [exact HP | discriminate]).
    destruct (save_failure _ _ (first :: rest)); cbn [snd];
      (apply leaves_before;
       [rewrite !count_cons, skipping_lines_no_write; reflexivity |]);
      [exact Hs |].
    apply leaves_after; [exact Hs | reflexivity].
Qed.

Lemma metacritic_leaves E :
  leaves (metacritic_record_set E) (open_w E)
    (trace_of (Metacritic.scrape_metacritic_scores E) frame0).
Proof.
  unfold trace_of. rewrite metacritic_run.
  apply run_leaves, metacritic_block_leaves.
Qed.

Lemma games_leaves E :
  leaves (games_record_set E) (open_w E)
    (trace_of (VGChartzGames.scrape_vgchartz_game_sales E) frame0).
Proof.
  unfold trace_of. rewrite games_run.
  apply run_leaves, games_block_leaves.
Qed.





Lemma range_last : range max_retries = [0; 1] ++ [max_retries - 1].
Proof. reflexivity. Qed.

(** The navigations of a run that makes some are those of its [try]
    block. *)
Lemma run_navigations_of_block E r n :
  navigations (snd (scraper_result E frame0 r)) = S n ->
  scraper_result E frame0 r =
    (fst (fst (except_clause r)), snd (fst r),
     session_prefix E ++ snd (except_clause r) ++ closing_events E)
  /\ navigations (snd r) = S n.
Proof.
  intros H.
  destruct (run_reaches_block E frame0 r) as [Hrun | [Hn _]];
    [| rewrite Hn in H; discriminate].
  split; [exact Hrun |].
  rewrite Hrun in H. cbn [snd] in H. unfold navigations in *.
  rewrite !count_app in H.
  pose proof (session_prefix_no_navigation E) as H1.
  pose proof (closing_no_navigation E) as H2.
  pose proof (except_clause_navigations r) as H3.
  unfold navigations in *. lia.
Qed.

Lemma count_either p q t :
  count (fun e => p e || q e) t = 0 -> count p t = 0 /\ count q t = 0.
Proof.
  induction t as [|e t IH]; [split; reflexivity |].
  rewrite !count_cons.
  destruct (p e); cbn [orb]; [intros H; lia |].
  destruct (q e); [intros H; lia |].
  exact IH.
Qed.

Lemma count_neither p q t :
  count p t = 0 -> count q t = 0 -> count (fun e => p e || q e) t = 0.
Proof.
  induction t as [|e t IH]; [reflexivity |].
  rewrite !count_cons.
  destruct (p e); cbn [orb]; [intros H; lia |].
  destruct (q e); [intros _ H; lia |].
  exact IH.
Qed.

Lemma metacritic_continuing_quiet E i fr :
  match outcome_of (Metacritic.attempt_body E i) fr with
  | Normal _ | Continued =>
      count (fun e => is_write e || is_error e)
            (trace_of (Metacritic.attempt_body E i) fr) = 0
  | _ => True
  end.
Proof.
  pose proof (metacritic_attempt_continuing E i fr) as H.
  unfold outcome_of, trace_of.
  destruct (fst (fst (Metacritic.attempt_body E i fr))); auto;
    apply count_neither; tauto.
Qed.

Lemma games_continuing_quiet E i fr :
  match outcome_of (VGChartzGames.attempt_body E i) fr with
  | Normal _ | Continued =>
      count (fun e => is_write e || is_error e)
            (trace_of (VGChartzGames.attempt_body E i) fr) = 0
  | _ => True
  end.
Proof.
  pose proof (games_loop_no_write E [i] fr) as H.
  rewrite trace_for_each_cons, count_app in H.
  apply Nat.eq_add_0 in H as [H _].
  pose proof (games_attempt_continuing_no_error E i fr) as He.
  unfold outcome_of, trace_of in *.
  destruct (fst (fst (VGChartzGames.attempt_body E i fr))); auto;
    apply count_neither; auto.
Qed.

(** A run of the Metacritic scraper that uses all its attempts. *)
Lemma metacritic_all_attempts E :
  navigations (snd (run (Metacritic.scrape_metacritic_scores E))) = max_retries ->
  exists fr' tpre,
    count is_write tpre = 0 /\ count is_error tpre = 0 /\
    snd (run (Metacritic.scrape_metacritic_scores E)) =
      session_prefix E ++
      snd (except_clause
             (loop_end (fst (fst (Metacritic.attempt_body E (max_retries - 1) fr'))),
              snd (fst (Metacritic.attempt_body E (max_retries - 1) fr')),
              tpre ++ snd (Metacritic.attempt_body E (max_retries - 1) fr'))) ++
      closing_events E.
Proof.
  rewrite metacritic_trace. intros Hn.
  apply run_navigations_of_block in Hn as [Hrun Hn]. rewrite Hrun. cbn [snd].
  rewrite range_last in *.
  destruct (loop_exhausted (Metacritic.attempt_body E)
              (attempt_navigations E _ (metacritic_shape E))
              (fun e => is_write e || is_error e)
              (metacritic_continuing_quiet E)
              [0; 1] (max_retries - 1) frame0 Hn)
    as [fr' [tpre [Hpre Hloop]]].
  apply count_either in Hpre as [Hw He].
  exists fr', tpre. split; [exact Hw |]. split; [exact He |].
  rewrite Hloop. reflexivity.
Qed.

Lemma closing_no_error E : count is_error (closing_events E) = 0.
Proof. unfold closing_events. destruct (quit E); reflexivity. Qed.

(** The Metacritic scraper when all its attempts are used and the last
    one ends in a failure that the loop handles. *)
Lemma metacritic_exhausted E :
  navigations (snd (run (Metacritic.scrape_metacritic_scores E))) = max_retries ->
  metacritic_attempt_retryable E (max_retries - 1) = true ->
  (In (Log ERROR MsgNoGameElements)
      (snd (run (Metacritic.scrape_metacritic_scores E))) \/
   exists e, In (Log ERROR (MsgAnErrorOccurred e))
                (snd (run (Metacritic.scrape_metacritic_scores E)))) /\
  count is_write (snd (run (Metacritic.scrape_metacritic_scores E))) = 0.
Proof.
  intros Hn Hf.
  destruct (metacritic_all_attempts E Hn) as [fr' [tpre [Hpre [_ ->]]]].
  destruct (metacritic_last_attempt_fails E fr' Hf) as [Hw Hc].
  destruct Hc as [[e [He Hc]] | [Hc Hin]]; rewrite Hc;
    cbn [loop_end except_clause snd]; split.
  - right. exists e. rewrite !in_app_iff. cbn. tauto.
  - rewrite !count_app, session_prefix_no_write, count_closing_writes, Hpre, Hw.
    reflexivity.
  - left. rewrite !in_app_iff. tauto.
  - rewrite !count_app, session_prefix_no_write, count_closing_writes, Hpre, Hw.
    reflexivity.
Qed.

(** The Metacritic scraper when all its attempts are used and the last
    one finds entries of which none gives a record. *)
Lemma metacritic_exhausted_empty E :
  navigations (snd (run (Metacritic.scrape_metacritic_scores E))) = max_retries ->
  metacritic_empty_result E (max_retries - 1) = true ->
  count is_error (snd (run (Metacritic.scrape_metacritic_scores E))) = 0 /\
  In (Log WARNING MsgNoGameData) (snd (run (Metacritic.scrape_metacritic_scores E))) /\
  count is_write (snd (run (Metacritic.scrape_metacritic_scores E))) = 0.
Proof.
  intros Hn Hf.
  destruct (metacritic_all_attempts E Hn) as [fr' [tpre [Hpre [Herr ->]]]].
  destruct (metacritic_attempt_empty E (max_retries - 1) fr' Hf) as [t [-> [Hw He]]].
  cbn [fst snd loop_end except_clause].
  split; [| split].
  - rewrite !count_app, closing_no_error, Herr, He. reflexivity.
  - rewrite !in_app_iff. cbn. tauto.
  - rewrite !count_app, session_prefix_no_write, count_closing_writes, Hpre, Hw.
    reflexivity.
Qed.

(** A run of the game-sales scraper that uses all its attempts. *)
Lemma games_all_attempts E :
  navigations (snd (run (VGChartzGames.scrape_vgchartz_game_sales E))) = max_retries ->
  exists fr' tpre,
    count is_write tpre = 0 /\ count is_error tpre = 0 /\
    snd (run (VGChartzGames.scrape_vgchartz_game_sales E)) =
      session_prefix E ++
      snd (except_clause
             (bind (fun _ =>
                      (loop_end (fst (fst (VGChartzGames.attempt_body E (max_retries - 1) fr'))),
                       snd (fst (VGChartzGames.attempt_body E (max_retries - 1) fr')),
                       tpre ++ snd (VGChartzGames.attempt_body E (max_retries - 1) fr')))
                   (fun _ => VGChartzGames.extract_and_save E) frame0)) ++
      closing_events E.
Proof.
  rewrite games_trace_of_run. intros Hn.
  apply run_navigations_of_block in Hn as [Hrun Hn]. rewrite Hrun. cbn [snd].
  set (loop := for_each (range max_retries) (VGChartzGames.attempt_body E)) in *.
  set (k := fun _ : unit => VGChartzGames.extract_and_save E) in *.
  assert (Hloopn : navigations (trace_of loop frame0) = max_retries).
  { pose proof (loop_navigations E _ (games_shape E) (range max_retries) frame0) as Hle.
    fold loop in Hle.
    change (snd (bind loop k frame0)) with (trace_of (bind loop k) frame0) in Hn.
    rewrite trace_bind in Hn. unfold navigations in *. rewrite count_app in Hn.
    assert (count is_navigation
              match outcome_of loop frame0 with
              | Normal a => trace_of (k a) (frame_of loop frame0)
              | _ => []
              end = 0).
    { destruct (outcome_of loop frame0); try reflexivity.
      apply still_no_navigations, games_extract_still. }
    unfold range in Hle. rewrite length_seq in Hle.
    unfold max_retries in *. lia. }
  unfold loop in Hloopn. rewrite range_last in Hloopn.
  destruct (loop_exhausted (VGChartzGames.attempt_body E)
              (attempt_navigations E _ (games_shape E))
              (fun e => is_write e || is_error e)
              (games_continuing_quiet E)
              [0; 1] (max_retries - 1) frame0 Hloopn)
    as [fr' [tpre [Hpre Hl]]].
  rewrite <- range_last in Hl. fold loop in Hl.
  apply count_either in Hpre as [Hw He].
  exists fr', tpre. split; [exact Hw |]. split; [exact He |].
  unfold bind at 1. unfold bind at 1. rewrite Hl. reflexivity.
Qed.

(** The game-sales scraper when all its attempts are used and the last
    one ends in a failure that the loop handles. *)
Lemma games_exhausted E :
  navigations (snd (run (VGChartzGames.scrape_vgchartz_game_sales E))) = max_retries ->
  games_attempt_retryable E (max_retries - 1) = true ->
  (In (Log ERROR MsgCouldNotFindTable)
      (snd (run (VGChartzGames.scrape_vgchartz_game_sales E))) \/
   exists e, In (Log ERROR (MsgAnErrorOccurred e))
                (snd (run (VGChartzGames.scrape_vgchartz_game_sales E)))) /\
  count is_write (snd (run (VGChartzGames.scrape_vgchartz_game_sales E))) = 0.
Proof.
  intros Hn Hf.
  destruct (games_all_attempts E Hn) as [fr' [tpre [Hpre [_ ->]]]].
  pose proof (games_loop_no_write E [max_retries - 1] fr') as Hw.
  rewrite trace_for_each_cons, count_app in Hw.
  apply Nat.eq_add_0 in Hw as [Hw2 _]. unfold trace_of in Hw2.
  unfold bind.
  destruct (games_last_attempt_fails E fr' Hf) as [[e Hc] | [Hc Hin]]; rewrite Hc;
    cbn [loop_end except_clause snd]; split.
  - right. exists e. rewrite !in_app_iff. cbn. tauto.
  - rewrite !count_app, session_prefix_no_write, count_closing_writes, Hpre, Hw2.
    reflexivity.
  - left. rewrite !in_app_iff. tauto.
  - rewrite !count_app, session_prefix_no_write, count_closing_writes, Hpre, Hw2.
    reflexivity.
Qed.

(** The game-sales scraper when all its attempts are used and the last
    one finds a table without any record. *)
Lemma games_exhausted_empty E :
  navigations (snd (run (VGChartzGames.scrape_vgchartz_game_sales E))) = max_retries ->
  games_empty_result E (max_retries - 1) = true ->
  count is_error (snd (run (VGChartzGames.scrape_vgchartz_game_sales E))) = 0 /\
  In (Log WARNING MsgNoNintendoGameData)
     (snd (run (VGChartzGames.scrape_vgchartz_game_sales E))) /\
  count is_write (snd (run (VGChartzGames.scrape_vgchartz_game_sales E))) = 0.
Proof.
  intros Hn Hf.
  destruct (games_all_attempts E Hn) as [fr' [tpre [Hpre [Herr ->]]]].
  unfold games_empty_result in Hf.
  destruct (load_failure E (max_retries - 1)) eqn:Hload; [discriminate |].
  destruct (wait_chart E (max_retries - 1)) as [[trs|e]|e] eqn:Hchart;
    try discriminate.
  destruct (games_accepted (tl trs)) eqn:Hacc; [| discriminate].
  rewrite (games_attempt_finds E _ fr' _ Hload Hchart).
  unfold bind. cbn [fst snd loop_end].
  rewrite games_extract_and_save. cbn [table]. cbv zeta. rewrite Hacc.
  cbn [except_clause snd].
  destruct (load_events_counts E "body" (max_retries - 1)) as [H1 H2].
  split; [| split].
  - rewrite !count_app, closing_no_error, Herr, H2. count_events.
  - rewrite !in_app_iff. cbn. tauto.
  - rewrite !count_app, session_prefix_no_write, count_closing_writes, Hpre, H1.
    count_events.
Qed.

(** C2 (as stated) fails: when the first two navigations time out and
    the third page shows entries of which none gives a record (the
    EmptyResult of the specification), the run makes its three
    navigation attempts and ends with a warning: no error is logged. *)
Lemma exhausted_empty_result_is_not_reported : ~ exhaustion_reported barren_world.
Proof.
  unfold exhaustion_reported. intros [H _].
  apply H; reflexivity.
Qed.

(** C2 (amended). Every run makes at most [max_retries] = 3 navigation
    attempts.  When the third attempt is made and ends in a failure that
    the retry loop handles (a WebDriver exception such as a timeout of
    the readiness probe, or no game entry on the Metacritic page), the
    run logs an error; when it ends with an empty result (entries or a
    table without any record), the run logs a warning and no error.  In
    both cases the run makes no further navigation attempt and does not
    touch the destination file. *)
Theorem retry_budget_bounds_navigations :
  forall E : environment,
    let tM := snd (run (Metacritic.scrape_metacritic_scores E)) in
    let tG := snd (run (VGChartzGames.scrape_vgchartz_game_sales E)) in
    max_retries = 3 /\
    navigations tM <= max_retries /\
    navigations tG <= max_retries /\
    (navigations tM = max_retries ->
     metacritic_attempt_retryable E (max_retries - 1) = true ->
     (In (Log ERROR MsgNoGameElements) tM \/
      exists e, In (Log ERROR (MsgAnErrorOccurred e)) tM) /\
     count is_write tM = 0 /\
     forall f, fs_after f tM = f) /\
    (navigations tG = max_retries ->
     games_attempt_retryable E (max_retries - 1) = true ->
     (In (Log ERROR MsgCouldNotFindTable) tG \/
      exists e, In (Log ERROR (MsgAnErrorOccurred e)) tG) /\
     count is_write tG = 0 /\
     forall f, fs_after f tG = f) /\
    (navigations tM = max_retries ->
     metacritic_empty_result E (max_retries - 1) = true ->
     count is_error tM = 0 /\
     In (Log WARNING MsgNoGameData) tM /\
     count is_write tM = 0 /\
     forall f, fs_after f tM = f) /\
    (navigations tG = max_retries ->
     games_empty_result E (max_retries - 1) = true ->
     count is_error tG = 0 /\
     In (Log WARNING MsgNoNintendoGameData) tG /\
     count is_write tG = 0 /\
     forall f, fs_after f tG = f).
Proof.
  intros E tM tG. split; [reflexivity |].
  split; [| split; [| split; [| split; [| split]]]].
  - subst tM. rewrite metacritic_trace.
    apply run_navigations, metacritic_block_navigations.
  - subst tG. rewrite games_trace_of_run.
    apply run_navigations, games_block_navigations.
  - intros Hn Hf. destruct (metacritic_exhausted E Hn Hf) as [Herr Hw].
    split; [exact Herr |]. split; [exact Hw |].
    intros f. apply fs_after_no_write, Hw.
  - intros Hn Hf. destruct (games_exhausted E Hn Hf) as [Herr Hw].
    split; [exact Herr |]. split; [exact Hw |].
    intros f. apply fs_after_no_write, Hw.
  - intros Hn Hf. destruct (metacritic_exhausted_empty E Hn Hf) as [Herr [Hin Hw]].
    split; [exact Herr |]. split; [exact Hin |]. split; [exact Hw |].
    intros f. apply fs_after_no_write, Hw.
  - intros Hn Hf. destruct (games_exhausted_empty E Hn Hf) as [Herr [Hin Hw]].
    split; [exact Herr |]. split; [exact Hin |]. split; [exact Hw |].
    intros f. apply fs_after_no_write, Hw.
Qed.

(** The world whose navigations all time out: three attempts, an error
    logged, no file; and the world whose third page gives no record:
    three attempts, a warning, no error, no file. *)
Lemma retry_budget_witness :
  ((In (Log ERROR MsgNoGameElements)
       (snd (run (Metacritic.scrape_metacritic_scores dead_world))) \/
    exists e, In (Log ERROR (MsgAnErrorOccurred e))
                 (snd (run (Metacritic.scrape_metacritic_scores dead_world)))) /\
   count is_write (snd (run (Metacritic.scrape_metacritic_scores dead_world))) = 0 /\
   forall f, fs_after f (snd (run (Metacritic.scrape_metacritic_scores dead_world))) = f)
  /\
  ((In (Log ERROR MsgCouldNotFindTable)
       (snd (run (VGChartzGames.scrape_vgchartz_game_sales dead_world))) \/
    exists e, In (Log ERROR (MsgAnErrorOccurred e))
                 (snd (run (VGChartzGames.scrape_vgchartz_game_sales dead_world)))) /\
   count is_write (snd (run (VGChartzGames.scrape_vgchartz_game_sales dead_world))) = 0 /\
   forall f, fs_after f (snd (run (VGChartzGames.scrape_vgchartz_game_sales dead_world))) = f)
  /\
  (count is_error (snd (run (Metacritic.scrape_metacritic_scores barren_world))) = 0 /\
   In (Log WARNING MsgNoGameData)
      (snd (run (Metacritic.scrape_metacritic_scores barren_world))) /\
   count is_write (snd (run (Metacritic.scrape_metacritic_scores barren_world))) = 0 /\
   forall f, fs_after f (snd (run (Metacritic.scrape_metacritic_scores barren_world))) = f)
  /\
  (count is_error (snd (run (VGChartzGames.scrape_vgchartz_game_sales barren_world))) = 0 /\
   In (Log WARNING MsgNoNintendoGameData)
      (snd (run (VGChartzGames.scrape_vgchartz_game_sales barren_world))) /\
   count is_write (snd (run (VGChartzGames.scrape_vgchartz_game_sales barren_world))) = 0 /\
   forall f, fs_after f (snd (run (VGChartzGames.scrape_vgchartz_game_sales barren_world))) = f).
Proof.
  destruct (retry_budget_bounds_navigations dead_world) as [_ [_ [_ [HM [HG _]]]]].
  destruct (retry_budget_bounds_navigations barren_world)
    as [_ [_ [_ [_ [_ [HM' HG']]]]]].
  split; [apply HM; reflexivity |].
  split; [apply HG; reflexivity |].
  split; [apply HM' | apply HG']; reflexivity.
Defined.

(** * Empty results *)

Lemma for_each_cons_result {X} (x : X) xs (body : X -> M unit) fr :
  for_each (x :: xs) body fr =
    match body x fr with
    | (Normal _, fr1, t1) | (Continued, fr1, t1) => prepend t1 (for_each xs body fr1)
    | (Broke, fr1, t1) => (Normal tt, fr1, t1)
    | (Raised e, fr1, t1) => (Raised e, fr1, t1)
    | (Returned, fr1, t1) => (Returned, fr1, t1)
    end.
Proof.
  cbn [for_each]. destruct (body x fr) as [[c fr1] t1]; destruct c; try reflexivity;
    destruct (for_each xs body fr1) as [[c2 fr2] t2]; reflexivity.
Qed.

(** C7 (as stated) fails: the game-sales scraper finds the table at its
    first attempt, extracts no record from it, and ends the run after
    that single navigation although two attempts remain. *)
Lemma empty_result_not_retried : ~ empty_result_retried empty_world.
Proof.
  unfold empty_result_retried. intros H.
  assert (Hn : 1 < navigations
                     (snd (run (VGChartzGames.scrape_vgchartz_game_sales empty_world)))).
  { apply H; [reflexivity |]. eexists. split; reflexivity. }
  vm_compute in Hn. lia.
Qed.

(** C7 (amended). When the page of attempt [i] loads:
    - Metacritic, no game entry: while attempts remain the attempt is
      abandoned with a warning and the loop goes on with the next attempt
      at once (without the wait of the WebDriver-error clause); on the
      last attempt an error is logged and the function returns;
    - Metacritic, entries but no accepted record: a warning is logged and
      the function returns, whatever attempts remain;
    - game sales, table found but no accepted record: the loop is left,
      a warning is logged and the function returns.
    In the last two cases the remaining attempts [rest] are not made and
    nothing is written. *)
Theorem empty_result_handling :
  forall (E : environment) (i : nat) (rest : list nat) (fr : frame),
    load_failure E i = None ->
    (product_items E i = Ok [] -> i <> max_retries - 1 ->
     for_each (i :: rest) (Metacritic.attempt_body E) fr =
       prepend (load_events E "c-productList" i ++
                [Call (OpFindElements "c-productListItem") None;
                 Log WARNING (MsgNoGameElementsRetrying (i + 1))])
               (for_each rest (Metacritic.attempt_body E) fr)) /\
    (product_items E i = Ok [] -> i = max_retries - 1 ->
     for_each (i :: rest) (Metacritic.attempt_body E) fr =
       (Returned, fr,
        load_events E "c-productList" i ++
        [Call (OpFindElements "c-productListItem") None;
         Log ERROR MsgNoGameElements])) /\
    (forall g gs,
        product_items E i = Ok (g :: gs) -> accepted_games (g :: gs) = [] ->
        for_each (i :: rest) (Metacritic.attempt_body E) fr =
          (Returned, {| data := []; table := table fr |},
           load_events E "c-productList" i ++
           Call (OpFindElements "c-productListItem") None ::
           flat_map game_events (g :: gs) ++ [Log WARNING MsgNoGameData])) /\
    (forall trs,
        wait_chart E i = Ok (Ok trs) -> games_accepted (tl trs) = [] ->
        bind (for_each (i :: rest) (VGChartzGames.attempt_body E))
             (fun _ => VGChartzGames.extract_and_save E) fr =
          (Returned, {| data := []; table := Some (Ok trs) |},
           load_events E "body" i ++
           Call (OpWait "chart") None ::
           Call (OpFindElements "tr") None ::
           games_trace (tl trs) ++ [Log WARNING MsgNoNintendoGameData])).
Proof.
  intros E i rest fr Hload. repeat split.
  - intros Hitems Hi.
    rewrite for_each_cons_result, metacritic_attempt, metacritic_extract_and_save,
      Hitems, (loaded_ok E _ i fr _ Hload).
    apply Nat.eqb_neq in Hi. rewrite Hi.
    cbn [prepend retry_clause].
    destruct (for_each rest (Metacritic.attempt_body E) fr) as [[c f] t].
    reflexivity.
  - intros Hitems Hi.
    rewrite for_each_cons_result, metacritic_attempt, metacritic_extract_and_save,
      Hitems, (loaded_ok E _ i fr _ Hload).
    apply Nat.eqb_eq in Hi. rewrite Hi. reflexivity.
  - intros g gs Hitems Hacc.
    rewrite for_each_cons_result, metacritic_attempt, metacritic_extract_and_save,
      Hitems, (loaded_ok E _ i fr _ Hload).
    cbv zeta. rewrite Hacc. reflexivity.
  - intros trs Hchart Hacc.
    unfold bind at 1.
    rewrite for_each_cons_result, games_attempt, games_find_table,
      Hchart, (loaded_ok E _ i fr _ Hload).
    cbn [prepend retry_clause]. rewrite games_extract_and_save.
    cbn [table data]. cbv zeta. rewrite Hacc. reflexivity.
Qed.

(** The world with an empty table and the world whose first page shows
    no entry. *)
Lemma empty_result_witness :
  bind (for_each (0 :: [1; 2]) (VGChartzGames.attempt_body empty_world))
       (fun _ => VGChartzGames.extract_and_save empty_world) frame0 =
    (Returned, {| data := []; table := Some (Ok [Ok ["Pos"; "Game"]]) |},
     load_events empty_world "body" 0 ++
     Call (OpWait "chart") None ::
     Call (OpFindElements "tr") None ::
     games_trace (tl [Ok ["Pos"; "Game"]]) ++ [Log WARNING MsgNoNintendoGameData])
  /\
  for_each (0 :: [1; 2]) (Metacritic.attempt_body late_world) frame0 =
    prepend (load_events late_world "c-productList" 0 ++
             [Call (OpFindElements "c-productListItem") None;
              Log WARNING (MsgNoGameElementsRetrying (0 + 1))])
            (for_each [1; 2] (Metacritic.attempt_body late_world) frame0).
Proof.
  split.
  - destruct (empty_result_handling empty_world 0 [1; 2] frame0 eq_refl)
      as [_ [_ [_ H]]].
    apply H; reflexivity.
  - destruct (empty_result_handling late_world 0 [1; 2] frame0 eq_refl)
      as [H _].
    apply H; [reflexivity | discriminate].
Defined.

(** * Rows *)

Lemma filter_skip {X} (p : X -> bool) before x after :
  p x = false -> filter p (before ++ x :: after) = filter p (before ++ after).
Proof.
  intros H. rewrite !filter_app. cbn [filter]. rewrite H. reflexivity.
Qed.

(** C3 (as stated) fails for the console scraper: of 50 rows, 3 of which
    are under the minimum, the 47 well-formed rows of another maker's
    console give no record at all. *)
Lemma fifty_rows_not_47 : ~ fifty_rows_give_47 fifty_rows.
Proof.
  unfold fifty_rows_give_47. intros H.
  specialize (H eq_refl eq_refl). vm_compute in H. discriminate.
Qed.

(** C3 (amended). For every list of rows, a row with fewer than 7 cells
    is skipped with a warning and the rows after it are processed as if
    it were absent; the loop never aborts.  The game-sales scraper keeps
    one record for each well-formed row, so exactly 47 of 50 rows when 3
    are malformed; the console scraper keeps, among the well-formed
    rows, those whose name cell names a Nintendo console, so at most 47. *)
Theorem malformed_rows_are_skipped :
  forall (rows : list (list string)) (fr : frame),
    for_each (map Ok rows) VGChartzGames.process_row fr =
      (Normal tt,
       {| data := data fr ++ games_records rows; table := table fr |},
       games_trace (map Ok rows)) /\
    log_of (games_trace (map Ok rows)) = skipped_log rows /\
    for_each rows VGChartzConsoles.process_row fr =
      (Normal tt,
       {| data := data fr ++ consoles_records rows; table := table fr |},
       map (fun cols => Log WARNING (MsgSkippingRow cols)) (filter malformed rows)) /\
    (forall before short after,
        rows = before ++ short :: after -> List.length short < minimum_columns ->
        In (WARNING, MsgSkippingRow short) (skipped_log rows) /\
        games_records rows = games_records (before ++ after) /\
        consoles_records rows = consoles_records (before ++ after)) /\
    List.length (games_records rows) + List.length (filter malformed rows)
      = List.length rows /\
    List.length (consoles_records rows) + List.length (filter malformed rows)
      <= List.length rows /\
    (List.length rows = 50 -> List.length (filter malformed rows) = 3 ->
     List.length (games_records rows) = 47 /\
     List.length (consoles_records rows) <= 47).
Proof.
  intros rows fr.
  pose proof (games_records_length rows) as HG.
  pose proof (consoles_records_length rows) as HC.
  split; [rewrite games_loop, games_accepted_readable; reflexivity |].
  split; [apply games_trace_log |].
  split; [apply consoles_loop |].
  split; [| split; [exact HG | split; [exact HC | intros; lia]]].
  intros before short after -> Hshort.
  assert (Hwf : well_formed short = false).
  { unfold well_formed. apply Nat.leb_gt. exact Hshort. }
  split; [| split].
  - unfold skipped_log. apply in_map_iff. exists short. split; [reflexivity |].
    apply filter_In. split; [apply in_elt |].
    unfold malformed. rewrite Hwf. reflexivity.
  - unfold games_records. rewrite (filter_skip well_formed _ _ _ Hwf). reflexivity.
  - unfold consoles_records.
    rewrite (filter_skip consoles_kept); [reflexivity |].
    unfold consoles_kept. rewrite Hwf. reflexivity.
Qed.

(** The page of 50 rows, and a page where a short row sits between two
    well-formed ones. *)
Lemma malformed_rows_witness :
  List.length (games_records fifty_rows) = 47 /\
  List.length (consoles_records fifty_rows) <= 47 /\
  games_records (mixed_rows) = games_records ([other_console_row] ++ [switch_row]).
Proof.
  destruct (malformed_rows_are_skipped fifty_rows frame0)
    as [_ [_ [_ [_ [_ [_ H]]]]]].
  destruct (H eq_refl eq_refl) as [H1 H2].
  destruct (malformed_rows_are_skipped mixed_rows frame0)
    as [_ [_ [_ [H3 _]]]].
  destruct (H3 [other_console_row] ["x"] [switch_row] eq_refl) as [_ [H4 _]].
  - cbn. unfold minimum_columns. lia.
  - auto.
Defined.

(** C9. In the console scraper a row with at least 7 cells is added to
    the record set exactly when its name cell (index 1) contains one of
    the 12 names of [NINTENDO_CONSOLES] as a substring; a well-formed row
    that fails this test is dropped without any log message, whereas a
    malformed row is logged. *)
Theorem console_rows_filtered_by_name :
  forall (cols : list string) (rows : list (list string)) (fr : frame),
    VGChartzConsoles.process_row cols fr =
      (if minimum_columns <=? List.length cols then
         if VGChartzConsoles.is_nintendo (nth 1 cols "") then
           (Normal tt,
            {| data := data fr ++ [VGChartzConsoles.mk_record (nth 1 cols "") cols];
               table := table fr |}, [])
         else (Normal tt, fr, [])
       else (Continued, fr, [Log WARNING (MsgSkippingRow cols)])) /\
    (VGChartzConsoles.is_nintendo (nth 1 cols "") = true <->
     exists console,
       In console VGChartzConsoles.NINTENDO_CONSOLES /\
       occurs_in console (nth 1 cols "")) /\
    List.length VGChartzConsoles.NINTENDO_CONSOLES = 12 /\
    for_each rows VGChartzConsoles.process_row fr =
      (Normal tt,
       {| data := data fr ++ consoles_records rows; table := table fr |},
       map (fun cols => Log WARNING (MsgSkippingRow cols)) (filter malformed rows)).
Proof.
  intros cols rows fr.
  split; [exact (consoles_process_row cols fr) |].
  split; [apply is_nintendo_occurs |].
  split; [reflexivity | apply consoles_loop].
Qed.

(** * Release dates *)

Lemma digit_value n : nat_of_ascii (digit n) - 48 = n mod 10.
Proof.
  unfold digit.
  assert (H : n mod 10 < 10) by (apply Nat.mod_upper_bound; discriminate).
  rewrite nat_ascii_embedding by lia. lia.
Qed.

Lemma decimal_pad2 n : n < 100 -> decimal (pad2 n) = n.
Proof.
  intros H. unfold decimal, pad2.
  cbn [list_ascii_of_string fold_left]. rewrite !digit_value.
  pose proof (Nat.div_mod_eq n 10) as Hd.
  assert ((n / 10) mod 10 = n / 10).
  { apply Nat.mod_small. apply Nat.Div0.div_lt_upper_bound. lia. }
  lia.
Qed.

Lemma decimal_pad4 n : n < 100 * 100 -> decimal (pad4 n) = n.
Proof.
  intros H. unfold decimal, pad4, pad2.
  cbn [list_ascii_of_string fold_left]. rewrite !digit_value.
  pose proof (Nat.div_mod_eq n 10) as H1.
  pose proof (Nat.div_mod_eq (n / 10) 10) as H2.
  pose proof (Nat.div_mod_eq (n / 100) 10) as H3.
  assert (E1 : n / 10 / 10 = n / 100) by (rewrite Nat.Div0.div_div; reflexivity).
  assert (E2 : n / 100 / 10 = n / 1000) by (rewrite Nat.Div0.div_div; reflexivity).
  rewrite E1 in H2. rewrite E2 in H3.
  assert (E3 : (n / 1000) mod 10 = n / 1000).
  { apply Nat.mod_small. apply Nat.Div0.div_lt_upper_bound. lia. }
  rewrite E3. lia.
Qed.

(** The decimal digits of a year of four digits. *)
Lemma decimal_digits_pad4 y : 1000 <= y < 100 * 100 -> decimal_digits y = pad4 y.
Proof.
  intros Hy.
  assert (Hall : forallb (fun n => String.eqb (decimal_digits n) (pad4 n))
                         (seq 1000 (90 * 100)) = true) by (vm_compute; reflexivity).
  rewrite forallb_forall in Hall.
  apply String.eqb_eq, Hall, in_seq. lia.
Qed.

(** The shape of [strftime('%Y-%m-%d')] for a year of four digits: four
    digits, a dash, two digits, a dash, two digits, which read back as
    the date. *)
Lemma strftime_Ymd_shape dt :
  1000 <= year dt < 100 * 100 ->
  strftime_Ymd dt =
    (pad4 (year dt) ++ "-" ++ pad2 (month dt) ++ "-" ++ pad2 (day dt))%string /\
  String.length (strftime_Ymd dt) = 10 /\
  (month dt < 100 -> day dt < 100 ->
   decimal (substring 0 4 (strftime_Ymd dt)) = year dt /\
   get 4 (strftime_Ymd dt) = Some "-"%char /\
   decimal (substring 5 2 (strftime_Ymd dt)) = month dt /\
   get 7 (strftime_Ymd dt) = Some "-"%char /\
   decimal (substring 8 2 (strftime_Ymd dt)) = day dt).
Proof.
  intros Hy. unfold strftime_Ymd. rewrite (decimal_digits_pad4 _ Hy).
  split; [reflexivity |]. split; [reflexivity |].
  intros Hm Hd.
  change (substring 0 4 (pad4 (year dt) ++ "-" ++ pad2 (month dt) ++ "-" ++
                         pad2 (day dt))) with (pad4 (year dt)).
  change (substring 5 2 (pad4 (year dt) ++ "-" ++ pad2 (month dt) ++ "-" ++
                         pad2 (day dt))) with (pad2 (month dt)).
  change (substring 8 2 (pad4 (year dt) ++ "-" ++ pad2 (month dt) ++ "-" ++
                         pad2 (day dt))) with (pad2 (day dt)).
  rewrite decimal_pad4, !decimal_pad2 by (assumption || lia).
  repeat split; reflexivity.
Qed.

Section OpenCriticFacts.

Variable fromisoformat : string -> call_result datetime.
Variable E : OpenCritic.environment.

(** The conversion of a non-empty release-date string. *)
Lemma convert_release_date_string s :
  s <> ""%string ->
  OpenCritic.convert_release_date fromisoformat (VStr s) =
    match fromisoformat (replace_Z s) with
    | Ok dt => VStr (strftime_Ymd dt)
    | Raises _ => VStr ""
    end.
Proof.
  intros H. unfold OpenCritic.convert_release_date. cbn [truthy].
  destruct (String.eqb_spec s ""); [contradiction | reflexivity].
Qed.

(** One game whose detail request succeeds. *)
Lemma opencritic_process_game i game fr id details :
  dict_get "id" game = Some id ->
  OpenCritic.details_response E i = Ok (OpenCritic.JObject details) ->
  OpenCritic.process_game fromisoformat E i (OpenCritic.JObject game) fr =
    (Normal tt,
     {| data := data fr ++
                [OpenCritic.mk_record
                   (OpenCritic.get_default "name" details (VStr ""))
                   (OpenCritic.get_default "topCriticScore" details (VNum 0))
                   (OpenCritic.convert_release_date fromisoformat
                      (OpenCritic.get_default "firstReleaseDate" details (VStr "")))];
        table := table fr |},
     [Sleep (uniform 0.5 1.5 (OpenCritic.delay_draw E i));
      Choose (random_choice (OpenCritic.choice_draw E (S i)) user_agents);
      Call (OpRequest "https://api.opencritic.com/api/game/{game_id}") None;
      Log INFO (MsgProcessedGame (OpenCritic.get_default "name" details (VStr "")))]).
Proof.
  intros Hid Hdetails.
  unfold OpenCritic.process_game, OpenCritic.subscript, OpenCritic.get_headers,
    try_except.
  rewrite Hid, bind_ret, bind_sleep, bind_emit, bind_perform, Hdetails.
  reflexivity.
Qed.

End OpenCriticFacts.

(** C10. In the OpenCritic scraper, a game whose detail request succeeds
    and whose [firstReleaseDate] is a non-empty string is always appended
    to the record set, without any warning: with the release date
    reformatted by [strftime('%Y-%m-%d')] when [datetime.fromisoformat]
    parses it (after replacing [Z] by [+00:00]), and with the empty
    string as release date when it does not.  The reformatted date is
    the year in decimal, a dash, the month on two digits, a dash and the
    day on two digits; for a year from 1000 on (below 10000, as every
    year of a [datetime] is) it is the ten characters YYYY-MM-DD. *)
Theorem unparseable_release_date_is_blanked :
  forall (fromisoformat : string -> call_result datetime)
         (E : OpenCritic.environment) (i : nat) (game details : OpenCritic.json_object)
         (id : value) (s : string) (fr : frame),
    dict_get "id" game = Some id ->
    OpenCritic.details_response E i = Ok (OpenCritic.JObject details) ->
    dict_get "firstReleaseDate" details = Some (VStr s) ->
    s <> ""%string ->
    let released :=
      match fromisoformat (replace_Z s) with
      | Ok dt => VStr (strftime_Ymd dt)
      | Raises _ => VStr ""
      end in
    let step := OpenCritic.process_game fromisoformat E i (OpenCritic.JObject game) in
    outcome_of step fr = Normal tt /\
    data (frame_of step fr) =
      data fr ++
      [[("Game", OpenCritic.get_default "name" details (VStr ""));
        ("OpenCritic Score", OpenCritic.get_default "topCriticScore" details (VNum 0));
        ("Release Date", released)]] /\
    log_of (trace_of step fr) =
      [(INFO, MsgProcessedGame (OpenCritic.get_default "name" details (VStr "")))] /\
    (forall dt,
        fromisoformat (replace_Z s) = Ok dt ->
        released = VStr (decimal_digits (year dt) ++ "-" ++ pad2 (month dt) ++ "-"
                         ++ pad2 (day dt))%string /\
        (1000 <= year dt < 100 * 100 ->
         released = VStr (pad4 (year dt) ++ "-" ++ pad2 (month dt) ++ "-"
                          ++ pad2 (day dt))%string /\
         String.length (strftime_Ymd dt) = 10 /\
         (month dt < 100 -> day dt < 100 ->
          decimal (substring 0 4 (strftime_Ymd dt)) = year dt /\
          get 4 (strftime_Ymd dt) = Some "-"%char /\
          decimal (substring 5 2 (strftime_Ymd dt)) = month dt /\
          get 7 (strftime_Ymd dt) = Some "-"%char /\
          decimal (substring 8 2 (strftime_Ymd dt)) = day dt))) /\
    (forall e, fromisoformat (replace_Z s) = Raises e -> released = VStr "").
Proof.
  intros fromisoformat E i game details id s fr Hid Hdetails Hdate Hs released step.
  subst step. unfold outcome_of, frame_of, trace_of.
  rewrite (opencritic_process_game fromisoformat E i game fr id details Hid Hdetails).
  cbn [fst snd data log_of].
  unfold OpenCritic.get_default at 3. rewrite Hdate.
  rewrite (convert_release_date_string fromisoformat s Hs).
  split; [reflexivity |]. split; [reflexivity |]. split; [reflexivity |].
  subst released. split.
  - intros dt Hdt. rewrite Hdt. split; [reflexivity |].
    intros Hy. destruct (strftime_Ymd_shape dt Hy) as [H1 [H2 H3]].
    split; [rewrite H1; reflexivity |]. split; assumption.
  - intros e He. rewrite He. reflexivity.
Qed.

(** A game with an unparseable release date and one with a timestamp. *)
Lemma unparseable_release_date_witness :
  data (frame_of (OpenCritic.process_game sample_fromisoformat sample_api 1
                    (OpenCritic.JObject [("id", VNum 7); ("name", VStr "Someday")]))
                 frame0) =
    [[("Game", VStr "Someday"); ("OpenCritic Score", VNum 80);
      ("Release Date", VStr "")]] /\
  data (frame_of (OpenCritic.process_game sample_fromisoformat sample_api 0
                    (OpenCritic.JObject [("id", VNum 1548); ("name", VStr "Zelda")]))
                 frame0) =
    [[("Game", VStr "Zelda"); ("OpenCritic Score", VNum 97);
      ("Release Date", VStr "2017-03-03")]] /\
  String.length (strftime_Ymd (mkDate 2017 3 3)) = 10.
Proof.
  split; [| split].
  - destruct (unparseable_release_date_is_blanked sample_fromisoformat sample_api 1
                [("id", VNum 7); ("name", VStr "Someday")]
                [("name", VStr "Someday"); ("topCriticScore", VNum 80);
                 ("firstReleaseDate", VStr "to be announced")]
                (VNum 7) "to be announced" frame0
                eq_refl eq_refl eq_refl) as [_ [H _]].
    + discriminate.
    + exact H.
  - destruct (unparseable_release_date_is_blanked sample_fromisoformat sample_api 0
                [("id", VNum 1548); ("name", VStr "Zelda")]
                [("name", VStr "Zelda"); ("topCriticScore", VNum 97);
                 ("firstReleaseDate", VStr "2017-03-03T00:00:00.000Z")]
                (VNum 1548) "2017-03-03T00:00:00.000Z" frame0
                eq_refl eq_refl eq_refl) as [_ [H _]].
    + discriminate.
    + exact H.
  - destruct (unparseable_release_date_is_blanked sample_fromisoformat sample_api 0
                [("id", VNum 1548); ("name", VStr "Zelda")]
                [("name", VStr "Zelda"); ("topCriticScore", VNum 97);
                 ("firstReleaseDate", VStr "2017-03-03T00:00:00.000Z")]
                (VNum 1548) "2017-03-03T00:00:00.000Z" frame0
                eq_refl eq_refl eq_refl) as [_ [_ [_ [H _]]]].
    + discriminate.
    + destruct (H (mkDate 2017 3 3) eq_refl) as [_ H']. apply H'. cbn. lia.
Defined.

(** * The OpenCritic scraper *)

Lemma uniform_half_second draw : within 0.5 1.5 (uniform 0.5 1.5 draw).
Proof.
  unfold within, uniform.
  destruct (random_random_bounds draw) as [H0 H1].
  split; Lqa.lra.
Qed.

Lemma random_choice_in_pool draw : In (random_choice draw user_agents) user_agents.
Proof.
  unfold random_choice. apply nth_In.
  apply Nat.mod_upper_bound. discriminate.
Qed.

Lemma frame_eta fr : {| data := data fr ++ []; table := table fr |} = fr.
Proof. destruct fr. cbn. rewrite app_nil_r. reflexivity. Qed.

Lemma all_objects_map games : all_objects (map OpenCritic.JObject games) = true.
Proof. induction games as [|game games IH]; [reflexivity | exact IH]. Qed.

Lemma leading_objects_map games :
  leading_objects (map OpenCritic.JObject games) = games.
Proof.
  induction games as [|game games IH]; [reflexivity |].
  cbn [map leading_objects]. rewrite IH. reflexivity.
Qed.

Lemma all_objects_leading entries :
  all_objects entries = true ->
  entries = map OpenCritic.JObject (leading_objects entries).
Proof.
  induction entries as [|[game|] entries IH]; intros H;
    [reflexivity | | discriminate].
  cbn [leading_objects map]. rewrite <- IH; [reflexivity | exact H].
Qed.

(** The entries before and after the first one that is not an object. *)
Lemma leading_objects_stop before after :
  all_objects (map OpenCritic.JObject before ++ OpenCritic.JOther :: after) = false /\
  leading_objects (map OpenCritic.JObject before ++ OpenCritic.JOther :: after) = before.
Proof.
  induction before as [|game before [IH1 IH2]]; [split; reflexivity |].
  cbn [map app all_objects forallb leading_objects]. split.
  - exact IH1.
  - rewrite IH2. reflexivity.
Qed.

Section OpenCriticRun.

Variable fromisoformat : string -> call_result datetime.
Variable E : OpenCritic.environment.

(** One iteration of the loop, for an entry that is an object. *)
Lemma opencritic_process_any i game fr :
  OpenCritic.process_game fromisoformat E i (OpenCritic.JObject game) fr =
    (match game_failure E (i, game) with
     | None => Normal tt
     | Some _ => Continued
     end,
     {| data := data fr ++ processed fromisoformat E (i, game); table := table fr |},
     opencritic_game_events E (i, game)).
Proof.
  unfold OpenCritic.process_game, OpenCritic.subscript, OpenCritic.json_get,
    OpenCritic.get_headers, try_except,
    game_failure, processed, opencritic_game_events, game_log, has_id, skipped_game.
  cbn [fst snd].
  destruct (dict_get "id" game) as [id|].
  - rewrite bind_ret, bind_sleep, bind_emit, bind_perform.
    destruct (OpenCritic.details_response E i) as [[details|]|e]; cbn [raised prepend].
    + reflexivity.
    + cbn. rewrite frame_eta. reflexivity.
    + cbn. rewrite frame_eta. reflexivity.
  - cbn. rewrite frame_eta. reflexivity.
Qed.

(** One iteration of the loop, for an entry that is not an object:
    [game['id']] raises [TypeError], and [game.get] in the handler
    raises [AttributeError] before anything is logged. *)
Lemma opencritic_process_other i fr :
  OpenCritic.process_game fromisoformat E i OpenCritic.JOther fr =
    (Raised AttributeError, fr, []).
Proof. reflexivity. Qed.

Lemma opencritic_loop_from k entries fr :
  for_each (numbered k entries)
    (fun ig => OpenCritic.process_game fromisoformat E (fst ig) (snd ig)) fr =
    (if all_objects entries then Normal tt else Raised AttributeError,
     {| data := data fr ++
                opencritic_records fromisoformat E
                  (numbered k (leading_objects entries));
        table := table fr |},
     flat_map (opencritic_game_events E) (numbered k (leading_objects entries))).
Proof.
  revert k fr. induction entries as [|[game|] entries IH]; intros k fr.
  - cbn. rewrite frame_eta. reflexivity.
  - rewrite numbered_cons, for_each_cons_result. cbn [fst snd].
    rewrite opencritic_process_any.
    cbn [leading_objects all_objects forallb andb]. rewrite numbered_cons.
    fold (all_objects entries).
    destruct (game_failure E (k, game)); rewrite IH;
      cbn [prepend data table opencritic_records flat_map];
      rewrite <- app_assoc; reflexivity.
  - rewrite numbered_cons, for_each_cons_result. cbn [fst snd].
    rewrite opencritic_process_other. cbn. rewrite frame_eta. reflexivity.
Qed.

(** The loop over the entries of the list. *)
Lemma opencritic_loop entries fr :
  for_each (OpenCritic.indexed entries)
    (fun ig => OpenCritic.process_game fromisoformat E (fst ig) (snd ig)) fr =
    (if all_objects entries then Normal tt else Raised AttributeError,
     {| data := data fr ++
                opencritic_records fromisoformat E
                  (OpenCritic.indexed (leading_objects entries));
        table := table fr |},
     flat_map (opencritic_game_events E)
       (OpenCritic.indexed (leading_objects entries))).
Proof. apply (opencritic_loop_from 0). Qed.

Lemma details_record_keys details :
  keys (details_record fromisoformat details) =
  ["Game"; "OpenCritic Score"; "Release Date"].
Proof. reflexivity. Qed.

Lemma opencritic_records_uniform games :
  uniform_keys ["Game"; "OpenCritic Score"; "Release Date"]
    (opencritic_records fromisoformat E games).
Proof.
  unfold uniform_keys, opencritic_records.
  induction games as [|ig games IH]; [constructor |].
  cbn [flat_map]. apply Forall_app. split; [| exact IH].
  unfold processed. destruct (has_id (snd ig)); [| constructor].
  destruct (OpenCritic.details_response E (fst ig)) as [[details|]|e]; constructor;
    [reflexivity | constructor].
Qed.

(** The whole run. *)
Lemma opencritic_run :
  OpenCritic.scrape_opencritic_scores fromisoformat E frame0 =
    match OpenCritic.games_response E with
    | Raises e =>
        (Normal tt, frame0,
         [Log INFO MsgScraping;
          Choose (random_choice (OpenCritic.choice_draw E 0) user_agents);
          Call (OpRequest "https://api.opencritic.com/api/game") (Some e);
          opencritic_error e])
    | Ok OpenCritic.NoLength =>
        (Normal tt, frame0,
         [Log INFO MsgScraping;
          Choose (random_choice (OpenCritic.choice_draw E 0) user_agents);
          Call (OpRequest "https://api.opencritic.com/api/game") None;
          opencritic_error TypeError])
    | Ok (OpenCritic.Entries entries) =>
        let games := leading_objects entries in
        let d := opencritic_records fromisoformat E (OpenCritic.indexed games) in
        let fr := {| data := d; table := None |} in
        let t := opencritic_listing_of E (List.length entries) games in
        if all_objects entries then
          match d with
          | [] => (Returned, fr, t ++ [Log WARNING MsgNoGameData])
          | _ :: _ =>
              (Normal tt, fr,
               t ++ save_events (OpenCritic.makedirs E) (OpenCritic.open_w E) d ++
               [match save_failure (OpenCritic.makedirs E) (OpenCritic.open_w E) d with
                | Some e => opencritic_error e
                | None => Log INFO MsgSaved
                end])
          end
        else (Normal tt, fr, t ++ [opencritic_error AttributeError])
    end.
Proof.
  unfold OpenCritic.scrape_opencritic_scores, OpenCritic.get_headers,
    opencritic_listing_of, opencritic_error.
  rewrite bind_log. unfold try_except.
  rewrite bind_emit, bind_perform.
  destruct (OpenCritic.games_response E) as [[entries|]|e].
  - rewrite bind_log, bind_set_data. unfold bind at 1. rewrite opencritic_loop.
    cbv zeta. cbn [data table frame0 app].
    destruct (all_objects entries); [| cbn; rewrite ?app_nil_r; reflexivity].
    rewrite bind_get_data. cbn [data].
    pose proof (opencritic_records_uniform
                  (OpenCritic.indexed (leading_objects entries))) as Hu.
    destruct (opencritic_records fromisoformat E
                (OpenCritic.indexed (leading_objects entries)))
      as [|r rs] eqn:Hd.
    + reflexivity.
    + assert (Hk : keys r = ["Game"; "OpenCritic Score"; "Release Date"])
        by (inversion Hu; assumption).
      unfold bind at 1.
      rewrite (write_csv_uniform _ _ r rs); cbn [data];
        [| reflexivity | rewrite Hk; nodup_strings | rewrite Hk; exact Hu].
      destruct (save_failure (OpenCritic.makedirs E) (OpenCritic.open_w E) (r :: rs))
        as [e|]; cbn; rewrite ?app_nil_r.
      * destruct (is_RequestException e); cbn; rewrite <- ?app_assoc; reflexivity.
      * rewrite <- ?app_assoc. reflexivity.
  - reflexivity.
  - cbn. destruct (is_RequestException e); reflexivity.
Qed.

End OpenCriticRun.

Lemma opencritic_game_events_log E games :
  log_of (flat_map (opencritic_game_events E) games) = map (game_log E) games.
Proof.
  induction games as [|ig games IH]; [reflexivity |].
  cbn [flat_map map]. unfold opencritic_game_events at 1.
  destruct (has_id (snd ig)); cbn [app log_of]; rewrite IH;
    destruct (game_log E ig); reflexivity.
Qed.

Lemma opencritic_records_length fromisoformat E games :
  List.length (opencritic_records fromisoformat E games) +
  List.length (filter (fun ig => match game_failure E ig with
                                 | Some _ => true
                                 | None => false
                                 end) games)
  = List.length games.
Proof.
  induction games as [|ig games IH]; [reflexivity |].
  unfold opencritic_records in *. cbn [flat_map filter].
  rewrite length_app.
  assert (H : List.length (processed fromisoformat E ig) +
              (if match game_failure E ig with
                  | Some _ => true
                  | None => false
                  end then 1 else 0) = 1).
  { unfold processed, game_failure.
    destruct (has_id (snd ig));
      [destruct (OpenCritic.details_response E (fst ig)) as [[details|]|e] |];
      reflexivity. }
  destruct (match game_failure E ig with
            | Some _ => true
            | None => false
            end); cbn [List.length]; lia.
Qed.

Lemma game_events_no_write_oc E games :
  count is_write (flat_map (opencritic_game_events E) games) = 0.
Proof.
  induction games as [|ig igs IH]; [reflexivity |].
  cbn [flat_map]. rewrite count_app, IH.
  unfold opencritic_game_events.
  destruct (has_id (snd ig)); reflexivity.
Qed.

Lemma opencritic_listing_of_no_write E n games :
  count is_write (opencritic_listing_of E n games) = 0.
Proof.
  unfold opencritic_listing_of. rewrite !count_cons. cbn [is_write plus].
  apply game_events_no_write_oc.
Qed.

Lemma opencritic_listing_no_write E games :
  count is_write (opencritic_listing E games) = 0.
Proof. apply opencritic_listing_of_no_write. Qed.

Lemma opencritic_listing_objects E games :
  opencritic_listing_of E (List.length (map OpenCritic.JObject games))
    (leading_objects (map OpenCritic.JObject games)) = opencritic_listing E games.
Proof.
  unfold opencritic_listing. rewrite leading_objects_map, length_map. reflexivity.
Qed.

(** A run whose list request answered objects only. *)
Lemma opencritic_run_objects fromisoformat E games :
  OpenCritic.games_response E = Ok (OpenCritic.Entries (map OpenCritic.JObject games)) ->
  OpenCritic.scrape_opencritic_scores fromisoformat E frame0 =
    let d := opencritic_records fromisoformat E (OpenCritic.indexed games) in
    let fr := {| data := d; table := None |} in
    match d with
    | [] => (Returned, fr, opencritic_listing E games ++ [Log WARNING MsgNoGameData])
    | _ :: _ =>
        (Normal tt, fr,
         opencritic_listing E games ++
         save_events (OpenCritic.makedirs E) (OpenCritic.open_w E) d ++
         [match save_failure (OpenCritic.makedirs E) (OpenCritic.open_w E) d with
          | Some e => opencritic_error e
          | None => Log INFO MsgSaved
          end])
    end.
Proof.
  intros Hg. rewrite opencritic_run, Hg. cbv zeta.
  rewrite all_objects_map, opencritic_listing_objects, leading_objects_map.
  reflexivity.
Qed.

(** X1. No exception escapes [scrape_opencritic_scores].  When the list
    request raises, the run consists of that one request and one ERROR
    line ("Error making request" for a [RequestException], "An error
    occurred" otherwise).  When creating the directory or opening the
    file raises, the error is logged in the same way as the last event of
    the run and the destination is left as it was.  The same holds for
    the other exceptions of the run: an answer of the list request that
    has no length ([TypeError]), an entry of the list that is not an
    object ([AttributeError], from the handler of the loop), and a write
    or the closing of the file that raises. *)
Theorem opencritic_errors_are_logged_not_raised :
  forall (fromisoformat : string -> call_result datetime)
         (E : OpenCritic.environment),
    let r := run (OpenCritic.scrape_opencritic_scores fromisoformat E) in
    fst r = None /\
    (forall e,
        OpenCritic.games_response E = Raises e ->
        snd r =
          [Log INFO MsgScraping;
           Choose (random_choice (OpenCritic.choice_draw E 0) user_agents);
           Call (OpRequest "https://api.opencritic.com/api/game") (Some e);
           Log ERROR (if is_RequestException e then MsgErrorMakingRequest e
                      else MsgAnErrorOccurred e)]) /\
    (forall games e failed,
        OpenCritic.games_response E =
          Ok (OpenCritic.Entries (map OpenCritic.JObject games)) ->
        opencritic_records fromisoformat E (OpenCritic.indexed games) <> [] ->
        (OpenCritic.makedirs E = Raises e /\ failed = [Call OpMakedirs (Some e)] \/
         OpenCritic.makedirs E = Ok tt /\ OpenCritic.open_w E = Raises e /\
         failed = [Call OpMakedirs None; Call OpOpen (Some e)]) ->
        snd r =
          opencritic_listing E games ++ failed ++
          [Log ERROR (if is_RequestException e then MsgErrorMakingRequest e
                      else MsgAnErrorOccurred e)] /\
        forall f, fs_after f (snd r) = f) /\
    (OpenCritic.games_response E = Ok OpenCritic.NoLength ->
     snd r =
       [Log INFO MsgScraping;
        Choose (random_choice (OpenCritic.choice_draw E 0) user_agents);
        Call (OpRequest "https://api.opencritic.com/api/game") None;
        Log ERROR (MsgAnErrorOccurred TypeError)]) /\
    (forall entries,
        OpenCritic.games_response E = Ok (OpenCritic.Entries entries) ->
        all_objects entries = false ->
        snd r =
          opencritic_listing_of E (List.length entries) (leading_objects entries) ++
          [Log ERROR (MsgAnErrorOccurred AttributeError)] /\
        forall f, fs_after f (snd r) = f) /\
    (forall games e,
        OpenCritic.games_response E =
          Ok (OpenCritic.Entries (map OpenCritic.JObject games)) ->
        opencritic_records fromisoformat E (OpenCritic.indexed games) <> [] ->
        save_failure (OpenCritic.makedirs E) (OpenCritic.open_w E)
          (opencritic_records fromisoformat E (OpenCritic.indexed games)) = Some e ->
        snd r =
          opencritic_listing E games ++
          save_events (OpenCritic.makedirs E) (OpenCritic.open_w E)
            (opencritic_records fromisoformat E (OpenCritic.indexed games)) ++
          [Log ERROR (if is_RequestException e then MsgErrorMakingRequest e
                      else MsgAnErrorOccurred e)]).
Proof.
  intros fromisoformat E r. subst r. unfold run.
  split; [| split; [| split; [| split; [| split]]]].
  - rewrite opencritic_run.
    destruct (OpenCritic.games_response E) as [[entries|]|e]; try reflexivity.
    cbv zeta. destruct (all_objects entries); [| reflexivity].
    destruct (opencritic_records fromisoformat E
                (OpenCritic.indexed (leading_objects entries))); reflexivity.
  - intros e He. rewrite opencritic_run, He. reflexivity.
  - intros games e failed Hg Hd Hfail.
    rewrite (opencritic_run_objects fromisoformat E games Hg). cbv zeta.
    destruct (opencritic_records fromisoformat E (OpenCritic.indexed games))
      as [|first rest]; [contradiction |].
    pose proof (opencritic_listing_no_write E games) as Hl.
    destruct Hfail as [[Hm ->] | [Hm [Ho ->]]]; rewrite Hm; [| rewrite Ho];
      cbn [snd save_events save_failure raised app];
      (split; [reflexivity |]); intros f;
      apply fs_after_no_write; rewrite count_app, Hl; reflexivity.
  - intros Hg. rewrite opencritic_run, Hg. reflexivity.
  - intros entries Hg Hall. rewrite opencritic_run, Hg. cbv zeta. rewrite Hall.
    cbn [snd]. split; [reflexivity |].
    intros f. apply fs_after_no_write.
    rewrite count_app, opencritic_listing_of_no_write. reflexivity.
  - intros games e Hg Hd Hfail.
    rewrite (opencritic_run_objects fromisoformat E games Hg). cbv zeta.
    destruct (opencritic_records fromisoformat E (OpenCritic.indexed games))
      as [|first rest]; [contradiction |].
    rewrite Hfail. reflexivity.
Qed.

(** The API whose list request fails: one request, one error line. *)
Lemma opencritic_errors_witness :
  run (OpenCritic.scrape_opencritic_scores sample_fromisoformat broken_api) =
    (None,
     [Log INFO MsgScraping;
      Choose (random_choice 0 user_agents);
      Call (OpRequest "https://api.opencritic.com/api/game") (Some RequestException);
      Log ERROR (MsgErrorMakingRequest RequestException)]).
Proof.
  destruct (opencritic_errors_are_logged_not_raised sample_fromisoformat broken_api)
    as [H1 [H2 _]].
  specialize (H2 RequestException eq_refl).
  rewrite (surjective_pairing
             (run (OpenCritic.scrape_opencritic_scores sample_fromisoformat broken_api))).
  rewrite H1, H2. reflexivity.
Defined.

(** X2. In the loop over the entries of the list, the entries that are
    objects are processed in order up to the first entry that is not an
    object.  Among them a game without an [id], or whose detail request
    raises or answers something that is not an object, is skipped: it
    contributes no record and exactly one WARNING line that names it (or
    [unknown]) and the exception, and the games before and after it are
    processed as if it were absent.  Each game reached gives one log
    line, and records plus skipped games add up to the games reached.
    The loop runs to its end when every entry is an object.  An entry
    that is not an object ends the loop with [AttributeError], raised by
    [game.get] in the handler: it gives no event, and the entries after
    it are not processed. *)
Theorem opencritic_failed_game_is_skipped :
  forall (fromisoformat : string -> call_result datetime)
         (E : OpenCritic.environment)
         (entries : list OpenCritic.json) (fr : frame),
    let games := OpenCritic.indexed (leading_objects entries) in
    for_each (OpenCritic.indexed entries)
      (fun ig => OpenCritic.process_game fromisoformat E (fst ig) (snd ig)) fr =
      (if all_objects entries then Normal tt else Raised AttributeError,
       {| data := data fr ++ opencritic_records fromisoformat E games;
          table := table fr |},
       flat_map (opencritic_game_events E) games) /\
    log_of (flat_map (opencritic_game_events E) games) = map (game_log E) games /\
    List.length (opencritic_records fromisoformat E games) +
    List.length (filter (fun ig => match game_failure E ig with
                                   | Some _ => true
                                   | None => false
                                   end) games)
    = List.length games /\
    (forall before ig after e,
        games = before ++ ig :: after ->
        game_failure E ig = Some e ->
        opencritic_records fromisoformat E games =
          opencritic_records fromisoformat E (before ++ after) /\
        game_log E ig =
          (WARNING,
           MsgErrorProcessingGameNamed
             (OpenCritic.get_default "name" (snd ig) (VStr "unknown")) e)) /\
    (all_objects entries = true ->
     entries = map OpenCritic.JObject (leading_objects entries)) /\
    (forall before after,
        entries = map OpenCritic.JObject before ++ OpenCritic.JOther :: after ->
        all_objects entries = false /\ leading_objects entries = before) /\
    (forall i fr',
        OpenCritic.process_game fromisoformat E i OpenCritic.JOther fr' =
          (Raised AttributeError, fr', [])).
Proof.
  intros fromisoformat E entries fr games. subst games.
  split; [apply opencritic_loop |].
  split; [apply opencritic_game_events_log |].
  split; [apply opencritic_records_length |].
  split; [| split; [apply all_objects_leading | split]].
  - intros before ig after e -> Hfail. split.
    + unfold opencritic_records. rewrite !flat_map_app. cbn [flat_map].
      replace (processed fromisoformat E ig) with (@nil record); [reflexivity |].
      unfold processed, game_failure in *.
      destruct (has_id (snd ig)); [| reflexivity].
      destruct (OpenCritic.details_response E (fst ig)) as [[details|]|e'];
        [discriminate | reflexivity | reflexivity].
    + unfold game_log, game_failure, skipped_game in *.
      destruct (has_id (snd ig)).
      * destruct (OpenCritic.details_response E (fst ig)) as [[details|]|e'];
          [discriminate | |]; injection Hfail as <-; reflexivity.
      * injection Hfail as <-. reflexivity.
  - intros before after ->. apply leading_objects_stop.
  - intros i fr'. reflexivity.
Qed.

(** Three listed games of which the second has no [id] and the third a
    failing detail request: one record, two warnings.  And a list whose
    second entry is not an object: the loop stops there. *)
Lemma opencritic_failed_game_witness :
  (opencritic_records sample_fromisoformat patchy_api (OpenCritic.indexed patchy_games) =
     opencritic_records sample_fromisoformat patchy_api
       ([(0, [("id", VNum 1548); ("name", VStr "Zelda")])] ++
        [(2, [("id", VNum 9)])]) /\
   game_log patchy_api (1, [("name", VStr "Nameless")]) =
     (WARNING, MsgErrorProcessingGameNamed (VStr "Nameless") KeyError)) /\
  (all_objects
     [OpenCritic.JObject [("id", VNum 1548); ("name", VStr "Zelda")];
      OpenCritic.JOther;
      OpenCritic.JObject [("id", VNum 7); ("name", VStr "Someday")]] = false /\
   leading_objects
     [OpenCritic.JObject [("id", VNum 1548); ("name", VStr "Zelda")];
      OpenCritic.JOther;
      OpenCritic.JObject [("id", VNum 7); ("name", VStr "Someday")]] =
     [[("id", VNum 1548); ("name", VStr "Zelda")]]).
Proof.
  split.
  - destruct (opencritic_failed_game_is_skipped sample_fromisoformat patchy_api
                (map OpenCritic.JObject patchy_games) frame0) as [_ [_ [_ [H _]]]].
    apply (H [(0, [("id", VNum 1548); ("name", VStr "Zelda")])]
             (1, [("name", VStr "Nameless")])
             [(2, [("id", VNum 9)])] KeyError); reflexivity.
  - destruct (opencritic_failed_game_is_skipped sample_fromisoformat stray_api
                [OpenCritic.JObject [("id", VNum 1548); ("name", VStr "Zelda")];
                 OpenCritic.JOther;
                 OpenCritic.JObject [("id", VNum 7); ("name", VStr "Someday")]]
                frame0) as [_ [_ [_ [_ [_ [H _]]]]]].
    apply (H [[("id", VNum 1548); ("name", VStr "Zelda")]]
             [OpenCritic.JObject [("id", VNum 7); ("name", VStr "Someday")]]).
    reflexivity.
Defined.

(** ** Requests, identities and delays of a run *)

Lemma no_request_after_choice c t :
  count is_request t = 0 -> each_request_after_choice c t = true.
Proof.
  revert c. induction t as [|e t IH]; intros c H; [reflexivity |].
  rewrite count_cons in H.
  destruct e as [ua|op err|d|l m|cells|a]; cbn [each_request_after_choice is_request] in *;
    try (apply IH; lia).
  destruct op; cbn in H; try (apply IH; lia); discriminate.
Qed.

Lemma no_request_delays p t : count is_request t = 0 -> request_delays p t = [].
Proof.
  revert p. induction t as [|e t IH]; intros p H; [reflexivity |].
  rewrite count_cons in H.
  destruct e as [ua|op err|d|l m|cells|a]; cbn [request_delays is_request] in *;
    try (apply IH; lia).
  destruct op; cbn in H; try (apply IH; lia); discriminate.
Qed.

(** The games of the list that have an [id], with their positions. *)
Lemma indexed_has_id_length (games : list OpenCritic.json_object) :
  List.length (filter (fun ig : nat * OpenCritic.json_object => has_id (snd ig))
                 (OpenCritic.indexed games))
  = List.length (filter has_id games).
Proof.
  unfold OpenCritic.indexed. generalize 0.
  induction games as [|game games IH]; intros n; [reflexivity |].
  cbn [List.length seq combine filter snd].
  destruct (has_id game); cbn [List.length]; rewrite IH; reflexivity.
Qed.

Section OpenCriticTrace.

Variable E : OpenCritic.environment.

Lemma game_events_requests games :
  count is_request (flat_map (opencritic_game_events E) games) =
  List.length (filter (fun ig : nat * OpenCritic.json_object => has_id (snd ig)) games).
Proof.
  induction games as [|ig games IH]; [reflexivity |].
  cbn [flat_map filter]. rewrite count_app, IH.
  unfold opencritic_game_events. destruct (has_id (snd ig)); reflexivity.
Qed.

Lemma game_events_choices games :
  count is_choice (flat_map (opencritic_game_events E) games) =
  List.length (filter (fun ig : nat * OpenCritic.json_object => has_id (snd ig)) games).
Proof.
  induction games as [|ig games IH]; [reflexivity |].
  cbn [flat_map filter]. rewrite count_app, IH.
  unfold opencritic_game_events. destruct (has_id (snd ig)); reflexivity.
Qed.

Lemma game_events_sleeps games :
  count is_sleep (flat_map (opencritic_game_events E) games) =
  List.length (filter (fun ig : nat * OpenCritic.json_object => has_id (snd ig)) games).
Proof.
  induction games as [|ig games IH]; [reflexivity |].
  cbn [flat_map filter]. rewrite count_app, IH.
  unfold opencritic_game_events. destruct (has_id (snd ig)); reflexivity.
Qed.

Lemma game_events_after_choice games c t :
  each_request_after_choice c (flat_map (opencritic_game_events E) games ++ t) =
  each_request_after_choice (match games with [] => c | _ :: _ => false end) t.
Proof.
  revert c. induction games as [|ig games IH]; intros c; [reflexivity |].
  cbn [flat_map]. rewrite <- app_assoc.
  unfold opencritic_game_events at 1.
  destruct (has_id (snd ig)); cbn [app each_request_after_choice andb];
    rewrite IH; destruct games; reflexivity.
Qed.

Lemma game_events_delays games t :
  request_delays [] (flat_map (opencritic_game_events E) games ++ t) =
  map (fun ig => [game_delay E ig])
      (filter (fun ig : nat * OpenCritic.json_object => has_id (snd ig)) games)
  ++ request_delays [] t.
Proof.
  induction games as [|ig games IH]; [reflexivity |].
  cbn [flat_map filter]. rewrite <- app_assoc.
  unfold opencritic_game_events at 1.
  destruct (has_id (snd ig)); cbn [app request_delays map]; rewrite IH; reflexivity.
Qed.

Lemma game_events_pool games ua :
  In (Choose ua) (flat_map (opencritic_game_events E) games) -> In ua user_agents.
Proof.
  induction games as [|ig games IH]; [contradiction |].
  cbn [flat_map]. rewrite in_app_iff. intros [H | H]; [| exact (IH H)].
  unfold opencritic_game_events in H.
  destruct (has_id (snd ig)); cbn [In] in H.
  - destruct H as [H | [H | [H | [H | []]]]]; try discriminate.
    injection H as <-. apply random_choice_in_pool.
  - destruct H as [H | []]. discriminate.
Qed.

End OpenCriticTrace.

Lemma quiet_counts t :
  forallb quiet t = true ->
  count is_request t = 0 /\ count is_choice t = 0 /\ count is_sleep t = 0.
Proof.
  induction t as [|e t IH]; [repeat split |].
  cbn [forallb]. intros H. apply andb_prop in H as [He Ht].
  destruct (IH Ht) as [H1 [H2 H3]]. rewrite !count_cons, H1, H2, H3.
  unfold quiet in He. apply negb_true_iff in He.
  apply orb_false_elim in He as [He He3]. apply orb_false_elim in He as [He1 He2].
  rewrite He1, He2, He3. repeat split.
Qed.

Lemma quiet_no_choice t ua : forallb quiet t = true -> ~ In (Choose ua) t.
Proof.
  intros H Hin. rewrite forallb_forall in H. specialize (H _ Hin). discriminate.
Qed.

Lemma save_events_quiet m o d : forallb quiet (save_events m o d) = true.
Proof. apply forallb_save_events; reflexivity. Qed.

(** A run of the OpenCritic scraper: the list request and a log line,
    then the iterations of the games that the loop reaches, then events
    that neither request, choose nor sleep. *)
Lemma opencritic_trace_shape fromisoformat E :
  exists l m tail,
    snd (run (OpenCritic.scrape_opencritic_scores fromisoformat E)) =
      [Log INFO MsgScraping;
       Choose (random_choice (OpenCritic.choice_draw E 0) user_agents);
       Call (OpRequest "https://api.opencritic.com/api/game")
            (raised (OpenCritic.games_response E));
       Log l m] ++
      flat_map (opencritic_game_events E)
        (OpenCritic.indexed (listed_games E)) ++ tail /\
    forallb quiet tail = true.
Proof.
  rewrite run_trace. unfold trace_of, listed_games, listed_entries.
  rewrite opencritic_run.
  destruct (OpenCritic.games_response E) as [[entries|]|e].
  - exists INFO, (MsgFoundGames (List.length entries)). cbv zeta.
    unfold opencritic_listing_of.
    destruct (all_objects entries).
    + destruct (opencritic_records fromisoformat E
                  (OpenCritic.indexed (leading_objects entries))) as [|r rs].
      * exists [Log WARNING MsgNoGameData]. split; reflexivity.
      * eexists. split; [cbn [snd app]; reflexivity |].
        rewrite forallb_app, save_events_quiet.
        destruct (save_failure _ _ (r :: rs)); reflexivity.
    + exists [opencritic_error AttributeError]. split; reflexivity.
  - exists ERROR, (MsgAnErrorOccurred TypeError), []. split; reflexivity.
  - exists ERROR, (if is_RequestException e then MsgErrorMakingRequest e
                   else MsgAnErrorOccurred e), [].
    split; reflexivity.
Qed.

(** X3. Every request of the OpenCritic scraper directly follows a call
    of [get_random_user_agent] made for it: a run draws as many user
    agents as it makes requests, each from the pool of four.  The run
    makes the list request once and one detail request for each game
    with an [id] that the loop reaches, that is, each such object entry
    of the list before the first entry that is not an object (all of
    them when every entry is an object, none when the list request
    raised or answered a value without a length); a request that failed
    is never repeated. *)
Theorem opencritic_identity_drawn_for_every_request :
  forall (fromisoformat : string -> call_result datetime)
         (E : OpenCritic.environment),
    let t := snd (run (OpenCritic.scrape_opencritic_scores fromisoformat E)) in
    each_request_after_choice false t = true /\
    count is_choice t = count is_request t /\
    (forall ua, In (Choose ua) t -> In ua user_agents) /\
    List.length user_agents = 4 /\
    count is_request t = 1 + List.length (filter has_id (listed_games E)) /\
    listed_games E = leading_objects (listed_entries E) /\
    (forall games,
        OpenCritic.games_response E =
          Ok (OpenCritic.Entries (map OpenCritic.JObject games)) ->
        listed_games E = games) /\
    (forall before after,
        OpenCritic.games_response E =
          Ok (OpenCritic.Entries
                (map OpenCritic.JObject before ++ OpenCritic.JOther :: after)) ->
        listed_games E = before) /\
    (OpenCritic.games_response E = Ok OpenCritic.NoLength -> listed_games E = []) /\
    (forall e, OpenCritic.games_response E = Raises e -> listed_games E = []).
Proof.
  intros fromisoformat E t. subst t.
  destruct (opencritic_trace_shape fromisoformat E) as [l [m [tail [-> Hq]]]].
  destruct (quiet_counts tail Hq) as [Hr [Hc Hs]].
  split; [| split; [| split; [| split; [| split; [| split]]]]].
  - cbn [app each_request_after_choice andb].
    rewrite game_events_after_choice.
    apply no_request_after_choice, Hr.
  - rewrite !count_app, game_events_requests, game_events_choices, Hr, Hc.
    reflexivity.
  - intros ua. rewrite !in_app_iff. intros [H | [H | H]].
    + cbn [In] in H. destruct H as [H | [H | [H | [H | []]]]]; try discriminate.
      injection H as <-. apply random_choice_in_pool.
    + exact (game_events_pool E _ ua H).
    + elim (quiet_no_choice tail ua Hq H).
  - reflexivity.
  - rewrite !count_app, game_events_requests, Hr, indexed_has_id_length.
    cbn. lia.
  - reflexivity.
  - unfold listed_games, listed_entries.
    split; [| split; [| split]].
    + intros games ->. apply leading_objects_map.
    + intros before after ->. apply leading_objects_stop.
    + intros ->. reflexivity.
    + intros e ->. reflexivity.
Qed.

(** The list whose second entry is not an object: the loop reaches the
    first game only, and the run makes two requests. *)
Lemma opencritic_identity_witness :
  listed_games stray_api = [[("id", VNum 1548); ("name", VStr "Zelda")]] /\
  count is_request
    (snd (run (OpenCritic.scrape_opencritic_scores sample_fromisoformat stray_api))) = 2.
Proof.
  destruct (opencritic_identity_drawn_for_every_request sample_fromisoformat stray_api)
    as [_ [_ [_ [_ [Hc [_ [_ [H _]]]]]]]].
  split.
  - apply (H [[("id", VNum 1548); ("name", VStr "Zelda")]]
             [OpenCritic.JObject [("id", VNum 7); ("name", VStr "Someday")]]).
    reflexivity.
  - exact Hc.
Defined.

(** X4. Before the list request the OpenCritic scraper does not sleep;
    before each detail request it sleeps exactly once, between 0.5 and
    1.5 seconds; it sleeps at no other time. *)
Theorem opencritic_requests_are_spaced :
  forall (fromisoformat : string -> call_result datetime)
         (E : OpenCritic.environment),
    let t := snd (run (OpenCritic.scrape_opencritic_scores fromisoformat E)) in
    exists ds : list Q,
      request_delays [] t = [] :: map (fun d => [d]) ds /\
      Forall (within 0.5 1.5) ds /\
      count is_sleep t = List.length ds /\
      count is_request t = 1 + List.length ds.
Proof.
  intros fromisoformat E t. subst t.
  destruct (opencritic_trace_shape fromisoformat E) as [l [m [tail [-> Hq]]]].
  destruct (quiet_counts tail Hq) as [Hr [Hc Hs]].
  exists (map (game_delay E)
            (filter (fun ig : nat * OpenCritic.json_object => has_id (snd ig))
                    (OpenCritic.indexed (listed_games E)))).
  split; [| split; [| split]].
  - cbn [app request_delays]. rewrite game_events_delays.
    rewrite (no_request_delays [] tail Hr), app_nil_r, map_map. reflexivity.
  - apply Forall_map, Forall_forall. intros ig _. apply uniform_half_second.
  - rewrite !count_app, game_events_sleeps, Hs, length_map. cbn. lia.
  - rewrite !count_app, game_events_requests, Hr, length_map. cbn. lia.
Qed.

Lemma opencritic_leaves fromisoformat E :
  leaves (opencritic_record_set fromisoformat E) (OpenCritic.open_w E)
    (trace_of (OpenCritic.scrape_opencritic_scores fromisoformat E) frame0).
Proof.
  unfold trace_of. rewrite opencritic_run.
  destruct (OpenCritic.games_response E) as [[entries|]|e] eqn:Hg;
    try (apply leaves_no_write; reflexivity).
  cbv zeta.
  destruct (all_objects entries) eqn:Hall.
  - destruct (opencritic_records fromisoformat E
                (OpenCritic.indexed (leading_objects entries)))
      as [|first rest] eqn:Hd; cbn [snd].
    + apply leaves_no_write.
      rewrite count_app, opencritic_listing_of_no_write. reflexivity.
    + apply leaves_before; [apply opencritic_listing_of_no_write |].
      apply leaves_after.
      * apply leaves_save; [| discriminate].
        exists (leading_objects entries).
        split; [| symmetry; exact Hd].
        rewrite <- (all_objects_leading entries Hall). exact Hg.
      * destruct (save_failure _ _ (first :: rest)); reflexivity.
  - apply leaves_no_write. cbn [snd].
    rewrite count_app, opencritic_listing_of_no_write. reflexivity.
Qed.


(** X6. A game whose detail request succeeds is always kept, whatever its
    [firstReleaseDate] member: a missing member gives the empty string, a
    null, false, zero or empty one is stored as it is, and a value that
    is not a string ([true], a non-zero number) gives the empty string,
    as an unparseable string does.  Missing [name] and [topCriticScore]
    members give [''] and [0]; members that are present are stored as
    they are, even when null. *)
Theorem opencritic_release_date_edge_values :
  forall (fromisoformat : string -> call_result datetime)
         (E : OpenCritic.environment) (i : nat)
         (game details : OpenCritic.json_object) (id : value) (fr : frame),
    dict_get "id" game = Some id ->
    OpenCritic.details_response E i = Ok (OpenCritic.JObject details) ->
    let step := OpenCritic.process_game fromisoformat E i (OpenCritic.JObject game) in
    outcome_of step fr = Normal tt /\
    data (frame_of step fr) =
      data fr ++
      [[("Game", match dict_get "name" details with
                 | Some v => v
                 | None => VStr ""
                 end);
        ("OpenCritic Score", match dict_get "topCriticScore" details with
                             | Some v => v
                             | None => VNum 0
                             end);
        ("Release Date",
         match dict_get "firstReleaseDate" details with
         | None => VStr ""
         | Some VNone => VNone
         | Some (VBool b) => if b then VStr "" else VBool false
         | Some (VNum q) => if Qeq_bool q 0 then VNum q else VStr ""
         | Some (VStr s) =>
             if String.eqb s "" then VStr ""
             else match fromisoformat (replace_Z s) with
                  | Ok dt => VStr (strftime_Ymd dt)
                  | Raises _ => VStr ""
                  end
         end)]].
Proof.
  intros fromisoformat E i game details id fr Hid Hdetails step. subst step.
  unfold outcome_of, frame_of.
  rewrite (opencritic_process_game fromisoformat E i game fr id details Hid Hdetails).
  cbn [fst snd data]. split; [reflexivity |].
  unfold OpenCritic.mk_record, OpenCritic.get_default, OpenCritic.convert_release_date.
  destruct (dict_get "firstReleaseDate" details) as [[|b|q|s]|]; cbn [truthy negb];
    try reflexivity.
  - destruct b; reflexivity.
  - destruct (Qeq_bool q 0); reflexivity.
  - destruct (String.eqb_spec s ""); [subst s |]; reflexivity.
Qed.

(** A game whose release date is null: it is kept, with [None] as its
    release date. *)
Lemma opencritic_release_date_witness :
  data (frame_of (OpenCritic.process_game sample_fromisoformat patchy_api 0
                    (OpenCritic.JObject [("id", VNum 1548); ("name", VStr "Zelda")]))
                 frame0) =
    [[("Game", VStr "Zelda"); ("OpenCritic Score", VNum 97); ("Release Date", VNone)]].
Proof.
  destruct (opencritic_release_date_edge_values sample_fromisoformat patchy_api 0
              [("id", VNum 1548); ("name", VStr "Zelda")]
              [("name", VStr "Zelda"); ("topCriticScore", VNum 97);
               ("firstReleaseDate", VNone)]
              (VNum 1548) frame0 eq_refl eq_refl) as [_ H].
  exact H.
Defined.


(** * The console scraper *)



Lemma skipping_lines_log rows :
  log_of (map (fun cols => Log WARNING (MsgSkippingRow cols)) (filter malformed rows))
  = skipped_log rows.
Proof.
  unfold skipped_log.
  induction (filter malformed rows) as [|cols l IH]; [reflexivity |].
  cbn [map log_of]. rewrite IH. reflexivity.
Qed.





(** X8. When the page has no [chart] table the console scraper logs an
    error and returns.  Otherwise the first row of the table is dropped
    as the header without being examined: it gives neither a record nor a
    warning, whatever it holds; the records and the warnings are those of
    the rows after it.  So an empty table, a table with one row, and a
    table whose only Nintendo row is the first one all end with the
    warning that no console data was found, and no file. *)
Theorem console_header_row_is_dropped :
  forall C : VGChartzConsoles.environment,
    VGChartzConsoles.response C = Ok tt ->
    let r := run (VGChartzConsoles.scrape_vgchartz_console_sales C) in
    let fetched :=
      [Log INFO MsgScraping;
       Call (OpRequest "https://www.vgchartz.com/analysis/platform_totals/") None] in
    (VGChartzConsoles.sales_table C = None ->
     r = (None, fetched ++ [Log ERROR MsgCouldNotFindSalesTable])) /\
    (forall header rows,
        VGChartzConsoles.sales_table C = Some (header :: rows) ->
        data (frame_of (VGChartzConsoles.scrape_vgchartz_console_sales C) frame0)
        = consoles_records rows /\
        exists tail,
          snd r = fetched ++
                  map (fun cols => Log WARNING (MsgSkippingRow cols))
                      (filter malformed rows) ++ tail /\
          forallb (fun e => match e with
                            | Log WARNING (MsgSkippingRow _) => false
                            | _ => true
                            end) tail = true) /\
    (forall trs,
        VGChartzConsoles.sales_table C = Some trs ->
        consoles_records (tl trs) = [] ->
        r = (None,
             fetched ++
             map (fun cols => Log WARNING (MsgSkippingRow cols))
                 (filter malformed (tl trs)) ++
             [Log WARNING MsgNoNintendoConsoleData])).
Proof.
  intros C Hresp r fetched. subst r fetched.
  unfold run, frame_of. rewrite consoles_run, Hresp.
  split; [| split].
  - intros ->. reflexivity.
  - intros header rows ->. cbn [tl]. cbv zeta.
    destruct (consoles_records rows) as [|first rest] eqn:Hd.
    + split; [reflexivity |]. eexists.
      split; [cbn [snd app]; reflexivity | reflexivity].
    + destruct (save_failure (VGChartzConsoles.makedirs C)
                             (VGChartzConsoles.open_w C) (first :: rest));
        (split; [reflexivity |]); eexists;
        (split; [cbn [snd app]; reflexivity |]);
        rewrite ?forallb_app, forallb_save_events by reflexivity; reflexivity.
  - intros trs -> Hd. cbv zeta. rewrite Hd. reflexivity.
Qed.

(** The page without a table, and the page whose only Nintendo row comes
    first. *)
Lemma console_header_row_witness :
  run (VGChartzConsoles.scrape_vgchartz_console_sales tableless_page) =
    (None,
     [Log INFO MsgScraping;
      Call (OpRequest "https://www.vgchartz.com/analysis/platform_totals/") None] ++
     [Log ERROR MsgCouldNotFindSalesTable]) /\
  run (VGChartzConsoles.scrape_vgchartz_console_sales headless_page) =
    (None,
     [Log INFO MsgScraping;
      Call (OpRequest "https://www.vgchartz.com/analysis/platform_totals/") None] ++
     map (fun cols => Log WARNING (MsgSkippingRow cols))
         (filter malformed (tl [switch_row; other_console_row; ["x"]])) ++
     [Log WARNING MsgNoNintendoConsoleData]).
Proof.
  split.
  - destruct (console_header_row_is_dropped tableless_page eq_refl) as [H _].
    apply H. reflexivity.
  - destruct (console_header_row_is_dropped headless_page eq_refl) as [_ [_ H]].
    apply (H [switch_row; other_console_row; ["x"]]); reflexivity.
Defined.

(** * The browser scrapers *)

(** X9. [setup_driver] is called outside the [try] block: when the
    driver binary exists but starting the browser raises, the exception
    escapes the scraper.  Nothing is logged about it, no navigation is
    attempted and [quit] is not called. *)
Theorem browser_launch_failure_escapes :
  forall (E : environment) (e : exn),
    chromedriver_exists E = true ->
    chrome E = Raises e ->
    let t := [Log INFO MsgScraping; Choose (launch_agent E);
              Call (OpChrome (launch_agent E)) (Some e)] in
    run (Metacritic.scrape_metacritic_scores E) = (Some e, t) /\
    run (VGChartzGames.scrape_vgchartz_game_sales E) = (Some e, t) /\
    count is_error t = 0 /\ navigations t = 0 /\ count is_quit t = 0.
Proof.
  intros E e Hd Hc t. subst t.
  unfold run. rewrite metacritic_run, games_run.
  unfold scraper_result. rewrite Hd, Hc. repeat split.
Qed.

(** The world whose browser cannot be started. *)
Lemma browser_launch_failure_witness :
  run (Metacritic.scrape_metacritic_scores no_browser_world) =
    (Some WebDriverException,
     [Log INFO MsgScraping; Choose (launch_agent no_browser_world);
      Call (OpChrome (launch_agent no_browser_world)) (Some WebDriverException)]).
Proof.
  destruct (browser_launch_failure_escapes no_browser_world WebDriverException
              eq_refl eq_refl) as [H _].
  exact H.
Defined.

Lemma closing_events_counts E :
  count is_sleep (closing_events E) = 0 /\ count is_quit (closing_events E) = 1.
Proof. unfold closing_events. destruct (quit E); split; reflexivity. Qed.

Lemma configuration_commands_counts E :
  navigations (configuration_commands E) = 0 /\
  count is_sleep (configuration_commands E) = 0 /\
  count is_write (configuration_commands E) = 0 /\
  count is_quit (configuration_commands E) = 0 /\
  forallb is_cdp (configuration_commands E) = true.
Proof.
  unfold configuration_commands.
  destruct (cdp E 0); [destruct (cdp E 1) |]; repeat split.
Qed.

(** A session whose configuration fails. *)
Lemma configuration_failure_result E r e :
  chromedriver_exists E = true -> chrome E = Ok tt ->
  configuration_failure E = Some e ->
  scraper_result E frame0 r =
    (Normal tt, frame0,
     [Log INFO MsgScraping; Choose (launch_agent E);
      Call (OpChrome (launch_agent E)) None;
      Choose (user_agent (session_identity E))] ++
     configuration_commands E ++
     Log ERROR (MsgAnErrorOccurred e) :: closing_events E).
Proof.
  intros Hd Hc Hf.
  unfold scraper_result, configured, configuration_failure, configuration_commands in *.
  rewrite Hd, Hc.
  destruct (cdp E 0) as [[]|e0];
    [destruct (cdp E 1) as [[]|e1];
     [destruct (cdp E 2) as [[]|e2]; [discriminate |] |] |];
    injection Hf as ->; reflexivity.
Qed.

(** X10. When one of the three DevTools commands that configure the
    session raises, the commands after it and the whole retry loop are
    skipped: the run makes no navigation attempt, sleeps at no time and
    writes nothing; the exception is logged as an error, the session is
    closed once and nothing escapes. *)
Theorem session_setup_failure_prevents_navigation :
  forall (E : environment) (e : exn),
    chromedriver_exists E = true ->
    chrome E = Ok tt ->
    configuration_failure E = Some e ->
    let t := [Log INFO MsgScraping; Choose (launch_agent E);
              Call (OpChrome (launch_agent E)) None;
              Choose (user_agent (session_identity E))] ++
             configuration_commands E ++
             Log ERROR (MsgAnErrorOccurred e) :: closing_events E in
    run (Metacritic.scrape_metacritic_scores E) = (None, t) /\
    run (VGChartzGames.scrape_vgchartz_game_sales E) = (None, t) /\
    forallb is_cdp (configuration_commands E) = true /\
    navigations t = 0 /\ count is_sleep t = 0 /\ count is_write t = 0 /\
    count is_quit t = 1.
Proof.
  intros E e Hd Hc Hf t. subst t.
  unfold run. rewrite metacritic_run, games_run.
  rewrite !(configuration_failure_result E _ e Hd Hc Hf).
  destruct (configuration_commands_counts E) as [H1 [H2 [H3 [H4 H0]]]].
  destruct (closing_events_counts E) as [H5 H6].
  pose proof (closing_no_navigation E) as H7.
  pose proof (count_closing_writes E) as H8.
  unfold navigations in *.
  repeat split; try exact H0;
    rewrite !count_app, !count_cons, ?H1, ?H2, ?H3, ?H4, ?H5, ?H6, ?H7, ?H8;
    reflexivity.
Qed.

(** The world whose second DevTools command is refused. *)
Lemma session_setup_failure_witness :
  run (Metacritic.scrape_metacritic_scores no_devtools_world) =
    (None,
     [Log INFO MsgScraping; Choose (launch_agent no_devtools_world);
      Call (OpChrome (launch_agent no_devtools_world)) None;
      Choose (user_agent (session_identity no_devtools_world))] ++
     configuration_commands no_devtools_world ++
     Log ERROR (MsgAnErrorOccurred WebDriverException) ::
     closing_events no_devtools_world).
Proof.
  destruct (session_setup_failure_prevents_navigation no_devtools_world
              WebDriverException eq_refl eq_refl eq_refl) as [H _].
  exact H.
Defined.

Lemma settled_no_choices t : forallb settled t = true -> filter is_choice t = [].
Proof.
  induction t as [|e t IH]; [reflexivity |].
  cbn [forallb filter]. intros H. apply andb_prop in H as [He Ht].
  rewrite (IH Ht).
  unfold settled, keeps_identity in He.
  destruct (is_choice e); [discriminate | reflexivity].
Qed.

Lemma scraper_result_choices E fr r :
  forallb settled (snd r) = true ->
  filter is_choice (snd (scraper_result E fr r)) = identity_choices E.
Proof.
  intros Hs. apply settled_no_choices in Hs.
  destruct r as [[c f] t]. cbn [snd] in Hs.
  unfold scraper_result, finally_clause, except_clause, configured, closing_events,
    identity_choices, started.
  destruct (chromedriver_exists E); [| reflexivity].
  destruct (chrome E) as [[]|e0]; [| reflexivity].
  destruct (cdp E 0) as [[]|e1];
    [destruct (cdp E 1) as [[]|e2]; [destruct (cdp E 2) as [[]|e3] |] |];
    destruct (quit E) as [[]|eq]; destruct c;
    cbn [prepend app raised snd fst andb];
    repeat (rewrite ?filter_app, ?Hs; cbn [filter is_choice app]);
    reflexivity.
Qed.

(** X11. A browser scraper calls [get_random_user_agent] once for the
    launch options, before it looks for the driver binary, and, when the
    browser has started, once more for the user-agent override; it never
    calls it again.  Both user agents are drawn from the pool of four,
    independently of each other. *)
Theorem identity_drawn_at_launch_and_override_only :
  forall E : environment,
    let tM := snd (run (Metacritic.scrape_metacritic_scores E)) in
    let tG := snd (run (VGChartzGames.scrape_vgchartz_game_sales E)) in
    filter is_choice tM = identity_choices E /\
    filter is_choice tG = identity_choices E /\
    launch_agent E = random_choice (choice_draw E 0) user_agents /\
    user_agent (session_identity E) = random_choice (choice_draw E 1) user_agents /\
    In (launch_agent E) user_agents /\
    In (user_agent (session_identity E)) user_agents /\
    1 <= count is_choice tM <= 2.
Proof.
  intros E tM tG. subst tM tG.
  rewrite metacritic_trace, games_trace_of_run.
  rewrite (scraper_result_choices E frame0 _ (metacritic_block_settled E)).
  rewrite (scraper_result_choices E frame0 _ (games_block_settled E)).
  repeat split; try apply random_choice_in_pool.
  - unfold count.
    rewrite (scraper_result_choices E frame0 _ (metacritic_block_settled E)).
    unfold identity_choices. destruct (started E); cbn; lia.
  - unfold count.
    rewrite (scraper_result_choices E frame0 _ (metacritic_block_settled E)).
    unfold identity_choices. destruct (started E); cbn; lia.
Qed.

(** ** The page without a table *)

Lemma substring_length_le n s : String.length (substring 0 n s) <= n.
Proof.
  revert s. induction n as [|n IH]; intros s.
  - destruct s; cbn; lia.
  - destruct s as [|c s]; cbn [substring String.length]; [lia |].
    specialize (IH s). lia.
Qed.

(** X12. In the game-sales scraper a timeout of the wait for the [chart]
    table is handled by the inner [except TimeoutException]: while
    attempts remain the next attempt follows at once, without the wait of
    the WebDriver-error clause; on the last attempt an error is logged
    with at most the first 1000 characters of the page source and the
    function returns.  A timeout of the wait for the page body, by
    contrast, reaches the [except WebDriverException] clause, which waits
    between 3 and 7 seconds before the next attempt. *)
Theorem table_timeout_is_retried_without_wait :
  forall (E : environment) (i : nat) (rest : list nat) (fr : frame),
    (load_failure E i = None ->
     wait_chart E i = Raises TimeoutException ->
     i <> max_retries - 1 ->
     for_each (i :: rest) (VGChartzGames.attempt_body E) fr =
       prepend (load_events E "body" i ++
                [Call (OpWait "chart") (Some TimeoutException);
                 Log WARNING (MsgTableNotFoundRetrying (i + 1))])
               (for_each rest (VGChartzGames.attempt_body E) fr)) /\
    (forall src,
        load_failure E i = None ->
        wait_chart E i = Raises TimeoutException ->
        i = max_retries - 1 ->
        page_source E = Ok src ->
        for_each (i :: rest) (VGChartzGames.attempt_body E) fr =
          (Returned, fr,
           load_events E "body" i ++
           [Call (OpWait "chart") (Some TimeoutException);
            Log ERROR MsgCouldNotFindTable;
            Log INFO MsgPageSourceHeader;
            Call OpPageSource None;
            Log INFO (MsgPageSource (substring 0 1000 src))]) /\
        String.length (substring 0 1000 src) <= 1000) /\
    (navigate E i = Ok tt ->
     wait_page E i = Raises TimeoutException ->
     i <> max_retries - 1 ->
     for_each (i :: rest) (VGChartzGames.attempt_body E) fr =
       prepend [Sleep (uniform 2 5 (before_attempt_draw E i));
                Call OpGet None;
                Log INFO (MsgPageLoaded (i + 1) max_retries);
                Sleep (uniform 3 7 (after_load_draw E i));
                Call (OpWait "body") (Some TimeoutException);
                Log WARNING (MsgWebDriverError (i + 1) TimeoutException);
                Sleep (uniform 3 7 (before_retry_draw E i))]
               (for_each rest (VGChartzGames.attempt_body E) fr) /\
     within 3 7 (uniform 3 7 (before_retry_draw E i))).
Proof.
  intros E i rest fr. split; [| split].
  - intros Hload Hchart Hi.
    rewrite for_each_cons_result, games_attempt, games_find_table,
      Hchart, (loaded_ok E _ i fr _ Hload).
    apply Nat.eqb_neq in Hi. cbn [is_TimeoutException]. rewrite Hi.
    cbn [prepend retry_clause].
    destruct (for_each rest (VGChartzGames.attempt_body E) fr) as [[c f] t].
    reflexivity.
  - intros src Hload Hchart Hi Hsrc. split; [| apply substring_length_le].
    rewrite for_each_cons_result, games_attempt, games_find_table,
      Hchart, (loaded_ok E _ i fr _ Hload).
    apply Nat.eqb_eq in Hi. cbn [is_TimeoutException]. rewrite Hi, Hsrc.
    cbn [prepend retry_clause raised app]. rewrite <- ?app_assoc. reflexivity.
  - intros Hnav Hwait Hi. split; [| apply uniform_3_7].
    rewrite for_each_cons_result, games_attempt.
    unfold loaded. rewrite Hnav, Hwait.
    apply Nat.eqb_neq in Hi.
    cbn [prepend retry_clause raised app is_WebDriverException andb]. rewrite Hi.
    cbn [negb].
    destruct (for_each rest (VGChartzGames.attempt_body E) fr) as [[c f] t].
    reflexivity.
Qed.

(** The world whose pages never show the table, and the world whose
    first page times out. *)
Lemma table_timeout_witness :
  for_each (0 :: [1; 2]) (VGChartzGames.attempt_body tableless_world) frame0 =
    prepend (load_events tableless_world "body" 0 ++
             [Call (OpWait "chart") (Some TimeoutException);
              Log WARNING (MsgTableNotFoundRetrying (0 + 1))])
            (for_each [1; 2] (VGChartzGames.attempt_body tableless_world) frame0)
  /\
  String.length (substring 0 1000 "<html>") <= 1000
  /\
  within 3 7 (uniform 3 7 (before_retry_draw slow_world 0)).
Proof.
  split; [| split].
  - destruct (table_timeout_is_retried_without_wait tableless_world 0 [1; 2] frame0)
      as [H _].
    apply H; [reflexivity | reflexivity | discriminate].
  - destruct (table_timeout_is_retried_without_wait tableless_world 2 [] frame0)
      as [_ [H _]].
    apply (H "<html>"); reflexivity.
  - destruct (table_timeout_is_retried_without_wait slow_world 0 [1; 2] frame0)
      as [_ [_ H]].
    apply H; [reflexivity | reflexivity | discriminate].
Defined.

(** ** The table that the rows are read from *)

Lemma timeout_is_webdriver e :
  is_TimeoutException e = true -> is_WebDriverException e = true.
Proof. destruct e; intros H; try discriminate; reflexivity. Qed.

(** How an attempt of the game-sales scraper can end. *)
Lemma games_attempt_cases E i fr :
  match outcome_of (VGChartzGames.attempt_body E i) fr with
  | Normal _ => False
  | Broke =>
      load_failure E i = None /\
      exists tbl,
        wait_chart E i = Ok tbl /\
        frame_of (VGChartzGames.attempt_body E i) fr =
          {| data := data fr; table := Some tbl |}
  | Continued =>
      i <> max_retries - 1 /\ games_attempt_retryable E i = true /\
      frame_of (VGChartzGames.attempt_body E i) fr = fr
  | _ => True
  end.
Proof.
  unfold outcome_of, frame_of.
  rewrite games_attempt, games_find_table.
  unfold loaded, games_attempt_retryable, load_failure, retry_clause.
  destruct (i =? max_retries - 1) eqn:Hi;
    [apply Nat.eqb_eq in Hi | apply Nat.eqb_neq in Hi];
    (destruct (navigate E i) as [[]|e1];
     [destruct (wait_page E i) as [[]|e2];
      [destruct (title E i) as [s|e3];
       [destruct (wait_chart E i) as [tbl|e4];
        [| destruct (is_TimeoutException e4) eqn:Ht;
           [rewrite ?(timeout_is_webdriver e4 Ht);
            destruct (page_source E) as [src|e5] |]] |] |] |]);
    cbn -[uniform max_retries];
    repeat match goal with
           | |- context [is_WebDriverException ?e] =>
               destruct (is_WebDriverException e) eqn:?
           end;
    cbn -[uniform max_retries];
    try exact I; try (repeat split; eauto; fail).
Qed.

(** A retry loop that ends normally was left by [break]. *)
Lemma games_loop_normal E indices fr :
  outcome_of (for_each indices (VGChartzGames.attempt_body E)) fr = Normal tt ->
  (exists before i after tbl,
      indices = before ++ i :: after /\
      Forall (fun j => games_attempt_retryable E j = true) before /\
      load_failure E i = None /\
      wait_chart E i = Ok tbl /\
      frame_of (for_each indices (VGChartzGames.attempt_body E)) fr =
        {| data := data fr; table := Some tbl |})
  \/
  (Forall (fun j => j <> max_retries - 1) indices /\
   frame_of (for_each indices (VGChartzGames.attempt_body E)) fr = fr).
Proof.
  revert fr. induction indices as [|i indices IH]; intros fr H.
  - right. split; [constructor | reflexivity].
  - rewrite outcome_for_each_cons in H. rewrite frame_for_each_cons.
    pose proof (games_attempt_cases E i fr) as Hc.
    destruct (outcome_of (VGChartzGames.attempt_body E i) fr) eqn:Ho;
      try discriminate; try contradiction.
    + destruct Hc as [Hload [tbl [Hchart Hfr]]].
      left. exists [], i, indices, tbl. repeat split; auto.
    + destruct Hc as [Hi [Hfail Hfr]]. rewrite Hfr in *.
      destruct (IH fr H) as [[before [j [after [tbl [-> [Hb [Hl [Hch Hf]]]]]]]] | [Hall Hf]].
      * left. exists (i :: before), j, after, tbl. repeat split; auto.
      * right. split; [constructor; assumption | exact Hf].
Qed.

(** X13. When the retry loop of the game-sales scraper ends normally,
    the variable [table] is bound: it holds the table found by the first
    attempt whose page loaded and whose wait for the table returned, all
    attempts before it having failed; the rows are then extracted from
    that table.  The loop cannot run out of attempts without leaving the
    function, so [table] is never read unbound. *)
Theorem rows_are_read_from_the_table_found :
  forall E : environment,
    let loop := for_each (range max_retries) (VGChartzGames.attempt_body E) in
    outcome_of loop frame0 = Normal tt ->
    exists i tbl,
      i < max_retries /\
      (forall j, j < i -> games_attempt_retryable E j = true) /\
      load_failure E i = None /\
      wait_chart E i = Ok tbl /\
      table (frame_of loop frame0) = Some tbl /\
      bind loop (fun _ => VGChartzGames.extract_and_save E) frame0 =
        prepend (trace_of loop frame0)
                (VGChartzGames.extract_and_save E {| data := []; table := Some tbl |}).
Proof.
  intros E loop Hout. subst loop.
  destruct (games_loop_normal E (range max_retries) frame0 Hout)
    as [[before [i [after [tbl [Hsplit [Hb [Hl [Hch Hf]]]]]]]] | [Hall _]].
  - exists i, tbl.
    assert (Hi : i < max_retries /\ forall j, j < i -> In j before).
    { change (range max_retries) with [0; 1; 2] in Hsplit. unfold max_retries.
      destruct before as [|a [|b [|c before]]]; cbn in Hsplit;
        injection Hsplit; intros; subst; cbn.
      - split; [lia | intros j Hj; lia].
      - split; [lia | intros j Hj; assert (j = 0) by lia; auto].
      - split; [lia | intros j Hj; assert (j = 0 \/ j = 1) by lia; intuition].
      - destruct before; discriminate. }
    destruct Hi as [Hi Hbefore].
    split; [exact Hi |].
    split; [intros j Hj; rewrite Forall_forall in Hb; apply Hb, Hbefore, Hj |].
    split; [exact Hl |]. split; [exact Hch |].
    split; [rewrite Hf; reflexivity |].
    unfold bind. rewrite for_each_eta, Hout, Hf. cbn [data frame0 prepend].
    destruct (VGChartzGames.extract_and_save E {| data := []; table := Some tbl |})
      as [[c f] t].
    reflexivity.
  - change (range max_retries) with [0; 1; 2] in Hall.
    rewrite Forall_forall in Hall.
    elim (Hall 2); [cbn; auto | reflexivity].
Qed.

(** The world where everything works: the table of the first attempt. *)
Lemma rows_are_read_witness :
  exists i tbl,
    i < max_retries /\
    (forall j, j < i -> games_attempt_retryable fair_world j = true) /\
    load_failure fair_world i = None /\
    wait_chart fair_world i = Ok tbl /\
    table (frame_of (for_each (range max_retries)
                       (VGChartzGames.attempt_body fair_world)) frame0) = Some tbl /\
    bind (for_each (range max_retries) (VGChartzGames.attempt_body fair_world))
         (fun _ => VGChartzGames.extract_and_save fair_world) frame0 =
      prepend (trace_of (for_each (range max_retries)
                           (VGChartzGames.attempt_body fair_world)) frame0)
              (VGChartzGames.extract_and_save fair_world
                 {| data := []; table := Some tbl |}).
Proof.
  exact (rows_are_read_from_the_table_found fair_world eq_refl).
Defined.

(** ** The attempt that extracts records *)

Lemma with_block_failure_not_webdriver f d e :
  with_block_failure f d = Some e -> is_WebDriverException e = false.
Proof.
  unfold with_block_failure. destruct (close f).
  - destruct (write_failure f 0 (csv_of d)) as [[]|]; cbn [option_map exn_of];
      intros H; [injection H as <- | injection H as <- | discriminate]; reflexivity.
  - intros H. injection H as <-. reflexivity.
Qed.

(** X14. An attempt that extracts a non-empty record set is the last
    one.  Metacritic: after a write in which every write call and the
    closing of the file succeed, the loop is left by [break]; when
    creating the directory or opening the file raises an exception that
    is not a WebDriver exception (an [OSError]), or when a write or the
    closing of the file raises, the exception leaves the loop although
    attempts remain.  Game sales: the loop is left as soon as the table
    is found, and the rows are extracted and written once, after the
    loop.  In every case the remaining attempts [rest] are not made. *)
Theorem productive_attempt_is_the_last :
  forall (E : environment) (i : nat) (rest : list nat) (fr : frame),
    load_failure E i = None ->
    (forall g gs first more,
        product_items E i = Ok (g :: gs) ->
        accepted_games (g :: gs) = first :: more ->
        let found := load_events E "c-productList" i ++
                     Call (OpFindElements "c-productListItem") None ::
                     flat_map game_events (g :: gs) in
        let fr' := {| data := first :: more; table := table fr |} in
        (forall fo,
            makedirs E = Ok tt -> open_w E = Ok fo -> sound fo (first :: more) ->
            for_each (i :: rest) (Metacritic.attempt_body E) fr =
              (Normal tt, fr',
               found ++ write_events (first :: more) ++ [Log INFO MsgSaved])) /\
        (forall e,
            is_WebDriverException e = false ->
            makedirs E = Raises e ->
            for_each (i :: rest) (Metacritic.attempt_body E) fr =
              (Raised e, fr', found ++ [Call OpMakedirs (Some e)])) /\
        (forall e,
            is_WebDriverException e = false ->
            makedirs E = Ok tt -> open_w E = Raises e ->
            for_each (i :: rest) (Metacritic.attempt_body E) fr =
              (Raised e, fr',
               found ++ [Call OpMakedirs None; Call OpOpen (Some e)])) /\
        (forall fo e,
            makedirs E = Ok tt -> open_w E = Ok fo ->
            with_block_failure fo (first :: more) = Some e ->
            for_each (i :: rest) (Metacritic.attempt_body E) fr =
              (Raised e, fr',
               found ++ Call OpMakedirs None :: Call OpOpen None ::
               with_block_events fo (first :: more)))) /\
    (forall trs first more,
        wait_chart E i = Ok (Ok trs) ->
        games_accepted (tl trs) = first :: more ->
        let found := load_events E "body" i ++
                     Call (OpWait "chart") None ::
                     Call (OpFindElements "tr") None :: games_trace (tl trs) in
        let fr' := {| data := first :: more; table := Some (Ok trs) |} in
        let run_from := bind (for_each (i :: rest) (VGChartzGames.attempt_body E))
                             (fun _ => VGChartzGames.extract_and_save E) fr in
        (forall fo,
            makedirs E = Ok tt -> open_w E = Ok fo -> sound fo (first :: more) ->
            run_from =
              (Normal tt, fr',
               found ++ write_events (first :: more) ++ [Log INFO MsgSaved])) /\
        (forall e,
            makedirs E = Raises e ->
            run_from = (Raised e, fr', found ++ [Call OpMakedirs (Some e)])) /\
        (forall e,
            makedirs E = Ok tt -> open_w E = Raises e ->
            run_from =
              (Raised e, fr',
               found ++ [Call OpMakedirs None; Call OpOpen (Some e)])) /\
        (forall fo e,
            makedirs E = Ok tt -> open_w E = Ok fo ->
            with_block_failure fo (first :: more) = Some e ->
            run_from =
              (Raised e, fr',
               found ++ Call OpMakedirs None :: Call OpOpen None ::
               with_block_events fo (first :: more)))).
Proof.
  intros E i rest fr Hload. split.
  - intros g gs first more Hitems Hacc found fr'. subst found fr'.
    assert (Hbody : Metacritic.attempt_body E i fr =
              retry_clause E i
                (prepend (load_events E "c-productList" i)
                   (match save_failure (makedirs E) (open_w E) (first :: more) with
                    | Some e =>
                        (Raised e, {| data := first :: more; table := table fr |},
                         (Call (OpFindElements "c-productListItem") None ::
                          flat_map game_events (g :: gs)) ++
                         save_events (makedirs E) (open_w E) (first :: more))
                    | None =>
                        (Broke, {| data := first :: more; table := table fr |},
                         (Call (OpFindElements "c-productListItem") None ::
                          flat_map game_events (g :: gs)) ++
                         save_events (makedirs E) (open_w E) (first :: more) ++
                         [Log INFO MsgSaved])
                    end))).
    { rewrite metacritic_attempt, metacritic_extract_and_save, Hitems,
        (loaded_ok E _ i fr _ Hload).
      cbv zeta. rewrite Hacc. reflexivity. }
    rewrite for_each_cons_result, Hbody.
    split; [| split; [| split]].
    + intros fo Hm Ho Hs. rewrite Hm, Ho.
      destruct (sound_save fo (first :: more)) as [-> [-> _]];
        [discriminate | exact Hs |].
      cbn [prepend retry_clause]. rewrite <- app_assoc. reflexivity.
    + intros e He Hm. rewrite Hm. cbn [save_failure save_events raised prepend retry_clause].
      rewrite He. cbn [andb]. rewrite <- app_assoc. reflexivity.
    + intros e He Hm Ho. rewrite Hm, Ho.
      cbn [save_failure save_events raised prepend retry_clause]. rewrite He.
      cbn [andb]. rewrite <- app_assoc. reflexivity.
    + intros fo e Hm Ho Hf. rewrite Hm, Ho.
      cbn [save_failure save_events raised]. rewrite Hf.
      cbn [prepend retry_clause].
      rewrite (with_block_failure_not_webdriver _ _ _ Hf).
      cbn [andb]. rewrite <- app_assoc. reflexivity.
  - intros trs first more Hchart Hacc found fr' run_from. subst found fr' run_from.
    assert (Hloop : for_each (i :: rest) (VGChartzGames.attempt_body E) fr =
              (Normal tt, {| data := data fr; table := Some (Ok trs) |},
               load_events E "body" i ++ [Call (OpWait "chart") None])).
    { rewrite for_each_cons_result, games_attempt, games_find_table,
        Hchart, (loaded_ok E _ i fr _ Hload).
      reflexivity. }
    unfold bind. rewrite Hloop, games_extract_and_save.
    cbn [table data]. cbv zeta. rewrite Hacc.
    split; [| split; [| split]].
    + intros fo Hm Ho Hs. rewrite Hm, Ho.
      destruct (sound_save fo (first :: more)) as [-> [-> _]];
        [discriminate | exact Hs |].
      rewrite <- !app_assoc. reflexivity.
    + intros e Hm. rewrite Hm. cbn [save_failure save_events raised].
      rewrite <- !app_assoc. reflexivity.
    + intros e Hm Ho. rewrite Hm, Ho. cbn [save_failure save_events raised].
      rewrite <- !app_assoc. reflexivity.
    + intros fo e Hm Ho Hf. rewrite Hm, Ho.
      cbn [save_failure save_events raised]. rewrite Hf.
      rewrite <- !app_assoc. reflexivity.
Qed.

(** The world where everything works, and the world whose data directory
    cannot be created. *)
Lemma productive_attempt_witness :
  for_each (0 :: [1; 2]) (Metacritic.attempt_body fair_world) frame0 =
    (Normal tt,
     {| data := [Metacritic.mk_record "The Legend of Zelda: Breath of the Wild"
                                      "97" "Mar 3, 2017"];
        table := None |},
     (load_events fair_world "c-productList" 0 ++
      Call (OpFindElements "c-productListItem") None ::
      flat_map game_events [zelda; unscored]) ++
     write_events [Metacritic.mk_record "The Legend of Zelda: Breath of the Wild"
                                        "97" "Mar 3, 2017"] ++
     [Log INFO MsgSaved])
  /\
  for_each (0 :: [1; 2]) (Metacritic.attempt_body readonly_world) frame0 =
    (Raised OSError,
     {| data := [Metacritic.mk_record "The Legend of Zelda: Breath of the Wild"
                                      "97" "Mar 3, 2017"];
        table := None |},
     (load_events readonly_world "c-productList" 0 ++
      Call (OpFindElements "c-productListItem") None ::
      flat_map game_events [zelda; unscored]) ++
     [Call OpMakedirs (Some OSError)])
  /\
  for_each (0 :: [1; 2]) (Metacritic.attempt_body unencodable_world) frame0 =
    (Raised UnicodeEncodeError,
     {| data := [Metacritic.mk_record "The Legend of Zelda: Breath of the Wild"
                                      "97" "Mar 3, 2017"];
        table := None |},
     (load_events unencodable_world "c-productList" 0 ++
      Call (OpFindElements "c-productListItem") None ::
      flat_map game_events [zelda; unscored]) ++
     Call OpMakedirs None :: Call OpOpen None ::
     with_block_events header_only_file
       [Metacritic.mk_record "The Legend of Zelda: Breath of the Wild"
                             "97" "Mar 3, 2017"]).
Proof.
  split; [| split].
  - destruct (productive_attempt_is_the_last fair_world 0 [1; 2] frame0 eq_refl)
      as [H _].
    destruct (H zelda [unscored]
                (Metacritic.mk_record "The Legend of Zelda: Breath of the Wild"
                                      "97" "Mar 3, 2017") []
                eq_refl eq_refl) as [H1 _].
    apply (H1 sound_file); try reflexivity.
    split; [intros k _; reflexivity | reflexivity].
  - destruct (productive_attempt_is_the_last readonly_world 0 [1; 2] frame0 eq_refl)
      as [H _].
    destruct (H zelda [unscored]
                (Metacritic.mk_record "The Legend of Zelda: Breath of the Wild"
                                      "97" "Mar 3, 2017") []
                eq_refl eq_refl) as [_ [H2 _]].
    apply H2; reflexivity.
  - destruct (productive_attempt_is_the_last unencodable_world 0 [1; 2] frame0 eq_refl)
      as [H _].
    destruct (H zelda [unscored]
                (Metacritic.mk_record "The Legend of Zelda: Breath of the Wild"
                                      "97" "Mar 3, 2017") []
                eq_refl eq_refl) as [_ [_ [_ H4]]].
    apply (H4 header_only_file); reflexivity.
Defined.

(** ** Entries and rows that cannot be read *)

Lemma accepted_games_length gs :
  List.length (accepted_games gs) + List.length (filter unreadable_game gs)
  = List.length gs.
Proof.
  induction gs as [|g gs IH]; [reflexivity |].
  unfold accepted_games in *. cbn [flat_map filter]. rewrite length_app.
  assert (H : List.length match game_record g with
                          | Ok r => [r]
                          | Raises _ => []
                          end + (if unreadable_game g then 1 else 0) = 1)
    by (unfold unreadable_game; destruct (game_record g); reflexivity).
  destruct (unreadable_game g); cbn [List.length]; lia.
Qed.

Lemma games_accepted_length rows :
  List.length (games_accepted rows) +
  List.length (filter unreadable_row rows) +
  List.length (filter (fun row => match row with
                                  | Ok cols => malformed cols
                                  | Raises _ => false
                                  end) rows)
  = List.length rows.
Proof.
  induction rows as [|row rows IH]; [reflexivity |].
  unfold games_accepted in *. cbn [flat_map filter]. rewrite length_app.
  destruct row as [cols|e]; cbn [unreadable_row].
  - unfold malformed at 1. destruct (well_formed cols); cbn [negb List.length]; lia.
  - cbn [List.length]. lia.
Qed.

(** X15. In the loops over the Metacritic entries and over the rows of
    the game-sales table, an exception raised while reading an entry or a
    row skips that one only: the lookups that would follow in the same
    entry are not made, a warning with the exception is logged, and the
    loop goes on to its end; the entries and rows around it give their
    records as if it were absent.  Records and skipped elements add up to
    the elements of the page. *)
Theorem unreadable_entries_are_skipped :
  forall (gs : list game_element) (rows : list row_element) (fr : frame),
    for_each gs Metacritic.process_game fr =
      (Normal tt,
       {| data := data fr ++ accepted_games gs; table := table fr |},
       flat_map game_events gs) /\
    for_each rows VGChartzGames.process_row fr =
      (Normal tt,
       {| data := data fr ++ games_accepted rows; table := table fr |},
       games_trace rows) /\
    List.length (accepted_games gs) + List.length (filter unreadable_game gs)
      = List.length gs /\
    List.length (games_accepted rows) +
    List.length (filter unreadable_row rows) +
    List.length (filter (fun row => match row with
                                    | Ok cols => malformed cols
                                    | Raises _ => false
                                    end) rows)
      = List.length rows /\
    (forall before g after e,
        gs = before ++ g :: after ->
        game_record g = Raises e ->
        accepted_games gs = accepted_games (before ++ after) /\
        Metacritic.process_game g fr = (Continued, fr, game_events g) /\
        last (game_events g) (Log INFO MsgSaved) =
          Log WARNING (MsgErrorProcessingGame e) /\
        (forall e', game_title g = Raises e' ->
                    game_events g =
                      [Call (OpFindElements "c-productListItem_title") (Some e');
                       Log WARNING (MsgErrorProcessingGame e')])) /\
    (forall before e after,
        rows = before ++ Raises e :: after ->
        games_accepted rows = games_accepted (before ++ after) /\
        VGChartzGames.process_row (Raises e) fr =
          (Continued, fr,
           [Call (OpFindElements "td") (Some e);
            Log WARNING (MsgErrorProcessingRow e)])).
Proof.
  intros gs rows fr.
  split; [apply metacritic_games_loop |].
  split; [apply games_loop |].
  split; [apply accepted_games_length |].
  split; [apply games_accepted_length |].
  split.
  - intros before g after e -> Hrec.
    split; [| split; [| split]].
    + unfold accepted_games. rewrite !flat_map_app. cbn [flat_map].
      rewrite Hrec. reflexivity.
    + rewrite metacritic_process_game, Hrec. reflexivity.
    + unfold game_events, game_record in *.
      destruct (game_title g); [| injection Hrec as ->; reflexivity].
      destruct (game_score g); [| injection Hrec as ->; reflexivity].
      destruct (game_date g); [discriminate | injection Hrec as ->; reflexivity].
    + intros e' Ht. unfold game_events. rewrite Ht. reflexivity.
  - intros before e after ->. split.
    + unfold games_accepted. rewrite !flat_map_app. reflexivity.
    + apply (games_process_row (Raises e)).
Qed.

(** The entry without a score between two readable ones is skipped. *)
Lemma unreadable_entries_witness :
  accepted_games [zelda; unscored; zelda] = accepted_games ([zelda] ++ [zelda]) /\
  Metacritic.process_game unscored frame0 = (Continued, frame0, game_events unscored).
Proof.
  destruct (unreadable_entries_are_skipped [zelda; unscored; zelda] [] frame0)
    as [_ [_ [_ [_ [H _]]]]].
  destruct (H [zelda] unscored [zelda] NoSuchElementException eq_refl eq_refl)
    as [H1 [H2 _]].
  split; [exact H1 | exact H2].
Defined.

(** ** Running a scraper again *)

Lemma leaves_overwrites P o t : leaves P o t -> overwrites t.
Proof.
  intros [[Hz Hf] | [d [f0 [_ [_ [_ Hf]]]]]]; split.
  - intros f. rewrite !Hf. reflexivity.
  - intros H. contradiction.
  - intros f. rewrite !Hf. reflexivity.
  - intros _ f f'. rewrite (Hf f), (Hf f'). reflexivity.
Qed.

(** X16. Every scraper opens its destination for writing anew: a run
    that writes leaves the same file whatever the destination held
    before (nothing of an older, longer file survives), and running a
    scraper again in the same circumstances leaves the destination as
    the first run left it. *)
Theorem rerun_leaves_the_same_file :
  forall (C : VGChartzConsoles.environment) (E : environment)
         (fromisoformat : string -> call_result datetime)
         (O : OpenCritic.environment),
    overwrites (trace_of (VGChartzConsoles.scrape_vgchartz_console_sales C) frame0) /\
    overwrites (trace_of (Metacritic.scrape_metacritic_scores E) frame0) /\
    overwrites (trace_of (VGChartzGames.scrape_vgchartz_game_sales E) frame0) /\
    overwrites (trace_of (OpenCritic.scrape_opencritic_scores fromisoformat O) frame0).
Proof.
  intros C E fromisoformat O.
  split; [| split; [| split]].
  - exact (leaves_overwrites _ _ _ (consoles_leaves C)).
  - exact (leaves_overwrites _ _ _ (metacritic_leaves E)).
  - exact (leaves_overwrites _ _ _ (games_leaves E)).
  - exact (leaves_overwrites _ _ _ (opencritic_leaves fromisoformat O)).
Qed.







(** * The analysis scripts: names *)

Lemma string_app_assoc (a b c : string) :
  ((a ++ b) ++ c)%string = (a ++ (b ++ c))%string.
Proof. induction a as [|x a IH]; cbn; [| rewrite IH]; reflexivity. Qed.

Lemma contains_trans a b c :
  contains a b = true -> contains b c = true -> contains a c = true.
Proof.
  rewrite !contains_occurs.
  intros [a1 [a2 Hb]] [b1 [b2 Hc]]. subst b c.
  exists (b1 ++ a1)%string, (a2 ++ b2)%string.
  rewrite !string_app_assoc. reflexivity.
Qed.

Lemma existsb_false_in {X} (p : X -> bool) xs x :
  existsb p xs = false -> In x xs -> p x = false.
Proof.
  intros H Hin. destruct (p x) eqn:Hp; [| reflexivity].
  rewrite <- H. symmetry. apply existsb_exists. exists x. split; assumption.
Qed.

Section Reachable.

Variable lower : string -> string.
Hypothesis lower_ascii : forall s, is_ascii s = true -> lower s = ascii_lower s.

Lemma shadowed_no_match earlier keyword name :
  (forall k, In k earlier -> contains (lower k) (lower name) = false) ->
  shadowed earlier keyword = true ->
  contains (lower keyword) (lower name) = false.
Proof.
  intros He Hs. unfold shadowed in Hs. apply andb_prop in Hs as [Ha Hex].
  apply existsb_exists in Hex as [k [Hk Hc]]. apply andb_prop in Hc as [Hka Hc].
  destruct (contains (lower keyword) (lower name)) eqn:Hm; [| reflexivity].
  rewrite <- (lower_ascii k Hka), <- (lower_ascii keyword Ha) in Hc.
  rewrite <- (He k Hk). symmetry. exact (contains_trans _ _ _ Hc Hm).
Qed.

(** The result of the lookup is the name of an entry with a keyword of
    its own, or [Other]. *)
Lemma first_match_reachable items :
  forall earlier name,
    (forall k, In k earlier -> contains (lower k) (lower name) = false) ->
    In (first_match lower items name) (reachable earlier items ++ ["Other"]).
Proof.
  induction items as [|[n kws] items IH]; intros earlier name He.
  - left. reflexivity.
  - cbn [first_match reachable].
    destruct (any_keyword lower kws name) eqn:Hany.
    + destruct (forallb (shadowed earlier) kws) eqn:Hsh.
      * exfalso. unfold any_keyword in Hany.
        apply existsb_exists in Hany as [kw [Hin Hm]].
        rewrite forallb_forall in Hsh.
        rewrite (shadowed_no_match earlier kw name He (Hsh kw Hin)) in Hm.
        discriminate.
      * left. reflexivity.
    + rewrite <- app_assoc. apply in_or_app. right. apply IH.
      intros k Hk. apply in_app_or in Hk as [Hk | Hk]; [apply He, Hk |].
      exact (existsb_false_in _ kws k Hany Hk).
Qed.

(** A name that matches a keyword shadowed by the first entry belongs to
    the first entry. *)
Lemma shadowed_by_first n kws rest keywords name :
  forallb (shadowed kws) keywords = true ->
  any_keyword lower keywords name = true ->
  first_match lower ((n, kws) :: rest) name = n.
Proof.
  intros Hsh Hany. cbn [first_match].
  destruct (any_keyword lower kws name) eqn:Hfirst; [reflexivity |].
  exfalso. unfold any_keyword in Hany.
  apply existsb_exists in Hany as [kw [Hin Hm]].
  rewrite forallb_forall in Hsh.
  rewrite (shadowed_no_match kws kw name) in Hm; [discriminate | | apply Hsh, Hin].
  intros k Hk. exact (existsb_false_in _ kws k Hfirst Hk).
Qed.

(** On ASCII keywords and an ASCII name the lookup can be computed. *)
Lemma first_match_ascii items name :
  forallb (fun e : string * list string => forallb is_ascii (snd e)) items = true ->
  is_ascii name = true ->
  first_match lower items name = first_match ascii_lower items name.
Proof.
  intros Hi Hn. induction items as [|[n kws] items IH]; [reflexivity |].
  cbn [forallb snd] in Hi. apply andb_prop in Hi as [Hk Hi].
  cbn [first_match]. rewrite (IH Hi).
  replace (any_keyword lower kws name) with (any_keyword ascii_lower kws name);
    [reflexivity |].
  unfold any_keyword. rewrite (lower_ascii name Hn).
  clear IH Hi. induction kws as [|kw kws IH]; [reflexivity |].
  cbn [forallb] in Hk. apply andb_prop in Hk as [Hkw Hk].
  cbn [existsb]. rewrite (lower_ascii kw Hkw), (IH Hk). reflexivity.
Qed.

End Reachable.

Lemma not_in_neq (x : string) xs y : In y xs -> existsb (String.eqb x) xs = false -> y <> x.
Proof.
  intros Hin Hex ->. apply (existsb_false_in _ xs x Hex) in Hin.
  rewrite String.eqb_refl in Hin. discriminate.
Qed.

(** X18. [extract_game_type] never returns [Spin-off], although it is a
    key of its table: every Spin-off keyword contains [Mario] or [Wario],
    which are keywords of the entry [Main Series] that is tried first, so
    a name with a Spin-off keyword is a [Main Series] name.  The function
    returns exactly the other nineteen keys and [Other]. *)
Theorem spin_off_is_never_returned :
  forall lower : string -> string,
    (forall s, is_ascii s = true -> lower s = ascii_lower s) ->
    let returned :=
      ["Main Series"; "Remake"; "Port"; "DLC"; "Indie"; "Third Party";
       "First Party"; "Second Party"; "Exclusive"; "Multiplatform";
       "Digital Only"; "Physical Only"; "Free to Play"; "Premium"; "Budget";
       "Mid-Range"; "High-End"; "Ultra"; "Luxury"; "Other"] in
    In "Spin-off" (map fst game_types) /\
    (forall game_name, In (extract_game_type lower game_name) returned) /\
    (forall game_name, extract_game_type lower game_name <> "Spin-off") /\
    (forall game_name,
        any_keyword lower
          ["Mario Kart"; "Mario Party"; "Mario Golf"; "Mario Tennis";
           "Mario Strikers"; "Mario + Rabbids"; "Mario & Sonic"; "Mario & Luigi";
           "Mario vs. Donkey Kong"; "Mario Sports"; "Paper Mario"; "WarioWare"]
          game_name = true ->
        extract_game_type lower game_name = "Main Series") /\
    (forall game_type,
        In game_type returned ->
        exists game_name, extract_game_type lower game_name = game_type).
Proof.
  intros lower Hl returned.
  assert (Hin : forall game_name, In (extract_game_type lower game_name) returned).
  { intros game_name.
    exact (first_match_reachable lower Hl game_types [] game_name
             (fun k (H : In k []) => match H with end)). }
  split; [vm_compute; auto |].
  split; [exact Hin |].
  split; [| split].
  - intros game_name. apply (not_in_neq _ returned); [apply Hin | reflexivity].
  - intros game_name Hany.
    change (extract_game_type lower game_name)
      with (first_match lower game_types game_name).
    change game_types with
      ((fst (hd ("", []) game_types), snd (hd ("", []) game_types)) :: tl game_types).
    apply (fun H => shadowed_by_first lower Hl _ _ _ _ _ H Hany). reflexivity.
  - intros game_type Ht. unfold extract_game_type.
    assert (Hex : exists game_name,
               is_ascii game_name = true /\
               first_match ascii_lower game_types game_name = game_type).
    { cbn [In returned] in Ht.
      destruct Ht as [<- | Ht]; [exists "Zelda"; split; reflexivity |].
      repeat (destruct Ht as [<- | Ht];
              [match goal with
               | |- exists g, _ /\ _ = ?t => exists t
               end; split; vm_compute; reflexivity |]).
      destruct Ht. }
    destruct Hex as [game_name [Ha Hm]]. exists game_name.
    rewrite (first_match_ascii lower Hl game_types game_name eq_refl Ha). exact Hm.
Qed.

(** A Mario Kart game is a Main Series game. *)
Lemma spin_off_witness :
  extract_game_type ascii_lower "Mario Kart 8 Deluxe" = "Main Series" /\
  extract_game_type ascii_lower "Mario Kart 8 Deluxe" <> "Spin-off".
Proof.
  destruct (spin_off_is_never_returned ascii_lower (fun s _ => eq_refl))
    as [_ [_ [H1 [H2 _]]]].
  split; [apply H2; reflexivity | apply H1].
Defined.

(** X19. [extract_series] returns one of the first seventeen keys of its
    table or [Other].  The eleven keys from [Paper Mario] on, each given
    once or twice in the display, are never returned: their keywords all
    contain [Mario], the keyword of the first entry, so that a name with
    one of these keywords belongs to the series [Mario]. *)
Theorem series_after_luigi_are_never_returned :
  forall lower : string -> string,
    (forall s, is_ascii s = true -> lower s = ascii_lower s) ->
    let returned :=
      ["Mario"; "Zelda"; "Pokemon"; "Metroid"; "Kirby"; "Fire Emblem";
       "Animal Crossing"; "Splatoon"; "Donkey Kong"; "Xenoblade"; "Bayonetta";
       "Pikmin"; "Star Fox"; "F-Zero"; "Wario"; "Yoshi"; "Luigi"; "Other"] in
    let never :=
      ["Paper Mario"; "Mario & Luigi"; "Mario vs. Donkey Kong"; "Mario Sports";
       "Mario Party"; "Mario Kart"; "Mario Golf"; "Mario Tennis";
       "Mario Strikers"; "Mario + Rabbids"; "Mario & Sonic"] in
    List.length series_display = 38 /\
    map fst series = removelast returned ++ never /\
    (forall game_name, In (extract_series lower game_name) returned) /\
    (forall game_name s, In s never -> extract_series lower game_name <> s) /\
    (forall game_name s keywords,
        In (s, keywords) series -> In s never ->
        any_keyword lower keywords game_name = true ->
        extract_series lower game_name = "Mario").
Proof.
  intros lower Hl returned never.
  assert (Hin : forall game_name, In (extract_series lower game_name) returned).
  { intros game_name.
    exact (first_match_reachable lower Hl series [] game_name
             (fun k (H : In k []) => match H with end)). }
  split; [reflexivity |]. split; [reflexivity |]. split; [exact Hin |].
  split.
  - intros game_name s Hs.
    apply (not_in_neq _ returned); [apply Hin |].
    revert s Hs. apply Forall_forall. repeat constructor.
  - intros game_name s keywords He Hs Hany.
    assert (Hsh : forallb (shadowed (snd (hd ("", []) series))) keywords = true).
    { assert (Hall : forallb (fun e : string * list string =>
                                negb (existsb (String.eqb (fst e)) never) ||
                                forallb (shadowed (snd (hd ("", []) series))) (snd e))
                             series = true) by reflexivity.
      rewrite forallb_forall in Hall. specialize (Hall _ He). cbn [fst snd] in Hall.
      replace (existsb (String.eqb s) never) with true in Hall; [exact Hall |].
      symmetry. apply existsb_exists. exists s. split; [exact Hs |].
      apply String.eqb_refl. }
    change (extract_series lower game_name)
      with (first_match lower series game_name).
    change series with
      ((fst (hd ("", []) series), snd (hd ("", []) series)) :: tl series).
    exact (shadowed_by_first lower Hl _ _ _ _ _ Hsh Hany).
Qed.

(** A Paper Mario game belongs to the series Mario. *)
Lemma series_witness :
  extract_series ascii_lower "Paper Mario: The Origami King" = "Mario" /\
  extract_series ascii_lower "Paper Mario: The Origami King" <> "Paper Mario".
Proof.
  destruct (series_after_luigi_are_never_returned ascii_lower (fun s _ => eq_refl))
    as [_ [_ [_ [H1 H2]]]].
  split.
  - apply (H2 _ "Paper Mario" ["Paper Mario"]); [| | reflexivity]; cbn; auto 20.
  - apply H1. cbn. auto.
Defined.

(** The lookup depends on [lower] through the keywords and the name
    only. *)
Lemma first_match_agree (lower lower' : string -> string) items name :
  (forall kw, In kw (flat_map snd items) -> lower kw = lower' kw) ->
  lower name = lower' name ->
  first_match lower items name = first_match lower' items name.
Proof.
  intros Hk Hn. induction items as [|[n kws] items IH]; [reflexivity |].
  cbn [flat_map snd] in Hk. cbn [first_match].
  rewrite IH by (intros kw Hin; apply Hk, in_or_app; right; exact Hin).
  replace (any_keyword lower kws name) with (any_keyword lower' kws name);
    [reflexivity |].
  unfold any_keyword. rewrite Hn.
  assert (Hk' : forall kw, In kw kws -> lower kw = lower' kw)
    by (intros kw Hin; apply Hk, in_or_app; left; exact Hin).
  clear IH Hk. induction kws as [|kw kws IH]; [reflexivity |].
  cbn [existsb]. rewrite (Hk' kw (or_introl eq_refl)), IH; [reflexivity |].
  intros kw' Hin. apply Hk'. right. exact Hin.
Qed.

(** X20. Of the forty entries of its table, [extract_developer] can
    return eight: [Nintendo EPD], [Game Freak], [Retro Studios],
    [HAL Laboratory], [Intelligent Systems], [Monolith Soft],
    [PlatinumGames] and [Nintendo SPD]; otherwise it returns [Other].
    The other thirty-two, [Nintendo EAD], [Nintendo R&D] and the thirty
    numbered studios, only repeat keywords of earlier entries and are
    never returned.  Each of the eight, and [Other], is returned for
    some name: [Nintendo EPD] and [Game Freak] whatever [str.lower] does
    outside ASCII, the others given that it turns the keyword [Pokémon]
    into [pokémon]. *)
Theorem developer_is_one_of_eight :
  forall lower : string -> string,
    (forall s, is_ascii s = true -> lower s = ascii_lower s) ->
    let returned :=
      ["Nintendo EPD"; "Game Freak"; "Retro Studios"; "HAL Laboratory";
       "Intelligent Systems"; "Monolith Soft"; "PlatinumGames"; "Nintendo SPD";
       "Other"] in
    List.length developers = 40 /\
    List.length (filter (fun d => negb (existsb (String.eqb d) returned))
                        (map fst developers)) = 32 /\
    (forall game_name, In (extract_developer lower game_name) returned) /\
    (forall game_name, extract_developer lower game_name <> "Nintendo EAD") /\
    (forall game_name d,
        In d (map fst developers) ->
        existsb (String.eqb d) returned = false ->
        extract_developer lower game_name <> d) /\
    extract_developer lower "Super Mario Odyssey" = "Nintendo EPD" /\
    extract_developer lower "Pokemon Sword" = "Game Freak" /\
    (lower "Pokémon" = "pokémon"%string ->
     extract_developer lower "Metroid Prime Remastered" = "Retro Studios" /\
     extract_developer lower "Kirby Star Allies" = "HAL Laboratory" /\
     extract_developer lower "Fire Emblem: Three Houses" = "Intelligent Systems" /\
     extract_developer lower "Xenoblade Chronicles 2" = "Monolith Soft" /\
     extract_developer lower "Bayonetta 2" = "PlatinumGames" /\
     extract_developer lower "Ring Fit Adventure" = "Nintendo SPD" /\
     extract_developer lower "Tetris 99" = "Other" /\
     forall d, In d returned -> exists game_name, extract_developer lower game_name = d).
Proof.
  intros lower Hl returned.
  assert (Hin : forall game_name, In (extract_developer lower game_name) returned).
  { intros game_name.
    exact (first_match_reachable lower Hl developers [] game_name
             (fun k (H : In k []) => match H with end)). }
  assert (Hmario : extract_developer lower "Super Mario Odyssey" = "Nintendo EPD").
  { unfold extract_developer.
    change developers with
      ((fst (hd ("", []) developers), snd (hd ("", []) developers)) :: tl developers).
    cbn [first_match]. unfold any_keyword.
    cbn [hd developers fst snd existsb].
    change (snd (hd ("", []) developers))
      with ["Mario"; "Zelda"; "Animal Crossing"; "Splatoon"; "Arms"].
    cbn [existsb]. rewrite !(Hl "Mario" eq_refl), (Hl "Super Mario Odyssey" eq_refl).
    reflexivity. }
  assert (Hpokemon : extract_developer lower "Pokemon Sword" = "Game Freak").
  { unfold extract_developer.
    change developers with
      (("Nintendo EPD", ["Mario"; "Zelda"; "Animal Crossing"; "Splatoon"; "Arms"]) ::
       ("Nintendo EAD", ["Mario"; "Zelda"; "Animal Crossing"; "Splatoon"; "Arms"]) ::
       ("Game Freak", ["Pokemon"; "Pokémon"]) :: skipn 3 developers).
    cbn [first_match]. unfold any_keyword. cbn [existsb].
    rewrite !(Hl "Mario" eq_refl), !(Hl "Zelda" eq_refl),
      !(Hl "Animal Crossing" eq_refl), !(Hl "Splatoon" eq_refl),
      !(Hl "Arms" eq_refl), !(Hl "Pokemon" eq_refl), (Hl "Pokemon Sword" eq_refl).
    reflexivity. }
  split; [reflexivity |]. split; [reflexivity |]. split; [exact Hin |].
  split; [| split; [| split; [exact Hmario | split; [exact Hpokemon |]]]].
  - intros game_name. apply (not_in_neq _ returned); [apply Hin | reflexivity].
  - intros game_name d _ Hd. apply (not_in_neq _ returned); [apply Hin | exact Hd].
  - intros Hp.
    assert (Hkw : forall kw, In kw (flat_map snd developers) -> lower kw = ascii_lower kw).
    { intros kw Hkw.
      assert (Hall : forallb (fun kw => is_ascii kw || String.eqb kw "Pokémon")
                             (flat_map snd developers) = true)
        by (vm_compute; reflexivity).
      rewrite forallb_forall in Hall. specialize (Hall kw Hkw).
      apply orb_prop in Hall as [Ha | He]; [apply Hl, Ha |].
      apply String.eqb_eq in He. subst kw. rewrite Hp. reflexivity. }
    assert (Hname : forall name d,
               is_ascii name = true ->
               first_match ascii_lower developers name = d ->
               extract_developer lower name = d).
    { intros name d Ha <-. unfold extract_developer.
      apply first_match_agree; [exact Hkw | apply Hl, Ha]. }
    assert (H3 : extract_developer lower "Metroid Prime Remastered" = "Retro Studios")
      by (apply Hname; vm_compute; reflexivity).
    assert (H4 : extract_developer lower "Kirby Star Allies" = "HAL Laboratory")
      by (apply Hname; vm_compute; reflexivity).
    assert (H5 : extract_developer lower "Fire Emblem: Three Houses" =
                 "Intelligent Systems")
      by (apply Hname; vm_compute; reflexivity).
    assert (H6 : extract_developer lower "Xenoblade Chronicles 2" = "Monolith Soft")
      by (apply Hname; vm_compute; reflexivity).
    assert (H7 : extract_developer lower "Bayonetta 2" = "PlatinumGames")
      by (apply Hname; vm_compute; reflexivity).
    assert (H8 : extract_developer lower "Ring Fit Adventure" = "Nintendo SPD")
      by (apply Hname; vm_compute; reflexivity).
    assert (H9 : extract_developer lower "Tetris 99" = "Other")
      by (apply Hname; vm_compute; reflexivity).
    repeat (split; [assumption |]).
    intros d Hd. cbn [In returned] in Hd.
    repeat (destruct Hd as [<- | Hd]; [eexists; eassumption |]).
    destruct Hd.
Qed.

(** A Donkey Kong game is a Retro Studios game, whatever studio made
    it; and a Kirby game is a HAL Laboratory game. *)
Lemma developer_witness :
  In (extract_developer ascii_lower "Donkey Kong Country: Tropical Freeze")
     ["Nintendo EPD"; "Game Freak"; "Retro Studios"; "HAL Laboratory";
      "Intelligent Systems"; "Monolith Soft"; "PlatinumGames"; "Nintendo SPD";
      "Other"] /\
  extract_developer ascii_lower "Donkey Kong Country: Tropical Freeze"
  <> "Nintendo EAD Tokyo" /\
  extract_developer ascii_lower "Kirby Star Allies" = "HAL Laboratory".
Proof.
  destruct (developer_is_one_of_eight ascii_lower (fun s _ => eq_refl))
    as [_ [_ [H1 [_ [H2 [_ [_ H3]]]]]]].
  split; [apply H1 |]. split.
  - apply H2; [cbn; auto 20 | reflexivity].
  - destruct (H3 eq_refl) as [_ [H4 _]]. exact H4.
Defined.

(** * The analysis scripts: scores *)

Lemma increment_in k (d : counters) :
  NoDup (map fst d) -> In k (map fst d) ->
  increment k d =
    Ok (map (fun kn : string * nat =>
               (fst kn, snd kn + (if String.eqb k (fst kn) then 1 else 0))) d).
Proof.
  induction d as [|[k' n] d IH]; intros Hnd Hin; [contradiction |].
  cbn [map fst] in Hnd, Hin. inversion Hnd as [|? ? Hnotin Hnd']. subst.
  cbn [increment map fst snd].
  destruct (String.eqb_spec k k') as [-> | Hne].
  - f_equal. f_equal.
    rewrite <- (map_id d) at 1. apply map_ext_in. intros [k n'] Hk. cbn [fst snd].
    destruct (String.eqb_spec k' k) as [-> | _].
    + elim Hnotin. apply in_map_iff. exists (k, n'). split; [reflexivity | exact Hk].
    + rewrite Nat.add_0_r. reflexivity.
  - destruct Hin as [Heq | Hin]; [elim Hne; symmetry; exact Heq |].
    rewrite (IH Hnd' Hin), Nat.add_0_r. reflexivity.
Qed.

(** A loop that adds one to the counter of the class of each element. *)
Lemma tally {X} (classify : X -> option string) (xs : list X) :
  forall d : counters,
    NoDup (map fst d) ->
    (forall x k, In x xs -> classify x = Some k -> In k (map fst d)) ->
    fold_left (fun acc x =>
                 match acc with
                 | Ok d =>
                     match classify x with
                     | Some k => increment k d
                     | None => Ok d
                     end
                 | Raises e => Raises e
                 end) xs (Ok d)
    = Ok (map (fun kn : string * nat =>
                 (fst kn,
                  snd kn +
                  List.length (filter (fun x => match classify x with
                                                | Some k => String.eqb k (fst kn)
                                                | None => false
                                                end) xs))) d).
Proof.
  induction xs as [|x xs IH]; intros d Hnd Hk.
  - cbn [fold_left filter List.length]. f_equal.
    rewrite <- (map_id d) at 1. apply map_ext. intros [k n]. cbn [fst snd].
    rewrite Nat.add_0_r. reflexivity.
  - cbn [fold_left].
    destruct (classify x) as [k|] eqn:Hx.
    + rewrite (increment_in k d Hnd (Hk x k (or_introl eq_refl) Hx)).
      rewrite IH.
      * f_equal. rewrite map_map. apply map_ext. intros [k' n]. cbn [fst snd filter].
        rewrite Hx. destruct (String.eqb k k'); cbn [List.length]; f_equal; lia.
      * rewrite map_map. cbn [fst]. exact Hnd.
      * intros y k' Hy Hc. rewrite map_map. cbn [fst].
        exact (Hk y k' (or_intror Hy) Hc).
    + rewrite IH; [| exact Hnd | intros y k' Hy; exact (Hk y k' (or_intror Hy))].
      f_equal. apply map_ext. intros [k' n]. cbn [fst snd filter].
      rewrite Hx. reflexivity.
Qed.

Lemma total_tally {X} (p : X -> string -> bool) (xs : list X) (keys : list string) :
  (forall x, List.length (filter (p x) keys) <= 1) ->
  fold_right plus 0
    (map (fun k => List.length (filter (fun x => p x k) xs)) keys)
  = List.length (filter (fun x => existsb (p x) keys) xs).
Proof.
  intros Hone. induction xs as [|x xs IH].
  - cbn. clear Hone. induction keys as [|k keys IHk]; [reflexivity | exact IHk].
  - assert (Hsplit : fold_right plus 0
                       (map (fun k => List.length (filter (fun x => p x k) (x :: xs)))
                            keys)
                     = List.length (filter (p x) keys) +
                       fold_right plus 0
                         (map (fun k => List.length (filter (fun x => p x k) xs)) keys)).
    { clear. induction keys as [|k keys IHk]; [reflexivity |].
      cbn [map fold_right]. rewrite IHk. cbn [filter].
      destruct (p x k); cbn [List.length]; lia. }
    rewrite Hsplit, IH. cbn [filter].
    specialize (Hone x).
    assert (Hex : existsb (p x) keys = negb (List.length (filter (p x) keys) =? 0)).
    { clear. induction keys as [|k keys IHk]; [reflexivity |].
      cbn [existsb filter]. destruct (p x k); [reflexivity | exact IHk]. }
    rewrite Hex.
    destruct (List.length (filter (p x) keys)) as [|[|n]]; cbn [Nat.eqb negb List.length];
      lia.
Qed.

Lemma Qle_bool_reflect a b : reflect (a <= b)%Q (Qle_bool a b).
Proof. apply iff_reflect. symmetry. apply Qle_bool_iff. Qed.

Ltac compare_scores :=
  repeat match goal with
         | |- context [Qle_bool ?a ?b] => destruct (Qle_bool_reflect a b)
         | H : context [Qle_bool ?a ?b] |- _ => destruct (Qle_bool_reflect a b)
         end.

(** The scores that no range of [quality_ranges] holds. *)
Lemma quality_range_none q :
  quality_range (Finite q) = None <->
  (q < 0 \/ (59 < q /\ q < 60) \/ (69 < q /\ q < 70) \/ (79 < q /\ q < 80) \/
   (89 < q /\ q < 90) \/ 100 < q)%Q.
Proof.
  unfold quality_range, quality_ranges. cbn [find fst snd int_le le_int].
  unfold inject_Z.
  compare_scores; cbn [andb]; split; intros H; try discriminate; try reflexivity;
    try Lqa.lra; exfalso; Lqa.lra.
Qed.

(** A score inside a range is in the category of the same band. *)
Lemma quality_range_category score range_name :
  quality_range score = Some range_name ->
  In (range_name, quality_category score)
     [("90-100", "Exceptional (90-100)"); ("80-89", "Excellent (80-89)");
      ("70-79", "Good (70-79)"); ("60-69", "Average (60-69)");
      ("Below 60", "Below Average (<60)")].
Proof.
  destruct score as [q| | |]; try discriminate.
  unfold quality_range, quality_ranges, quality_category, ge_int.
  cbn [find fst snd int_le le_int]. unfold inject_Z.
  compare_scores; cbn [andb fst]; intros H; try discriminate;
    injection H as <-; cbn [In]; try tauto; exfalso; Lqa.lra.
Qed.

Lemma quality_range_key score range_name :
  quality_range score = Some range_name ->
  In range_name ["90-100"; "80-89"; "70-79"; "60-69"; "Below 60"].
Proof.
  unfold quality_range.
  destruct (find _ quality_ranges) as [r|] eqn:Hf; [| discriminate].
  intros H. injection H as <-. apply find_some in Hf as [Hin _].
  apply (in_map fst) in Hin. exact Hin.
Qed.

Lemma quality_category_key score :
  In (quality_category score)
     ["Exceptional (90-100)"; "Excellent (80-89)"; "Good (70-79)";
      "Average (60-69)"; "Below Average (<60)"].
Proof.
  unfold quality_category.
  destruct (ge_int score 90); [cbn; tauto |].
  destruct (ge_int score 80); [cbn; tauto |].
  destruct (ge_int score 70); [cbn; tauto |].
  destruct (ge_int score 60); cbn; tauto.
Qed.

Lemma total_counts {X} (p : X -> string -> bool) (xs : list X) (d : counters) :
  total (map (fun kn : string * nat =>
                (fst kn, List.length (filter (fun x => p x (fst kn)) xs))) d)
  = fold_right plus 0
      (map (fun k => List.length (filter (fun x => p x k) xs)) (map fst d)).
Proof. unfold total. rewrite !map_map. reflexivity. Qed.

Lemma total_tally_counters {X} (p : X -> string -> bool) (xs : list X)
  (d : counters) :
  (forall x, List.length (filter (p x) (map fst d)) <= 1) ->
  total (map (fun kn : string * nat =>
                (fst kn, List.length (filter (fun x => p x (fst kn)) xs))) d)
  = List.length (filter (fun x => existsb (p x) (map fst d)) xs).
Proof. intros H. rewrite total_counts. apply total_tally, H. Qed.

Lemma quality_category_once (games : list scored_game) :
  forall game : scored_game,
    List.length (filter (String.eqb (quality_category (Score game)))
                        (map fst quality_categories)) <= 1.
Proof.
  intros game.
  pose proof (quality_category_key (Score game)) as Hk. cbn [In] in Hk.
  destruct Hk as [<- | [<- | [<- | [<- | [<- | []]]]]]; vm_compute; lia.
Qed.

Lemma quality_range_once (games : list scored_game) :
  forall game : scored_game,
    List.length
      (filter (fun k => match quality_range (Score game) with
                        | Some range_name => String.eqb range_name k
                        | None => false
                        end)
              (map fst (map (fun r : string * (Z * Z) => (fst r, 0)) quality_ranges)))
    <= 1.
Proof.
  intros game.
  destruct (quality_range (Score game)) as [r|] eqn:Hr; [| cbn; lia].
  pose proof (quality_range_key _ _ Hr) as Hk. cbn [In] in Hk.
  destruct Hk as [<- | [<- | [<- | [<- | [<- | []]]]]]; vm_compute; lia.
Qed.

(** X21. In [analyze_quality_sales_relationship] the five quality
    categories count every game once: their counters add up to the
    number of games, a NaN score counting as [Below Average].  The five
    quality ranges, whose bounds are whole numbers with both ends
    included, do not: a score strictly between 59 and 60, 69 and 70, 79
    and 80 or 89 and 90, below 0 or above 100, infinite or NaN, is in no
    range and is counted nowhere, so that the counters of
    [market_success] add up to the number of the other games only.  A
    score that is in a range is in the category of the same band. *)
Theorem scores_between_bands_are_not_counted :
  forall games : list scored_game,
    count_quality_categories games =
      Ok (map (fun kn : string * nat =>
                 (fst kn,
                  List.length
                    (filter (fun game =>
                               String.eqb (quality_category (Score game)) (fst kn))
                            games)))
              quality_categories) /\
    count_market_success games =
      Ok (map (fun r : string * (Z * Z) =>
                 (fst r,
                  List.length
                    (filter (fun game =>
                               match quality_range (Score game) with
                               | Some range_name => String.eqb range_name (fst r)
                               | None => false
                               end) games)))
              quality_ranges) /\
    (forall c, count_quality_categories games = Ok c -> total c = List.length games) /\
    (forall m,
        count_market_success games = Ok m ->
        total m +
        List.length (filter (fun game => match quality_range (Score game) with
                                         | Some _ => false
                                         | None => true
                                         end) games)
        = List.length games) /\
    (forall q,
        quality_range (Finite q) = None <->
        (q < 0 \/ (59 < q /\ q < 60) \/ (69 < q /\ q < 70) \/ (79 < q /\ q < 80) \/
         (89 < q /\ q < 90) \/ 100 < q)%Q) /\
    quality_range PosInf = None /\
    quality_range NegInf = None /\
    quality_range NaN = None /\
    quality_category NaN = "Below Average (<60)" /\
    (forall score range_name,
        quality_range score = Some range_name ->
        In (range_name, quality_category score)
           [("90-100", "Exceptional (90-100)"); ("80-89", "Excellent (80-89)");
            ("70-79", "Good (70-79)"); ("60-69", "Average (60-69)");
            ("Below 60", "Below Average (<60)")]).
Proof.
  intros games.
  assert (HC : count_quality_categories games =
      Ok (map (fun kn : string * nat =>
                 (fst kn,
                  List.length
                    (filter (fun game =>
                               String.eqb (quality_category (Score game)) (fst kn))
                            games)))
              quality_categories)).
  { unfold count_quality_categories.
    rewrite (tally (fun game => Some (quality_category (Score game))) games
               quality_categories).
    - reflexivity.
    - cbn. nodup_strings.
    - intros x k _ H. injection H as <-. apply quality_category_key. }
  assert (HM : count_market_success games =
      Ok (map (fun r : string * (Z * Z) =>
                 (fst r,
                  List.length
                    (filter (fun game =>
                               match quality_range (Score game) with
                               | Some range_name => String.eqb range_name (fst r)
                               | None => false
                               end) games)))
              quality_ranges)).
  { unfold count_market_success.
    etransitivity;
      [apply (tally (fun game => quality_range (Score game)) games
                (map (fun r : string * (Z * Z) => (fst r, 0)) quality_ranges)) |].
    - cbn. nodup_strings.
    - intros x k _ H. exact (quality_range_key _ _ H).
    - rewrite map_map. reflexivity. }
  split; [exact HC |]. split; [exact HM |].
  split; [| split].
  - intros c Hc. rewrite HC in Hc. assert (Heq := Hc). injection Heq as Heq.
    rewrite <- Heq. clear Hc Heq.
    etransitivity;
      [exact (total_tally_counters
                (fun game k => String.eqb (quality_category (Score game)) k)
                games quality_categories (quality_category_once games)) |].
    transitivity (List.length (filter (fun _ : scored_game => true) games));
      [| rewrite filter_true; reflexivity].
    f_equal. apply filter_ext. intros game.
    pose proof (quality_category_key (Score game)) as Hk.
    apply existsb_exists. eexists. split; [exact Hk | apply String.eqb_refl].
  - intros m Hm. rewrite HM in Hm. assert (Heq := Hm). injection Heq as Heq.
    rewrite <- Heq. clear Hm Heq.
    rewrite <- (filter_partition_length
                  (fun game => match quality_range (Score game) with
                               | Some _ => true
                               | None => false
                               end) games).
    f_equal.
    + etransitivity;
        [exact (total_tally_counters
                  (fun game k => match quality_range (Score game) with
                                 | Some range_name => String.eqb range_name k
                                 | None => false
                                 end)
                  games (map (fun r : string * (Z * Z) => (fst r, 0)) quality_ranges)
                  (quality_range_once games)) |].
      f_equal. apply filter_ext. intros game.
      destruct (quality_range (Score game)) as [r|] eqn:Hr; [| reflexivity].
      apply existsb_exists. exists r.
      split; [exact (quality_range_key _ _ Hr) | apply String.eqb_refl].
    + f_equal. apply filter_ext. intros game.
      destruct (quality_range (Score game)); reflexivity.
  - split; [exact quality_range_none |].
    repeat split. exact quality_range_category.
Qed.

(** A game with the score 89.5 is counted as [Excellent (80-89)] and in
    no range. *)
Lemma scores_between_bands_witness :
  quality_range (Finite 89.5) = None /\
  quality_category (Score fractional_game) = "Excellent (80-89)" /\
  total [("90-100", 1); ("80-89", 0); ("70-79", 0); ("60-69", 0); ("Below 60", 0)] +
  List.length (filter (fun game => match quality_range (Score game) with
                                   | Some _ => false
                                   | None => true
                                   end) three_games)
  = List.length three_games.
Proof.
  destruct (scores_between_bands_are_not_counted three_games)
    as [_ [_ [_ [H1 [H2 _]]]]].
  split; [| split].
  - apply H2. right. right. right. right. left. split; reflexivity.
  - reflexivity.
  - apply H1. reflexivity.
Defined.

Lemma quality_split_once score :
  (if ge_int score 80 then 1 else 0) +
  (if int_le 60 score && lt_int score 80 then 1 else 0) +
  (if lt_int score 60 then 1 else 0) +
  (if is_nan score then 1 else 0) = 1.
Proof.
  destruct score as [q| | |]; try reflexivity.
  unfold ge_int, int_le, lt_int, is_nan, inject_Z.
  compare_scores; cbn; try reflexivity; exfalso; Lqa.lra.
Qed.

(** X22. [analyze_game_quality] splits the games into high (score >= 80),
    medium (60 <= score < 80) and low (score < 60) quality.  The three
    counts add up to the number of games whose score is not NaN: every
    such game is in exactly one of the three, and a game with a NaN score
    is in none, so that the three percentages of the report add up to
    100 exactly when no score is NaN. *)
Theorem quality_split_misses_only_nan :
  forall games : list scored_game,
    high_quality_games games + medium_quality_games games + low_quality_games games +
    List.length (filter (fun game => is_nan (Score game)) games)
    = List.length games /\
    (forallb (fun game => negb (is_nan (Score game))) games = true <->
     high_quality_games games + medium_quality_games games + low_quality_games games
     = List.length games).
Proof.
  intros games.
  assert (H : high_quality_games games + medium_quality_games games +
              low_quality_games games +
              List.length (filter (fun game => is_nan (Score game)) games)
              = List.length games).
  { unfold high_quality_games, medium_quality_games, low_quality_games.
    induction games as [|game games IH]; [reflexivity |].
    cbn [filter]. pose proof (quality_split_once (Score game)) as Hone.
    destruct (ge_int (Score game) 80);
      destruct (int_le 60 (Score game) && lt_int (Score game) 80);
      destruct (lt_int (Score game) 60);
      destruct (is_nan (Score game)); cbn [List.length] in *; lia. }
  split; [exact H |].
  assert (Hnan : forallb (fun game => negb (is_nan (Score game))) games = true <->
                 List.length (filter (fun game => is_nan (Score game)) games) = 0).
  { clear H. induction games as [|game games IH]; [split; reflexivity |].
    cbn [forallb filter]. destruct (is_nan (Score game)); cbn [negb andb List.length].
    - split; discriminate.
    - exact IH. }
  rewrite Hnan. lia.
Qed.

(** Three games of which one has no usable score: two are counted. *)
Lemma quality_split_witness :
  high_quality_games three_games + medium_quality_games three_games +
  low_quality_games three_games + 1 = List.length three_games.
Proof.
  destruct (quality_split_misses_only_nan three_games) as [H _].
  exact H.
Defined.
